(** * Cognizant AI Assistant: session store, completion client, persistence

    A shallow embedding of the request-orchestration and session-state core
    of the chat assistant:

    - [src/utils/storage.ts]   (localStorage persistence, legacy migration),
    - [src/services/tavily.ts] (web search client, citation block),
    - [src/services/openai.ts] (two-phase completion protocol),
    - [src/hooks/useChat.ts]   (the session store and its effects),
    - [src/components/Sidebar.tsx], [src/components/ChatInput.tsx]
      (the grouping of the sidebar, the handlers of the input field).

    Conventions of the embedding.

    - A JavaScript string is a [string]; one character stands for one UTF-16
      code unit, and code units above 255 are outside the model.
    - A value read from a JSON document is a [JSON]; [option JSON] adds
      JavaScript's [undefined] as [None].  JSON numbers are integers of
      magnitude at most 2^53; a JSON text beyond the values of the model
      is told apart from a text that is not JSON ([Json.wellFormed]).
    - [generateId()] and [new Date().toISOString()] are inputs of the
      operations that call them.
    - Every React event handler runs as one atomic transition on the store:
      state updaters are applied to the state the handler was created from.
    - [fetch] is an oracle: the n-th completion call resolves or rejects as
      the environment says. *)

From Stdlib Require Import ZArith String Ascii List Bool Lia.
From Stdlib Require Import DecimalString DecimalFacts DecimalPos.
From stdpp Require Import base option list strings gmap sorting.

Local Open Scope string_scope.

#[local] Set Warnings "-register-all".

(* ===================================================================== *)
(** * JavaScript strings *)
(* ===================================================================== *)

Module JsString.

Definition code (c : ascii) : N := N_of_ascii c.

(** White space and line terminators that [String.prototype.trim]
    strips, among the code units of the model. *)
Definition isWhiteSpace (c : ascii) : bool :=
  let n := code c in
  ((9 <=? n) && (n <=? 13))%N || (n =? 32)%N || (n =? 160)%N.

Fixpoint trimStart (s : string) : string :=
  match s with
  | String c r => if isWhiteSpace c then trimStart r else s
  | EmptyString => EmptyString
  end.

Fixpoint trimEnd (s : string) : string :=
  match s with
  | String c r =>
      match trimEnd r with
      | EmptyString => if isWhiteSpace c then EmptyString else String c EmptyString
      | r' => String c r'
      end
  | EmptyString => EmptyString
  end.

Definition trim (s : string) : string := trimEnd (trimStart s).

(** [s.slice(0, n)] for a non-negative [n]. *)
Definition slice0 (n : nat) (s : string) : string := String.substring 0 n s.

(** [s.includes(sub)] *)
Fixpoint includes (sub s : string) : bool :=
  String.prefix sub s ||
  match s with
  | String _ r => includes sub r
  | EmptyString => false
  end.

Definition lowerChar (c : ascii) : ascii :=
  let n := code c in
  if ((65 <=? n) && (n <=? 90))%N
     || ((192 <=? n) && (n <=? 222) && negb (n =? 215))%N
  then ascii_of_N (n + 32) else c.

Fixpoint toLowerCase (s : string) : string :=
  match s with
  | String c r => String (lowerChar c) (toLowerCase r)
  | EmptyString => EmptyString
  end.

(** A string is falsy exactly when it is empty. *)
Definition truthy (s : string) : bool := negb (String.eqb s "").

(** [a.join(sep)] on strings. *)
Fixpoint join (sep : string) (l : list string) : string :=
  match l with
  | [] => ""
  | [x] => x
  | x :: r => x ++ sep ++ join sep r
  end.

(** Decimal rendering of an integer, as [String(n)] and template
    literals give it. *)
Definition ofZ (z : Z) : string := NilZero.string_of_int (Z.to_int z).

Definition ofNat (n : nat) : string := ofZ (Z.of_nat n).

End JsString.

(* ===================================================================== *)
(** * JSON values, [JSON.stringify] and [JSON.parse]

    The two functions are the platform's, not the repository's.  They are
    written out after ECMA-262 (QuoteJSONString and the JSON grammar) so
    that what [localStorage] holds and what a tool call carries are
    texts, as in the code.  An object keeps its members in the order of
    the text; reading a property takes the last member of that name.

    The values of the model are a part of those of JavaScript: a number is
    an integer of magnitude at most 2^53 (where a literal is its own
    double and prints as written), a string has code units below 256, and
    the member names of a parsed object are distinct and none is written
    in digits only (so that the object lists its members in the order of
    the text).  [Json.parse] answers [None] on a text that is not JSON
    and also on a JSON text beyond these values; [Json.wellFormed]
    decides the JSON grammar itself, and is what tells a syntax error. *)
(* ===================================================================== *)

Inductive JSON : Type :=
| JNull
| JBool (b : bool)
| JNum (n : Z)
| JStr (s : string)
| JArr (items : list JSON)
| JObj (fields : list (string * JSON)).

(** A JavaScript value as the code sees it after [JSON.parse]: a JSON
    value, or [undefined]. *)
Abbreviation JsValue := (option JSON).

Module Json.

Definition dquote : ascii := "034"%char.
Definition backslash : ascii := "092"%char.

(** ** Reading properties *)

(** [o.k] on a parsed object: the last binding of a repeated key wins. *)
Fixpoint lookup (k : string) (fields : list (string * JSON)) : JsValue :=
  match fields with
  | [] => None
  | (k', v) :: r =>
      match lookup k r with
      | Some w => Some w
      | None => if String.eqb k k' then Some v else None
      end
  end.

(** [v?.k] for the property names the code reads; none of them is a
    property of a string, a number, a boolean or an array. *)
Definition prop (k : string) (v : JsValue) : JsValue :=
  match v with
  | Some (JObj fields) => lookup k fields
  | _ => None
  end.

(** [v?.[0]] *)
Definition first (v : JsValue) : JsValue :=
  match v with
  | Some (JArr items) => head items
  | Some (JStr (String c _)) => Some (JStr (String c EmptyString))
  | Some (JObj fields) => lookup "0" fields
  | _ => None
  end.

(** Truthiness, as [!v], [a || b] and [if (v)] test it. *)
Definition truthy (v : JsValue) : bool :=
  match v with
  | None | Some JNull => false
  | Some (JBool b) => b
  | Some (JNum n) => negb (n =? 0)%Z
  | Some (JStr s) => JsString.truthy s
  | Some (JArr _) | Some (JObj _) => true
  end.

(** [a || b] *)
Definition or (a b : JsValue) : JsValue := if truthy a then a else b.

(** [typeof v === 'string'] *)
Definition isString (v : JsValue) : bool :=
  match v with Some (JStr _) => true | _ => false end.

(** [v === s] for a string [s] *)
Definition isTheString (s : string) (v : JSON) : bool :=
  match v with JStr t => String.eqb t s | _ => false end.

(** [String(v)], also the conversion of template literals and of the
    [Error] constructor. *)
Fixpoint toString (j : JSON) : string :=
  match j with
  | JNull => "null"
  | JBool true => "true"
  | JBool false => "false"
  | JNum n => JsString.ofZ n
  | JStr s => s
  | JArr items =>
      JsString.join ","
        (map (fun x => match x with JNull => "" | _ => toString x end) items)
  | JObj _ => "[object Object]"
  end.

Definition toStringV (v : JsValue) : string :=
  match v with None => "undefined" | Some j => toString j end.

(** ** [JSON.stringify] *)

Definition hexDigit (n : N) : ascii :=
  if (n <? 10)%N then ascii_of_N (48 + n) else ascii_of_N (87 + n).

(** QuoteJSONString, one code unit. *)
Definition quoteChar (c : ascii) : string :=
  let n := JsString.code c in
  if (n =? 34)%N then String backslash (String dquote "")
  else if (n =? 92)%N then String backslash (String backslash "")
  else if (n =? 8)%N then String backslash "b"
  else if (n =? 9)%N then String backslash "t"
  else if (n =? 10)%N then String backslash "n"
  else if (n =? 12)%N then String backslash "f"
  else if (n =? 13)%N then String backslash "r"
  else if (n <? 32)%N then
    String backslash
      (String "u" (String "0" (String "0"
         (String (hexDigit (n / 16)) (String (hexDigit (n mod 16)) "")))))
  else String c "".

Fixpoint quoteBody (s : string) : string :=
  match s with
  | String c r => quoteChar c ++ quoteBody r
  | EmptyString => EmptyString
  end.

Definition quote (s : string) : string :=
  String dquote (quoteBody s ++ String dquote "").

Fixpoint stringify (j : JSON) : string :=
  match j with
  | JNull => "null"
  | JBool true => "true"
  | JBool false => "false"
  | JNum n => JsString.ofZ n
  | JStr s => quote s
  | JArr items => "[" ++ JsString.join "," (map stringify items) ++ "]"
  | JObj fields =>
      "{" ++ JsString.join ","
               (map (fun kv => quote (fst kv) ++ ":" ++ stringify (snd kv)) fields)
          ++ "}"
  end.

(** ** [JSON.parse] *)

Definition isJsonSpace (c : ascii) : bool :=
  let n := JsString.code c in
  (n =? 32)%N || (n =? 9)%N || (n =? 10)%N || (n =? 13)%N.

Fixpoint skipWs (s : string) : string :=
  match s with
  | String c r => if isJsonSpace c then skipWs r else s
  | EmptyString => EmptyString
  end.

Definition hexValue (c : ascii) : option N :=
  let n := JsString.code c in
  if ((48 <=? n) && (n <=? 57))%N then Some (n - 48)%N
  else if ((97 <=? n) && (n <=? 102))%N then Some (n - 87)%N
  else if ((65 <=? n) && (n <=? 70))%N then Some (n - 55)%N
  else None.

(** The four hexadecimal digits of a [\u] escape; a code unit above 255
    is outside the model. *)
Definition parseUnicode (s : string) : option (ascii * string) :=
  match s with
  | String a (String b (String c (String d r))) =>
      match hexValue a, hexValue b, hexValue c, hexValue d with
      | Some x3, Some x2, Some x1, Some x0 =>
          let n := (((x3 * 16 + x2) * 16 + x1) * 16 + x0)%N in
          if (n <? 256)%N then Some (ascii_of_N n, r) else None
      | _, _, _, _ => None
      end
  | _ => None
  end.

(** The characters of a string literal after its opening quote, up to
    and including the closing quote. *)
Fixpoint parseStringBody (fuel : nat) (s : string) : option (string * string) :=
  match fuel with
  | O => None
  | S fuel =>
      match s with
      | EmptyString => None
      | String c r =>
          let n := JsString.code c in
          if (n =? 34)%N then Some (EmptyString, r)
          else if (n =? 92)%N then
            match r with
            | String e r' =>
                let m := JsString.code e in
                let plain (x : ascii) :=
                  match parseStringBody fuel r' with
                  | Some (t, rest) => Some (String x t, rest)
                  | None => None
                  end in
                if (m =? 34)%N then plain dquote
                else if (m =? 92)%N then plain backslash
                else if (m =? 47)%N then plain "/"%char
                else if (m =? 98)%N then plain "008"%char
                else if (m =? 102)%N then plain "012"%char
                else if (m =? 110)%N then plain "010"%char
                else if (m =? 114)%N then plain "013"%char
                else if (m =? 116)%N then plain "009"%char
                else if (m =? 117)%N then
                  match parseUnicode r' with
                  | Some (x, r'') =>
                      match parseStringBody fuel r'' with
                      | Some (t, rest) => Some (String x t, rest)
                      | None => None
                      end
                  | None => None
                  end
                else None
            | EmptyString => None
            end
          else if (n <? 32)%N then None
          else
            match parseStringBody fuel r with
            | Some (t, rest) => Some (String c t, rest)
            | None => None
            end
      end
  end.

Definition isDigit (c : ascii) : bool :=
  let n := JsString.code c in ((48 <=? n) && (n <=? 57))%N.

(** The digits at the head of [s], their value added to [acc]. *)
Fixpoint parseDigits (acc : Z) (s : string) : Z * string :=
  match s with
  | String c r =>
      if isDigit c
      then parseDigits (acc * 10 + Z.of_N (JsString.code c - 48)) r
      else (acc, s)
  | EmptyString => (acc, s)
  end.

(** The largest magnitude up to which every integer is a double: 2^53. *)
Definition MAX_EXACT : Z := 9007199254740992.

(** An integer literal without sign.  A leading zero is a syntax error;
    a fraction, an exponent and an integer above 2^53 are beyond the
    model. *)
Definition parseUnsigned (t : string) : option (Z * string) :=
  match t with
  | String c r =>
      if isDigit c then
        let '(v, rest) := parseDigits 0 t in
        let bad :=
          match rest with
          | String d _ =>
              let n := JsString.code d in
              (n =? 46)%N || (n =? 101)%N || (n =? 69)%N
          | EmptyString => false
          end in
        let leadingZero :=
          match r with
          | String d _ => (JsString.code c =? 48)%N && isDigit d
          | EmptyString => false
          end in
        if bad || leadingZero || (MAX_EXACT <? v)%Z then None
        else Some (v, rest)
      else None
  | EmptyString => None
  end.

Definition parseNumber (s : string) : option (Z * string) :=
  match s with
  | String c r =>
      if (JsString.code c =? 45)%N
      then match parseUnsigned r with
           | Some (v, rest) => Some ((- v)%Z, rest)
           | None => None
           end
      else parseUnsigned s
  | EmptyString => None
  end.

(** A member name written in digits only; among these are the array
    indices, which an object lists before its other members. *)
Fixpoint allDigits (s : string) : bool :=
  match s with
  | String c r => isDigit c && allDigits r
  | EmptyString => true
  end.

Definition isIndexLike (k : string) : bool :=
  match k with
  | EmptyString => false
  | String _ _ => allDigits k
  end.

Fixpoint distinct (keys : list string) : bool :=
  match keys with
  | [] => true
  | k :: r => negb (existsb (String.eqb k) r) && distinct r
  end.

(** Member names for which the object of the text has its members in
    the order of the text, each once. *)
Definition plainKeys (keys : list string) : bool :=
  distinct keys && forallb (fun k => negb (isIndexLike k)) keys.

(** [s] without its prefix [p], when it starts with [p]. *)
Fixpoint stripPrefix (p s : string) : option string :=
  match p, s with
  | EmptyString, _ => Some s
  | String c p', String d s' => if Ascii.eqb c d then stripPrefix p' s' else None
  | String _ _, EmptyString => None
  end.

(** One JSON value at the head of [s]; [fuel] bounds the number of
    values, elements and members visited. *)
Fixpoint parseValue (fuel : nat) (s : string) : option (JSON * string) :=
  match fuel with
  | O => None
  | S fuel =>
      match s with
      | EmptyString => None
      | String c r =>
          let n := JsString.code c in
          if (n =? 34)%N then
            match parseStringBody (String.length r) r with
            | Some (t, rest) => Some (JStr t, rest)
            | None => None
            end
          else if (n =? 91)%N then
            match skipWs r with
            | String d r' =>
                if (JsString.code d =? 93)%N then Some (JArr [], r')
                else
                  match parseElements fuel (skipWs r) with
                  | Some (items, rest) => Some (JArr items, rest)
                  | None => None
                  end
            | EmptyString => None
            end
          else if (n =? 123)%N then
            match skipWs r with
            | String d r' =>
                if (JsString.code d =? 125)%N then Some (JObj [], r')
                else
                  match parseMembers fuel (skipWs r) with
                  | Some (fields, rest) =>
                      if plainKeys (map fst fields) then Some (JObj fields, rest)
                      else None
                  | None => None
                  end
            | EmptyString => None
            end
          else if (n =? 116)%N then
            match stripPrefix "true" s with
            | Some rest => Some (JBool true, rest)
            | None => None
            end
          else if (n =? 102)%N then
            match stripPrefix "false" s with
            | Some rest => Some (JBool false, rest)
            | None => None
            end
          else if (n =? 110)%N then
            match stripPrefix "null" s with
            | Some rest => Some (JNull, rest)
            | None => None
            end
          else
            match parseNumber s with
            | Some (v, rest) => Some (JNum v, rest)
            | None => None
            end
      end
  end

(** The elements of an array after its opening bracket, up to and
    including the closing bracket; at least one element. *)
with parseElements (fuel : nat) (s : string) : option (list JSON * string) :=
  match fuel with
  | O => None
  | S fuel =>
      match parseValue fuel s with
      | Some (v, rest) =>
          match skipWs rest with
          | String c r =>
              let n := JsString.code c in
              if (n =? 93)%N then Some ([v], r)
              else if (n =? 44)%N then
                match parseElements fuel (skipWs r) with
                | Some (vs, rest') => Some (v :: vs, rest')
                | None => None
                end
              else None
          | EmptyString => None
          end
      | None => None
      end
  end

(** The members of an object after its opening brace, up to and
    including the closing brace; at least one member. *)
with parseMembers (fuel : nat) (s : string)
  : option (list (string * JSON) * string) :=
  match fuel with
  | O => None
  | S fuel =>
      match s with
      | String q r =>
          if (JsString.code q =? 34)%N then
            match parseStringBody (String.length r) r with
            | Some (k, rest) =>
                match skipWs rest with
                | String colon rest1 =>
                    if (JsString.code colon =? 58)%N then
                      match parseValue fuel (skipWs rest1) with
                      | Some (v, rest2) =>
                          match skipWs rest2 with
                          | String c r' =>
                              let n := JsString.code c in
                              if (n =? 125)%N then Some ([(k, v)], r')
                              else if (n =? 44)%N then
                                match parseMembers fuel (skipWs r') with
                                | Some (kvs, rest3) => Some ((k, v) :: kvs, rest3)
                                | None => None
                                end
                              else None
                          | EmptyString => None
                          end
                      | None => None
                      end
                    else None
                | EmptyString => None
                end
            | None => None
            end
          else None
      | EmptyString => None
      end
  end.

(** [JSON.parse(text)], on the texts of the model: [None] when it throws
    a SyntaxError, and also when the text is beyond the model. *)
Definition parse (text : string) : option JSON :=
  match parseValue (S (String.length text)) (skipWs text) with
  | Some (v, rest) =>
      match skipWs rest with
      | EmptyString => Some v
      | String _ _ => None
      end
  | None => None
  end.

(** ** The JSON grammar

    The same descent as [parseValue], over the whole grammar and without
    building the value: any number literal, any [\u] escape, any member
    names.  Each function answers what follows the phrase it read. *)

Definition scanUnicode (s : string) : option string :=
  match s with
  | String a (String b (String c (String d r))) =>
      match hexValue a, hexValue b, hexValue c, hexValue d with
      | Some _, Some _, Some _, Some _ => Some r
      | _, _, _, _ => None
      end
  | _ => None
  end.

Fixpoint scanStringBody (fuel : nat) (s : string) : option string :=
  match fuel with
  | O => None
  | S fuel =>
      match s with
      | EmptyString => None
      | String c r =>
          let n := JsString.code c in
          if (n =? 34)%N then Some r
          else if (n =? 92)%N then
            match r with
            | String e r' =>
                let m := JsString.code e in
                if (m =? 34)%N || (m =? 92)%N || (m =? 47)%N || (m =? 98)%N
                   || (m =? 102)%N || (m =? 110)%N || (m =? 114)%N || (m =? 116)%N
                then scanStringBody fuel r'
                else if (m =? 117)%N then
                  match scanUnicode r' with
                  | Some r'' => scanStringBody fuel r''
                  | None => None
                  end
                else None
            | EmptyString => None
            end
          else if (n <? 32)%N then None
          else scanStringBody fuel r
      end
  end.

(** What follows the digits at the head of [s]. *)
Fixpoint skipDigits (s : string) : string :=
  match s with
  | String c r => if isDigit c then skipDigits r else s
  | EmptyString => s
  end.

(** One digit at least, and what follows the digits. *)
Definition scanDigits (s : string) : option string :=
  match s with
  | String c r => if isDigit c then Some (skipDigits r) else None
  | EmptyString => None
  end.

(** A number literal: an optional minus sign; then a zero, or a digit
    from 1 to 9 and any digits; then, optionally, a point and one digit
    at least; then, optionally, [e] or [E], an optional sign and one digit
    at least. *)
Definition scanNumber (s : string) : option string :=
  let unsigned :=
    match s with
    | String c r => if (JsString.code c =? 45)%N then r else s
    | EmptyString => s
    end in
  let afterInt :=
    match unsigned with
    | String c r =>
        if (JsString.code c =? 48)%N then Some r
        else if isDigit c then Some (skipDigits r)
        else None
    | EmptyString => None
    end in
  let fraction (t : string) : option string :=
    match t with
    | String c r => if (JsString.code c =? 46)%N then scanDigits r else Some t
    | EmptyString => Some t
    end in
  let exponent (t : string) : option string :=
    match t with
    | String c r =>
        if (JsString.code c =? 101)%N || (JsString.code c =? 69)%N then
          match r with
          | String d r' =>
              if (JsString.code d =? 43)%N || (JsString.code d =? 45)%N
              then scanDigits r' else scanDigits r
          | EmptyString => None
          end
        else Some t
    | EmptyString => Some t
    end in
  match afterInt with
  | Some t =>
      match fraction t with
      | Some u => exponent u
      | None => None
      end
  | None => None
  end.

Fixpoint scanValue (fuel : nat) (s : string) : option string :=
  match fuel with
  | O => None
  | S fuel =>
      match s with
      | EmptyString => None
      | String c r =>
          let n := JsString.code c in
          if (n =? 34)%N then scanStringBody (String.length r) r
          else if (n =? 91)%N then
            match skipWs r with
            | String d r' =>
                if (JsString.code d =? 93)%N then Some r'
                else scanElements fuel (skipWs r)
            | EmptyString => None
            end
          else if (n =? 123)%N then
            match skipWs r with
            | String d r' =>
                if (JsString.code d =? 125)%N then Some r'
                else scanMembers fuel (skipWs r)
            | EmptyString => None
            end
          else if (n =? 116)%N then stripPrefix "true" s
          else if (n =? 102)%N then stripPrefix "false" s
          else if (n =? 110)%N then stripPrefix "null" s
          else scanNumber s
      end
  end

with scanElements (fuel : nat) (s : string) : option string :=
  match fuel with
  | O => None
  | S fuel =>
      match scanValue fuel s with
      | Some rest =>
          match skipWs rest with
          | String c r =>
              let n := JsString.code c in
              if (n =? 93)%N then Some r
              else if (n =? 44)%N then scanElements fuel (skipWs r)
              else None
          | EmptyString => None
          end
      | None => None
      end
  end

with scanMembers (fuel : nat) (s : string) : option string :=
  match fuel with
  | O => None
  | S fuel =>
      match s with
      | String q r =>
          if (JsString.code q =? 34)%N then
            match scanStringBody (String.length r) r with
            | Some rest =>
                match skipWs rest with
                | String colon rest1 =>
                    if (JsString.code colon =? 58)%N then
                      match scanValue fuel (skipWs rest1) with
                      | Some rest2 =>
                          match skipWs rest2 with
                          | String c r' =>
                              let n := JsString.code c in
                              if (n =? 125)%N then Some r'
                              else if (n =? 44)%N then scanMembers fuel (skipWs r')
                              else None
                          | EmptyString => None
                          end
                      | None => None
                      end
                    else None
                | EmptyString => None
                end
            | None => None
            end
          else None
      | EmptyString => None
      end
  end.

(** Whether [text] is a JSON text: [JSON.parse(text)] throws a
    SyntaxError exactly when it is not. *)
Definition wellFormed (text : string) : bool :=
  match scanValue (S (String.length text)) (skipWs text) with
  | Some rest =>
      match skipWs rest with
      | EmptyString => true
      | String _ _ => false
      end
  | None => false
  end.

(** ** Measures on values *)

(** The value is one of the model: see the head of this part. *)
Fixpoint inDomain (j : JSON) : bool :=
  match j with
  | JNum n => (Z.abs n <=? MAX_EXACT)%Z
  | JArr items => forallb inDomain items
  | JObj fields =>
      plainKeys (map fst fields) && forallb (fun kv => inDomain (snd kv)) fields
  | _ => true
  end.

(** The values, elements and members of [j]: the fuel that reading it
    back takes. *)
Fixpoint size (j : JSON) : nat :=
  match j with
  | JArr items => S (list_sum (map (fun x => S (size x)) items))
  | JObj fields => S (list_sum (map (fun kv => S (size (snd kv))) fields))
  | _ => 1
  end.

(** The text of one member of an object. *)
Definition member (kv : string * JSON) : string :=
  quote (fst kv) ++ ":" ++ stringify (snd kv).

(** A text that ends a number literal put before it. *)
Definition delimited (tail : string) : bool :=
  match tail with
  | String c _ =>
      let n := JsString.code c in
      negb (isDigit c || (n =? 46)%N || (n =? 101)%N || (n =? 69)%N)
  | EmptyString => true
  end.

(** Reading back the text of [j], with enough fuel and whatever follows. *)
Definition readsBack (j : JSON) : Prop :=
  inDomain j = true ->
  forall fuel tail, size j <= fuel -> delimited tail = true ->
    parseValue fuel (stringify j ++ tail) = Some (j, tail).

End Json.


(* ===================================================================== *)
(** * Data model ([types/chat.ts]) *)
(* ===================================================================== *)

(** A chat message as held in application state.  [role] is a string at
    run time: the guard on load only asks for a string. *)
Module Message.

Record t : Type := mk {
  id : string;
  role : string;
  content : string;
  timestamp : string;
  isError : option bool
}.

(** The object [JSON.stringify] sees: an absent optional field is not
    written. *)
Definition toJSON (m : t) : JSON :=
  JObj ([("id", JStr (id m)); ("role", JStr (role m));
         ("content", JStr (content m)); ("timestamp", JStr (timestamp m))]
        ++ match isError m with
           | Some b => [("isError", JBool b)]
           | None => []
           end).

End Message.

Module Session.

Record t : Type := mk {
  id : string;
  title : string;
  messages : list Message.t;
  createdAt : string;
  updatedAt : string;
  starred : option bool
}.

Definition toJSON (s : t) : JSON :=
  JObj ([("id", JStr (id s)); ("title", JStr (title s));
         ("messages", JArr (map Message.toJSON (messages s)));
         ("createdAt", JStr (createdAt s)); ("updatedAt", JStr (updatedAt s))]
        ++ match starred s with
           | Some b => [("starred", JBool b)]
           | None => []
           end).

End Session.

(* ===================================================================== *)
(** * Persistence adapter ([utils/storage.ts]) *)
(* ===================================================================== *)

(** The browser's [localStorage]: the stored texts, and whether [setItem]
    throws (quota exceeded, storage disabled). *)
Record LocalStorage : Type := {
  entries : gmap string string;
  rejectsWrites : bool
}.

Module Storage.

Definition SESSIONS_KEY : string := "neural_chat_sessions".
Definition LEGACY_KEY : string := "neural_chat_history".
Definition MAX_SESSIONS : nat := 50.

Definition getItem (k : string) (ls : LocalStorage) : option string :=
  entries ls !! k.

(** [None]: the call throws. *)
Definition setItem (k v : string) (ls : LocalStorage) : option LocalStorage :=
  if rejectsWrites ls then None
  else Some {| entries := <[k := v]> (entries ls);
               rejectsWrites := rejectsWrites ls |}.

Definition removeItem (k : string) (ls : LocalStorage) : LocalStorage :=
  {| entries := delete k (entries ls); rejectsWrites := rejectsWrites ls |}.

(** [typeof v === 'object' && v !== null] *)
Definition isObject (v : JSON) : bool :=
  match v with JObj _ | JArr _ => true | _ => false end.

Definition isValidMessage (m : JSON) : bool :=
  isObject m
  && Json.isString (Json.prop "id" (Some m))
  && Json.isString (Json.prop "role" (Some m))
  && Json.isString (Json.prop "content" (Some m))
  && Json.isString (Json.prop "timestamp" (Some m)).

Definition isArray (v : JsValue) : bool :=
  match v with Some (JArr _) => true | _ => false end.

Definition isValidSession (s : JSON) : bool :=
  isObject s
  && Json.isString (Json.prop "id" (Some s))
  && Json.isString (Json.prop "title" (Some s))
  && isArray (Json.prop "messages" (Some s))
  && Json.isString (Json.prop "createdAt" (Some s))
  && Json.isString (Json.prop "updatedAt" (Some s)).

(** ** A guarded object seen through its declared interface

    The type guards narrow a parsed value to [Message] or [Session].
    The store keeps what the interface declares: the sessions that
    [loadSessions] returns are these views, and anything else a parsed
    object carries is not represented in the store, so that a session of
    the store is written as its declared members.  What the migration
    writes back is the text of the parsed objects themselves. *)

Definition str (v : JsValue) : string :=
  match v with Some (JStr s) => s | _ => "" end.

(** An optional flag of the interface, as the code reads it: by its
    truthiness ([!m.isError], [s.starred]), when the member is there. *)
Definition flag (v : JsValue) : option bool :=
  match v with
  | Some j => Some (Json.truthy (Some j))
  | None => None
  end.

Definition items (v : JsValue) : list JSON :=
  match v with Some (JArr l) => l | _ => [] end.

Definition asMessage (m : JSON) : Message.t :=
  {| Message.id := str (Json.prop "id" (Some m));
     Message.role := str (Json.prop "role" (Some m));
     Message.content := str (Json.prop "content" (Some m));
     Message.timestamp := str (Json.prop "timestamp" (Some m));
     Message.isError := flag (Json.prop "isError" (Some m)) |}.

(** [{ ...s, messages: s.messages.filter(isValidMessage) }] *)
Definition asSession (s : JSON) : Session.t :=
  {| Session.id := str (Json.prop "id" (Some s));
     Session.title := str (Json.prop "title" (Some s));
     Session.messages :=
       map asMessage (List.filter isValidMessage
                                  (items (Json.prop "messages" (Some s))));
     Session.createdAt := str (Json.prop "createdAt" (Some s));
     Session.updatedAt := str (Json.prop "updatedAt" (Some s));
     Session.starred := flag (Json.prop "starred" (Some s)) |}.

(** ** saveSessions *)

(** [saveSessions], on the objects it is handed: a write that throws is
    caught. *)
Definition saveObjects (sessions : list JSON) (ls : LocalStorage)
  : LocalStorage :=
  match setItem SESSIONS_KEY
          (Json.stringify (JArr (take MAX_SESSIONS sessions))) ls with
  | Some ls' => ls'
  | None => ls
  end.

(** [saveSessions], on sessions of the store. *)
Definition saveSessions (sessions : list Session.t) (ls : LocalStorage)
  : LocalStorage :=
  saveObjects (map Session.toJSON sessions) ls.

(** ** loadSessions

    [newId] is what [generateId()] returns if the migration runs.  A
    [JSON.parse] that throws sends control to the outer [catch], which
    falls through to [return []]; on a stored text beyond the model,
    where [Json.parse] answers [None] too, the code goes on with the
    parsed value and these definitions do not follow it. *)

(** The object literal of the migration: [{ id, title, messages,
    createdAt, updatedAt }], with the parsed messages as they are. *)
Definition sessionObject (id title : string) (messages : list JSON)
           (createdAt updatedAt : string) : JSON :=
  JObj [("id", JStr id); ("title", JStr title); ("messages", JArr messages);
        ("createdAt", JStr createdAt); ("updatedAt", JStr updatedAt)].

Definition migrateLegacy (newId : string) (ls : LocalStorage)
  : list Session.t * LocalStorage :=
  match getItem LEGACY_KEY ls with
  | Some legacyRaw =>
      if JsString.truthy legacyRaw then
        match Json.parse legacyRaw with
        | None => ([], ls)
        | Some (JArr parsed) =>
            let valid := List.filter isValidMessage parsed in
            let messages := map asMessage valid in
            match messages, last messages with
            | first :: _, Some final =>
                let firstUser :=
                  find (fun m => String.eqb (Message.role m) "user") messages in
                let title :=
                  match firstUser with
                  | Some u => JsString.slice0 40 (Message.content u)
                  | None => "Previous Chat"
                  end in
                let session :=
                  {| Session.id := newId;
                     Session.title := title;
                     Session.messages := messages;
                     Session.createdAt := Message.timestamp first;
                     Session.updatedAt := Message.timestamp final;
                     Session.starred := None |} in
                ([session],
                 saveObjects
                   [sessionObject newId title valid (Message.timestamp first)
                                  (Message.timestamp final)]
                   (removeItem LEGACY_KEY ls))
            | _, _ => ([], ls)
            end
        | Some _ => ([], ls)
        end
      else ([], ls)
  | None => ([], ls)
  end.

Definition loadSessions (newId : string) (ls : LocalStorage)
  : list Session.t * LocalStorage :=
  match getItem SESSIONS_KEY ls with
  | Some raw =>
      if JsString.truthy raw then
        match Json.parse raw with
        | None => ([], ls)
        | Some (JArr parsed) =>
            let sessions :=
              map asSession (List.filter isValidSession parsed) in
            match sessions with
            | _ :: _ => (sessions, ls)
            | [] => migrateLegacy newId ls
            end
        | Some _ => migrateLegacy newId ls
        end
      else migrateLegacy newId ls
  | None => migrateLegacy newId ls
  end.

Definition clearAllSessions (ls : LocalStorage) : LocalStorage :=
  removeItem LEGACY_KEY (removeItem SESSIONS_KEY ls).

(** ** Timestamps

    [new Date(iso).getTime()] is an input: milliseconds, or [None] for an
    invalid date (NaN, for which every comparison below is false).  The
    renderings of [toLocaleTimeString] and [toLocaleDateString] are inputs
    too.  Time values are integers well inside the exact range of
    doubles, so [Math.floor(a / b)] is the floor division. *)

Definition formatTimestamp (timeOfDay fullDate : string) (now : Z)
           (date : option Z) : string :=
  match date with
  | None => fullDate
  | Some d =>
      let diffMs := (now - d)%Z in
      let diffMins := (diffMs / 60000)%Z in
      let diffHours := (diffMs / 3600000)%Z in
      if (diffMins <? 1)%Z then "Just now"
      else if (diffMins <? 60)%Z then JsString.ofZ diffMins ++ "m ago"
      else if (diffHours <? 24)%Z then timeOfDay
      else fullDate
  end.

Definition getSessionDateLabel (monthYear : string) (now : Z)
           (date : option Z) : string :=
  match date with
  | None => monthYear
  | Some d =>
      let diffDays := ((now - d) / 86400000)%Z in
      if (diffDays =? 0)%Z then "Today"
      else if (diffDays =? 1)%Z then "Yesterday"
      else if (diffDays <=? 7)%Z then "Previous 7 Days"
      else if (diffDays <=? 30)%Z then "Previous 30 Days"
      else monthYear
  end.

End Storage.

(* ===================================================================== *)
(** * Errors, responses and the effects of one send *)
(* ===================================================================== *)

(** What a [throw] or a rejected promise carries. *)
Inductive Thrown : Type :=
| OpenAIError (message : string) (statusCode : option Z) (code : JsValue)
| ErrorObject (message : string)   (* any other instance of Error *)
| NonError (rendering : string).   (* a thrown value that is no Error *)

(** [err instanceof Error ? err.message : String(err)] *)
Definition errorText (e : Thrown) : string :=
  match e with
  | OpenAIError m _ _ => m
  | ErrorObject m => m
  | NonError s => s
  end.

(** A fetch [Response]: its status, and what [response.json()] settles
    to. *)
Record Response : Type := {
  status : Z;
  json : Thrown + JSON
}.

Definition ok (r : Response) : bool :=
  ((200 <=? status r) && (status r <=? 299))%Z.

Inductive FetchOutcome : Type :=
| Rejects (e : Thrown)
| Resolves (r : Response).

Inductive ChatStatus : Type := idle | thinking | searching.

(** The message shapes of the chat-completions request. *)
Inductive OpenAIMessage : Type :=
| ChatMsg (role content : string)
| AssistantToolCalls (tool_calls : JsValue)               (* content: null *)
| ToolResult (content : string) (tool_call_id : JsValue).

(** The body of one completion request; model, temperature, token cap
    and [stream: false] are constants. *)
Record Request : Type := {
  messages : list OpenAIMessage;
  apiKey : string;
  includeTools : bool
}.

(** What one send does to the outside, in order. *)
Inductive Event : Type :=
| Notify (s : ChatStatus)            (* onStatusChange(s) *)
| GroqCall (req : Request)           (* fetch(API_URL, ...) *)
| TavilyCall (query : JsValue).      (* fetch(TAVILY_API_URL, ...) *)

(** The environment of one send. *)
Record Env : Type := {
  VITE_GROQ_API_KEY : option string;
  VITE_TAVILY_API_KEY : option string;
  dateStr : string;                    (* today, as toLocaleDateString gives it *)
  groqFetch : nat -> FetchOutcome;     (* outcome of the n-th completion call *)
  tavilyImport : option Thrown;        (* import('./tavily') fails with *)
  tavilyFetch : FetchOutcome           (* outcome of the search call *)
}.

(** Computations that may throw and that log their events. *)
Definition Run (A : Type) : Type := list Event -> (Thrown + A) * list Event.

Module RunMonad.

Definition ret {A} (a : A) : Run A := fun log => (inr a, log).

Definition throw {A} (e : Thrown) : Run A := fun log => (inl e, log).

Definition bind {A B} (m : Run A) (k : A -> Run B) : Run B :=
  fun log =>
    match m log with
    | (inr a, log') => k a log'
    | (inl e, log') => (inl e, log')
    end.

(** [try { m } catch (err) { handler(err) }] *)
Definition tryCatch {A} (m : Run A) (handler : Thrown -> Run A) : Run A :=
  fun log =>
    match m log with
    | (inr a, log') => (inr a, log')
    | (inl e, log') => handler e log'
    end.

Definition emit (ev : Event) : Run unit := fun log => (inr tt, (log ++ [ev])%list).

(** [await p] on a promise already settled. *)
Definition await {A} (p : Thrown + A) : Run A :=
  match p with inl e => throw e | inr a => ret a end.

End RunMonad.

Declare Scope run_scope.
Delimit Scope run_scope with run.
Notation "x <- m ;; k" := (RunMonad.bind m (fun x => k))
  (at level 100, m at next level, right associativity) : run_scope.
Notation "m ;; k" := (RunMonad.bind m (fun _ => k))
  (at level 100, right associativity) : run_scope.

Definition groqCalls (log : list Event) : list Request :=
  omap (fun ev => match ev with GroqCall r => Some r | _ => None end) log.

Definition notifications (log : list Event) : list ChatStatus :=
  omap (fun ev => match ev with Notify s => Some s | _ => None end) log.

Definition LF : string := String "010"%char "".

(** [!apiKey || apiKey === placeholder] fails: the key to use. *)
Definition configured (key : option string) (placeholder : string) : option string :=
  match key with
  | Some k =>
      if JsString.truthy k && negb (String.eqb k placeholder) then Some k else None
  | None => None
  end.

(* ===================================================================== *)
(** * Search client ([services/tavily.ts]) *)
(* ===================================================================== *)

Module Tavily.
Section WithEnv.

Variable env : Env.
Import RunMonad.
Local Open Scope run_scope.

Definition searchWeb (query : JsValue) : Run JSON :=
  match configured (VITE_TAVILY_API_KEY env) "your_tavily_api_key_here" with
  | None => throw (ErrorObject "Tavily API key is not configured.")
  | Some _ =>
      emit (TavilyCall query) ;;
      response <- await (match tavilyFetch env with
                         | Rejects e => inl e
                         | Resolves r => inr r
                         end) ;;
      if negb (ok response)
      then throw (ErrorObject ("Tavily search failed: " ++ JsString.ofZ (status response)))
      else await (json response)
  end.

(** One line of the citation block; [None] when reading a property of
    [r] throws. *)
Definition sourceLine (i : nat) (r : JSON) : option string :=
  match r with
  | JNull => None
  | _ => Some (JsString.ofNat (i + 1) ++ ". ["
               ++ Json.toStringV (Json.prop "title" (Some r)) ++ "]("
               ++ Json.toStringV (Json.prop "url" (Some r)) ++ ")")
  end.

(** [l.map((r, i) => f(i, r))] where [f] may throw. *)
Fixpoint mapIndexed {A B} (f : nat -> A -> option B) (i : nat) (l : list A)
  : option (list B) :=
  match l with
  | [] => Some []
  | x :: r =>
      match f i x, mapIndexed f (S i) r with
      | Some y, Some ys => Some (y :: ys)
      | _, _ => None
      end
  end.

(** The citation block.  The declared argument is an array of results;
    [None] is the TypeError a value of another shape runs into. *)
Definition formatSourcesMarkdown (results : JsValue) : option string :=
  match results with
  | Some (JArr []) => Some ""
  | Some (JArr l) =>
      match mapIndexed sourceLine 0 (take 5 l) with
      | Some lines =>
          Some (LF ++ LF ++ "---" ++ LF ++ "**Sources:**" ++ LF
                ++ JsString.join LF lines)
      | None => None
      end
  | Some (JStr "") => Some ""
  | Some (JObj fields) =>
      match Json.lookup "length" fields with
      | Some (JNum 0) => Some ""
      | _ => None
      end
  | _ => None
  end.

End WithEnv.
End Tavily.

(* ===================================================================== *)
(** * Completion client ([services/openai.ts]) *)
(* ===================================================================== *)

Module OpenAI.
Section WithEnv.

Variable env : Env.
Import RunMonad.
Local Open Scope run_scope.

Definition buildSystemPrompt : string :=
  "You are a helpful, knowledgeable, and thoughtful AI assistant built by Cognizant." ++ LF ++
  "You provide clear, accurate, and well-structured responses." ++ LF ++
  "When writing code, always specify the programming language in code blocks." ++ LF ++
  "Be concise but thorough. Use markdown formatting where appropriate." ++ LF ++
  "Today's date is " ++ dateStr env ++ ". Your training data has a knowledge cutoff, so for very recent events you should use the web_search tool to get current information.".

Definition onStatusChange (s : ChatStatus) : Run unit := emit (Notify s).

(** One POST to the completions endpoint: the call is logged, and the
    environment says how it settles. *)
Definition doFetch (messages : list OpenAIMessage) (apiKey : string)
           (includeTools : bool) : Run Response :=
  fun log =>
    let req := {| messages := messages; apiKey := apiKey;
                  includeTools := includeTools |} in
    (match groqFetch env (length (groqCalls log)) with
     | Rejects e => inl e
     | Resolves r => inr r
     end, (log ++ [GroqCall req])%list).

(** [errorData?.error?.message || errorData?.error || fallback] *)
Definition providerMessage (errorData : JSON) (fallback : string) : JsValue :=
  Json.or (Json.or (Json.prop "message" (Json.prop "error" (Some errorData)))
                   (Json.prop "error" (Some errorData)))
          (Some (JStr fallback)).

Definition handleHttpError {A} (response : Response) : Run A :=
  let fallback := "Request failed with status " ++ JsString.ofZ (status response) in
  let '(errorMessage, code) :=
    match json response with
    | inr errorData =>
        (Json.toStringV (providerMessage errorData fallback),
         Json.prop "code" (Json.prop "error" (Some errorData)))
    | inl _ => (fallback, None)
    end in
  if (status response =? 401)%Z then
    throw (OpenAIError "Invalid API key. Please check your VITE_GROQ_API_KEY in the .env file." (Some 401%Z) code)
  else if (status response =? 429)%Z then
    throw (OpenAIError "Rate limit exceeded. Please wait a moment before sending another message." (Some 429%Z) code)
  else if (status response =? 503)%Z then
    throw (OpenAIError "Service unavailable. Please try again shortly." (Some 503%Z) code)
  else if (status response =? 500)%Z then
    throw (OpenAIError "Groq is experiencing issues. Please try again shortly." (Some 500%Z) code)
  else throw (OpenAIError errorMessage (Some (status response)) code).

Definition emptyResponse : Thrown :=
  OpenAIError "Received an empty response from the AI. Please try again." None None.

(** [typeof content !== 'string' || content.trim() === ''] throws,
    otherwise the content goes on. *)
Definition usableContent (content : JsValue) : Run string :=
  match content with
  | Some (JStr c) =>
      if String.eqb (JsString.trim c) "" then throw emptyResponse else ret c
  | _ => throw emptyResponse
  end.

(** [data?.choices?.[0]?.message?.content] *)
Definition firstContent (data : JSON) : JsValue :=
  Json.prop "content"
    (Json.prop "message" (Json.first (Json.prop "choices" (Some data)))).

(** The message of a 400 body: [String(errBody?.error?.message ||
    errBody?.error || '')], or [''] when the body cannot be read. *)
Definition badRequestMessage (response : Response) : string :=
  match json response with
  | inr errBody => Json.toStringV (providerMessage errBody "")
  | inl _ => ""
  end.

Definition isFailedGeneration (errMsg : string) : bool :=
  JsString.includes "Failed to call a function" errMsg
  || JsString.includes "failed_generation" errMsg.

(** The retry without tools. *)
Definition retryWithoutTools (messages : list OpenAIMessage) (apiKey : string)
  : Run string :=
  onStatusChange thinking ;;
  retryResp <- doFetch messages apiKey false ;;
  (if negb (ok retryResp) then handleHttpError retryResp else ret tt) ;;
  retryData <- await (json retryResp) ;;
  usableContent (firstContent retryData).

Definition searchUnavailable : string :=
  Json.stringify
    (JObj [("error", JStr "Web search unavailable. Answer from your training knowledge.")]).

(** One entry of the tool result: [{ title: r.title, url: r.url,
    content: r.content.slice(0, 500) }]; [None] when it throws. *)
Definition toolResultEntry (r : JSON) : option JSON :=
  let field (k : string) : list (string * JSON) :=
    match Json.prop k (Some r) with
    | Some v => [(k, v)]
    | None => []
    end in
  match r, Json.prop "content" (Some r) with
  | JNull, _ => None
  | _, Some (JStr c) =>
      Some (JObj (field "title" ++ field "url"
                  ++ [("content", JStr (JsString.slice0 500 c))])%list)
  | _, Some (JArr c) =>
      Some (JObj (field "title" ++ field "url"
                  ++ [("content", JArr (take 500 c))])%list)
  | _, _ => None
  end.

(** [JSON.stringify(results.slice(0, 5).map(...))] *)
Definition toolResultContent (results : JsValue) : option string :=
  match results with
  | Some (JArr l) =>
      match Tavily.mapIndexed (fun _ r => toolResultEntry r) 0 (take 5 l) with
      | Some entries => Some (Json.stringify (JArr entries))
      | None => None
      end
  | _ => None
  end.

(** The search step, [try { ... } catch { fallback }]: the tool result
    and the citation block.  It never throws. *)
Definition runSearch (searchQuery : JsValue) : Run (string * string) :=
  tryCatch
    (match tavilyImport env with
     | Some e => throw e
     | None =>
         tavilyData <- Tavily.searchWeb env searchQuery ;;
         let results := Json.prop "results" (Some tavilyData) in
         match Tavily.formatSourcesMarkdown results with
         | None => ret (searchUnavailable, "")
         | Some sourcesMarkdown =>
             match toolResultContent results with
             | Some searchResultContent => ret (searchResultContent, sourcesMarkdown)
             | None => ret (searchUnavailable, sourcesMarkdown)
             end
         end
     end)
    (fun _ => ret (searchUnavailable, "")).

(** [JSON.parse(toolCall.function.arguments).query] inside its [try];
    [None] when the [try] block throws.  On arguments beyond the model,
    where [Json.parse] answers [None] too, the code goes on with the
    parsed query and this definition does not follow it. *)
Definition searchQueryOf (toolCall : JsValue) : option JsValue :=
  match Json.prop "function" toolCall with
  | None | Some JNull => None
  | Some fn =>
      match Json.parse (Json.toStringV (Json.prop "arguments" (Some fn))) with
      | None | Some JNull => None
      | Some args => Some (Json.prop "query" (Some args))
      end
  end.

(** The request that carries the tool result back. *)
Definition messagesWithToolResult (messages : list OpenAIMessage)
           (toolCalls toolCall : JsValue) (searchResultContent : string)
  : list OpenAIMessage :=
  (messages ++ [AssistantToolCalls toolCalls;
                ToolResult searchResultContent (Json.prop "id" toolCall)])%list.

(** The tool-call path, after the first response asked for a tool. *)
Definition toolCallPath (messages : list OpenAIMessage) (apiKey : string)
           (firstChoice : JsValue) : Run string :=
  let toolCalls := Json.prop "tool_calls" (Json.prop "message" firstChoice) in
  let toolCall := Json.first toolCalls in
  if negb (Json.truthy toolCall) then
    throw (OpenAIError "Model indicated tool use but provided no tool call." None None)
  else
    match searchQueryOf toolCall with
    | None => throw (OpenAIError "Model returned an invalid search query." None None)
    | Some searchQuery =>
        onStatusChange searching ;;
        found <- runSearch searchQuery ;;
        let '(searchResultContent, sourcesMarkdown) := found in
        onStatusChange thinking ;;
        secondResponse <-
          tryCatch
            (doFetch (messagesWithToolResult messages toolCalls toolCall
                                             searchResultContent)
                     apiKey false)
            (fun err =>
               match err with
               | OpenAIError _ _ _ => throw err
               | _ => throw (OpenAIError ("Request failed: " ++ errorText err)
                                         None None)
               end) ;;
        (if negb (ok secondResponse) then handleHttpError secondResponse
         else ret tt) ;;
        secondData <- await (json secondResponse) ;;
        finalContent <- usableContent (firstContent secondData) ;;
        ret (finalContent ++ sourcesMarkdown)
    end.

(** [firstChoice?.finish_reason ?? 'stop'] *)
Definition finishReasonOf (firstChoice : JsValue) : JSON :=
  match Json.prop "finish_reason" firstChoice with
  | None | Some JNull => JStr "stop"
  | Some reason => reason
  end.

Definition isNetworkFailure (msg : string) : bool :=
  let lower := JsString.toLowerCase msg in
  JsString.includes "failed to fetch" lower
  || JsString.includes "load failed" lower
  || JsString.includes "networkerror" lower.

Definition sendChatMessage (conversationHistory : list OpenAIMessage) : Run string :=
  match configured (VITE_GROQ_API_KEY env) "your_groq_api_key_here" with
  | None =>
      throw (OpenAIError
               "Groq API key is not configured. Please add your VITE_GROQ_API_KEY to the .env file."
               (Some 401%Z) (Some (JStr "missing_api_key")))
  | Some apiKey =>
      let messages := ChatMsg "system" buildSystemPrompt :: conversationHistory in
      (* First call *)
      onStatusChange thinking ;;
      firstResponse <-
        tryCatch (doFetch messages apiKey true)
          (fun err =>
             match err with
             | OpenAIError _ _ _ => throw err
             | _ =>
                 let msg := errorText err in
                 if isNetworkFailure msg then
                   throw (OpenAIError
                            "Network error. Please check your internet connection and try again."
                            (Some 0%Z) (Some (JStr "network_error")))
                 else throw (OpenAIError ("Request failed: " ++ msg) None None)
             end) ;;
      if negb (ok firstResponse) then
        if (status firstResponse =? 400)%Z then
          let errMsg := badRequestMessage firstResponse in
          if isFailedGeneration errMsg then retryWithoutTools messages apiKey
          else throw (OpenAIError
                        (if JsString.truthy errMsg then errMsg
                         else "Request failed with status 400")
                        (Some 400%Z) None)
        else handleHttpError firstResponse
      else
        firstData <- await (json firstResponse) ;;
        let firstChoice := Json.first (Json.prop "choices" (Some firstData)) in
        if negb (Json.isTheString "tool_calls" (finishReasonOf firstChoice)) then
          (* Normal path: no tool call *)
          usableContent (Json.prop "content" (Json.prop "message" firstChoice))
        else
          (* Tool-call path *)
          toolCallPath messages apiKey firstChoice
  end.

End WithEnv.
End OpenAI.

(** The first completion request of a send: the system prompt before the
    history, with the tool declaration. *)
Definition firstRequest (env : Env) (history : list OpenAIMessage) (apiKey : string)
  : Request :=
  {| messages := ChatMsg "system" (OpenAI.buildSystemPrompt env) :: history;
     apiKey := apiKey; includeTools := true |}.

(** The event sequences one [sendChatMessage] can leave behind, by the
    path it took: no key; one request; the retry without tools; the tool
    path, with or without a search call. *)
Inductive SendTrace (env : Env) : list Event -> Prop :=
| trace_no_key :
    configured (VITE_GROQ_API_KEY env) "your_groq_api_key_here" = None ->
    SendTrace env []
| trace_direct apiKey req1 :
    configured (VITE_GROQ_API_KEY env) "your_groq_api_key_here" = Some apiKey ->
    SendTrace env [Notify thinking; GroqCall req1]
| trace_retry apiKey r1 req1 req2 :
    configured (VITE_GROQ_API_KEY env) "your_groq_api_key_here" = Some apiKey ->
    groqFetch env 0 = Resolves r1 ->
    status r1 = 400%Z ->
    OpenAI.isFailedGeneration (OpenAI.badRequestMessage r1) = true ->
    SendTrace env [Notify thinking; GroqCall req1; Notify thinking; GroqCall req2]
| trace_tool apiKey req1 req2 :
    configured (VITE_GROQ_API_KEY env) "your_groq_api_key_here" = Some apiKey ->
    SendTrace env [Notify thinking; GroqCall req1; Notify searching;
                   Notify thinking; GroqCall req2]
| trace_tool_search apiKey req1 query req2 :
    configured (VITE_GROQ_API_KEY env) "your_groq_api_key_here" = Some apiKey ->
    SendTrace env [Notify thinking; GroqCall req1; Notify searching;
                   TavilyCall query; Notify thinking; GroqCall req2].

(* ===================================================================== *)
(** * Session store ([hooks/useChat.ts]) *)
(* ===================================================================== *)

(** The state the hook owns. *)
Record Store : Type := {
  sessions : list Session.t;
  currentSessionId : option string;
  isLoading : bool;
  chatStatus : ChatStatus
}.

Module UseChat.

(** [generateId()] and the clock are inputs. *)
Definition createEmptySession (newId now : string) : Session.t :=
  {| Session.id := newId; Session.title := "New Chat"; Session.messages := [];
     Session.createdAt := now; Session.updatedAt := now;
     Session.starred := None |}.

(** [s.id === currentSessionId] *)
Definition isCurrent (current : option string) (s : Session.t) : bool :=
  match current with
  | Some c => String.eqb (Session.id s) c
  | None => false
  end.

(** [sessions.find(s => s.id === currentSessionId)] *)
Definition currentSession (st : Store) : option Session.t :=
  find (isCurrent (currentSessionId st)) (sessions st).

(** [sessions.find(...)?.messages ?? []] *)
Definition currentMessages (st : Store) : list Message.t :=
  match currentSession st with
  | Some s => Session.messages s
  | None => []
  end.

(** The mount effect, given what [loadSessions()] returned. *)
Definition mount (stored : list Session.t) (newId now : string) : Store :=
  match stored with
  | first :: _ =>
      {| sessions := stored; currentSessionId := Some (Session.id first);
         isLoading := false; chatStatus := idle |}
  | [] =>
      let fresh := createEmptySession newId now in
      {| sessions := [fresh]; currentSessionId := Some (Session.id fresh);
         isLoading := false; chatStatus := idle |}
  end.

Definition createNewSession (newId now : string) (st : Store) : Store :=
  match currentSession st with
  | Some current =>
      match Session.messages current with
      | [] => st
      | _ :: _ =>
          let fresh := createEmptySession newId now in
          {| sessions := fresh :: sessions st;
             currentSessionId := Some (Session.id fresh);
             isLoading := isLoading st; chatStatus := chatStatus st |}
      end
  | None =>
      let fresh := createEmptySession newId now in
      {| sessions := fresh :: sessions st;
         currentSessionId := Some (Session.id fresh);
         isLoading := isLoading st; chatStatus := chatStatus st |}
  end.

Definition switchSession (id : string) (st : Store) : Store :=
  {| sessions := sessions st; currentSessionId := Some id;
     isLoading := isLoading st; chatStatus := chatStatus st |}.

Definition deleteSession (id newId now : string) (st : Store) : Store :=
  let filtered :=
    List.filter (fun s => negb (String.eqb (Session.id s) id)) (sessions st) in
  match filtered with
  | [] =>
      let fresh := createEmptySession newId now in
      {| sessions := [fresh]; currentSessionId := Some (Session.id fresh);
         isLoading := isLoading st; chatStatus := chatStatus st |}
  | first :: _ =>
      {| sessions := filtered;
         currentSessionId :=
           if bool_decide (currentSessionId st = Some id)
           then Some (Session.id first) else currentSessionId st;
         isLoading := isLoading st; chatStatus := chatStatus st |}
  end.

(** [prev.map(s => s.id === id ? f(s) : s)] *)
Definition updateSession (id : option string) (f : Session.t -> Session.t)
           (l : list Session.t) : list Session.t :=
  map (fun s => if isCurrent id s then f s else s) l.

Definition withSessions (l : list Session.t) (st : Store) : Store :=
  {| sessions := l; currentSessionId := currentSessionId st;
     isLoading := isLoading st; chatStatus := chatStatus st |}.

Definition renameSession (id newTitle : string) (st : Store) : Store :=
  let trimmed := JsString.trim newTitle in
  if negb (JsString.truthy trimmed) then st
  else
    withSessions
      (updateSession (Some id)
         (fun s => {| Session.id := Session.id s; Session.title := trimmed;
                      Session.messages := Session.messages s;
                      Session.createdAt := Session.createdAt s;
                      Session.updatedAt := Session.updatedAt s;
                      Session.starred := Session.starred s |})
         (sessions st)) st.

(** [!s.starred]: an absent flag counts as false. *)
Definition toggleStarSession (id : string) (st : Store) : Store :=
  withSessions
    (updateSession (Some id)
       (fun s => {| Session.id := Session.id s; Session.title := Session.title s;
                    Session.messages := Session.messages s;
                    Session.createdAt := Session.createdAt s;
                    Session.updatedAt := Session.updatedAt s;
                    Session.starred :=
                      Some (negb (default false (Session.starred s))) |})
       (sessions st)) st.

(** [confirmed] is the answer of [window.confirm]. *)
Definition clearCurrentSession (confirmed : bool) (now : string) (st : Store)
  : Store :=
  if negb confirmed then st
  else
    withSessions
      (updateSession (currentSessionId st)
         (fun s => {| Session.id := Session.id s; Session.title := "New Chat";
                      Session.messages := [];
                      Session.createdAt := Session.createdAt s;
                      Session.updatedAt := now;
                      Session.starred := Session.starred s |})
         (sessions st)) st.

(** ** sendMessage *)

(** What the pending call keeps across its [await]. *)
Record Pending : Type := {
  sessionId : string;
  apiHistory : list OpenAIMessage
}.

(** [setChatStatus], also the callback handed to the client. *)
Definition setChatStatus (s : ChatStatus) (st : Store) : Store :=
  {| sessions := sessions st; currentSessionId := currentSessionId st;
     isLoading := isLoading st; chatStatus := s |}.

Definition setIsLoading (b : bool) (st : Store) : Store :=
  {| sessions := sessions st; currentSessionId := currentSessionId st;
     isLoading := b; chatStatus := chatStatus st |}.

Definition appendMessage (m : Message.t) (updatedAt : string) (s : Session.t)
  : Session.t :=
  {| Session.id := Session.id s; Session.title := Session.title s;
     Session.messages := (Session.messages s ++ [m])%list;
     Session.createdAt := Session.createdAt s;
     Session.updatedAt := updatedAt;
     Session.starred := Session.starred s |}.

(** The part of [sendMessage] before the [await]: [None] when the guard
    returns at once. *)
Definition beginSend (content newId now : string) (st : Store)
  : option (Pending * Store) :=
  let trimmed := JsString.trim content in
  match currentSessionId st with
  | Some sessionId =>
      if negb (JsString.truthy sessionId) || negb (JsString.truthy trimmed)
         || isLoading st
      then None
      else
        let userMessage :=
          {| Message.id := newId; Message.role := "user";
             Message.content := trimmed; Message.timestamp := now;
             Message.isError := None |} in
        let apiHistory :=
          (map (fun m => ChatMsg (Message.role m) (Message.content m))
               (List.filter (fun m => negb (default false (Message.isError m)))
                            (currentMessages st))
           ++ [ChatMsg "user" trimmed])%list in
        let st1 := setChatStatus thinking (setIsLoading true st) in
        let st2 :=
          withSessions
            (updateSession (Some sessionId)
               (fun s =>
                  let isFirst :=
                    negb (existsb (fun m => String.eqb (Message.role m) "user")
                                  (Session.messages s)) in
                  {| Session.id := Session.id s;
                     Session.title :=
                       if isFirst then JsString.slice0 40 trimmed
                       else Session.title s;
                     Session.messages := (Session.messages s ++ [userMessage])%list;
                     Session.createdAt := Session.createdAt s;
                     Session.updatedAt := now;
                     Session.starred := Session.starred s |})
               (sessions st1)) st1 in
        Some ({| sessionId := sessionId; apiHistory := apiHistory |}, st2)
  | None => None
  end.

(** [err instanceof Error ? err.message : 'An unexpected error occurred.'] *)
Definition displayText (e : Thrown) : string :=
  match e with
  | OpenAIError m _ _ => m
  | ErrorObject m => m
  | NonError _ => "An unexpected error occurred."
  end.

(** The continuation after the [await]: [try], [catch] and [finally]. *)
Definition settleSend (sessionId : string) (outcome : Thrown + string)
           (newId stamp updatedAt : string) (st : Store) : Store :=
  let reply :=
    match outcome with
    | inr responseText =>
        {| Message.id := newId; Message.role := "assistant";
           Message.content := responseText; Message.timestamp := stamp;
           Message.isError := None |}
    | inl err =>
        {| Message.id := newId; Message.role := "assistant";
           Message.content := displayText err; Message.timestamp := stamp;
           Message.isError := Some true |}
    end in
  let st1 :=
    withSessions
      (updateSession (Some sessionId) (appendMessage reply updatedAt)
                     (sessions st)) st in
  setChatStatus idle (setIsLoading false st1).

(** The identifiers and instants one send draws. *)
Record Draws : Type := {
  userMessageId : string;
  sentAt : string;
  replyId : string;
  repliedAt : string;
  replyUpdatedAt : string
}.

(** One whole [sendMessage] with nothing else happening in between:
    the final store and what the call did to the outside. *)
Definition sendMessage (env : Env) (d : Draws) (content : string) (st : Store)
  : Store * list Event :=
  match beginSend content (userMessageId d) (sentAt d) st with
  | None => (st, [])
  | Some (pending, st1) =>
      let '(outcome, log) := OpenAI.sendChatMessage env (apiHistory pending) [] in
      let st2 := foldl (fun s status => setChatStatus status s) st1
                       (notifications log) in
      (settleSend (sessionId pending) outcome
                  (replyId d) (repliedAt d) (replyUpdatedAt d) st2,
       log)
  end.

(** ** The store as a transition system *)

Inductive Action : Type :=
| CreateNewSession (newId now : string)
| SwitchSession (id : string)
| DeleteSession (id newId now : string)
| RenameSession (id newTitle : string)
| ToggleStarSession (id : string)
| ClearCurrentSession (confirmed : bool) (now : string)
| BeginSend (content newId now : string)
| StatusChange (s : ChatStatus)
| SettleSend (sessionId : string) (outcome : Thrown + string)
             (newId stamp updatedAt : string).

Definition step (a : Action) (st : Store) : Store :=
  match a with
  | CreateNewSession newId now => createNewSession newId now st
  | SwitchSession id => switchSession id st
  | DeleteSession id newId now => deleteSession id newId now st
  | RenameSession id newTitle => renameSession id newTitle st
  | ToggleStarSession id => toggleStarSession id st
  | ClearCurrentSession confirmed now => clearCurrentSession confirmed now st
  | BeginSend content newId now =>
      match beginSend content newId now st with
      | Some (_, st') => st'
      | None => st
      end
  | StatusChange s => setChatStatus s st
  | SettleSend sessionId outcome newId stamp updatedAt =>
      settleSend sessionId outcome newId stamp updatedAt st
  end.

(** Which actions a caller may take in a state: [allowed] is the
    discipline the callers follow. *)
Inductive reachable (allowed : Action -> Store -> Prop) : Store -> Prop :=
| reachable_mount stored newId now :
    reachable allowed (mount stored newId now)
| reachable_step a st :
    reachable allowed st -> allowed a st -> reachable allowed (step a st).

Definition anyAction : Action -> Store -> Prop := fun _ _ => True.

(** The caller's side of [switchSession]: the id is one of the
    collection. *)
Definition switchesToExisting (a : Action) (st : Store) : Prop :=
  match a with
  | SwitchSession id => id ∈ map Session.id (sessions st)
  | _ => True
  end.

(** The active pointer, when set, names a session of the collection. *)
Definition pointerValid (st : Store) : Prop :=
  match currentSessionId st with
  | Some id => id ∈ map Session.id (sessions st)
  | None => True
  end.

(** ** The effects around the store *)

(** The state of the first render: [useState([])], [useState(null)],
    [useState(false)], [useState('idle')]. *)
Definition initialStore : Store :=
  {| sessions := []; currentSessionId := None;
     isLoading := false; chatStatus := idle |}.

(** The persist effect: [if (!hasLoaded.current) return;
    saveSessions(sessions)]. *)
Definition persistEffect (hasLoaded : bool) (st : Store) (ls : LocalStorage)
  : LocalStorage :=
  if hasLoaded then Storage.saveSessions (sessions st) ls else ls.

(** What one run of the mount effect draws: the id of a migrated
    session, the id and the instant of a fresh one. *)
Record MountDraws : Type := {
  migratedId : string;
  freshId : string;
  freshAt : string
}.

(** The mount effect alone: [loadSessions()], and the state its setters
    leave.  It also raises [hasLoaded]. *)
Definition mountEffect (ls : LocalStorage) (d : MountDraws)
  : Store * LocalStorage :=
  let '(stored, ls') := Storage.loadSessions (migratedId d) ls in
  (mount stored (freshId d) (freshAt d), ls').

(** The first commit of the hook and the render that follows it.  The
    effects run in the order of the hook: the mount effect, then the
    persist effect, which finds [hasLoaded] raised and whose [sessions]
    is that of the first render, the empty array.  Under
    [React.StrictMode] in a development build the effects of the mounted
    component are then run a second time, with the same closures.  The
    state the setters were given last is rendered next, and that render
    runs the persist effect on its sessions.  The store keeps the declared
    members of a session: what this last write leaves is the code's text
    when the sessions read carried no other member, as those do that the
    application wrote. *)
Definition firstCommit (strictMode : bool) (ls : LocalStorage)
           (d1 d2 : MountDraws) : Store * LocalStorage :=
  let '(st1, ls1) := mountEffect ls d1 in
  let ls2 := persistEffect true initialStore ls1 in
  let '(st, ls3) :=
    if strictMode then
      let '(st2, ls3) := mountEffect ls2 d2 in
      (st2, persistEffect true initialStore ls3)
    else (st1, ls2) in
  (st, persistEffect true st ls3).

End UseChat.

(* ===================================================================== *)
(** * Sidebar ([components/Sidebar.tsx]) *)
(* ===================================================================== *)

Module Sidebar.

Definition DATE_ORDER : list string :=
  ["Today"; "Yesterday"; "Previous 7 Days"; "Previous 30 Days"].

(** [DATE_ORDER.indexOf(label)], [None] for -1. *)
Fixpoint indexOf (label : string) (l : list string) : option nat :=
  match l with
  | [] => None
  | x :: r => if String.eqb x label then Some 0
              else option_map S (indexOf label r)
  end.

(** The comparator of the sort, as the sign of its result. *)
Definition compareLabels (a b : string) : comparison :=
  match indexOf a DATE_ORDER, indexOf b DATE_ORDER with
  | Some ai, Some bi => Nat.compare ai bi
  | Some _, None => Lt
  | None, Some _ => Gt
  | None, None => Eq
  end.

Section Grouping.

(** [getSessionDateLabel(s.updatedAt)], with the clock and the date
    parsing of the platform behind it. *)
Variable labelOf : Session.t -> string.

Definition Group : Type := (string * list Session.t)%type.

(** One turn of the loop over the sessions: [arr = map.get(label) ?? [];
    arr.push(s); map.set(label, arr)].  A [Map] keeps its keys in the
    order of their first insertion. *)
Fixpoint addToGroup (label : string) (s : Session.t) (groups : list Group)
  : list Group :=
  match groups with
  | [] => [(label, [s])]
  | (l, items) :: rest =>
      if String.eqb l label then (l, (items ++ [s])%list) :: rest
      else (l, items) :: addToGroup label s rest
  end.

Definition collect (sessions : list Session.t) : list Group :=
  foldl (fun groups s => addToGroup (labelOf s) s groups) [] sessions.

(** [Array.prototype.sort] is stable: an entry goes before the first
    entry the comparator puts strictly after it. *)
Fixpoint insertGroup (g : Group) (sorted : list Group) : list Group :=
  match sorted with
  | [] => [g]
  | h :: rest =>
      match compareLabels (fst g) (fst h) with
      | Lt => g :: h :: rest
      | _ => h :: insertGroup g rest
      end
  end.

Definition sortGroups (groups : list Group) : list Group :=
  foldl (fun sorted g => insertGroup g sorted) [] groups.

Definition groupByDate (sessions : list Session.t) : list Group :=
  sortGroups (collect sessions).

(** [s.starred] as a condition. *)
Definition isStarred (s : Session.t) : bool := default false (Session.starred s).

(** What the sidebar lists: the starred sessions, then the others by
    date group. *)
Definition starredSessions (sessions : list Session.t) : list Session.t :=
  List.filter isStarred sessions.

Definition dateGroups (sessions : list Session.t) : list Group :=
  groupByDate (List.filter (fun s => negb (isStarred s)) sessions).

End Grouping.
End Sidebar.

(* ===================================================================== *)
(** * Message input ([components/ChatInput.tsx]) *)
(* ===================================================================== *)

Module ChatInput.

Definition MAX_CHARS : nat := 4000.

(** [handleChange]: a text over the limit is not taken. *)
Definition handleChange (newVal value : string) : string :=
  if (MAX_CHARS <? String.length newVal)%nat then value else newVal.

(** [handleSubmit]: what is handed to [onSend], if anything, and the new
    value of the field. *)
Definition handleSubmit (value : string) (isLoading : bool)
  : option string * string :=
  let trimmed := JsString.trim value in
  if negb (JsString.truthy trimmed) || isLoading then (None, value)
  else (Some trimmed, "").

(** The effect on [initialValue]: a suggested prompt replaces the value. *)
Definition prefill (initialValue value : string) : string :=
  if JsString.truthy initialValue then initialValue else value.

(** [canSend], which enables the send button. *)
Definition canSend (value : string) (isLoading : bool) : bool :=
  (0 <? String.length (JsString.trim value))%nat && negb isLoading
  && negb (MAX_CHARS <=? String.length value)%nat.

(** What happens to the field: typing, Enter (or a click on the enabled
    button), a suggested prompt. *)
Inductive Input : Type :=
| Change (newVal : string)
| Submit (isLoading : bool)
| Prefill (initialValue : string).

Definition step (a : Input) (value : string) : option string * string :=
  match a with
  | Change newVal => (None, handleChange newVal value)
  | Submit isLoading => handleSubmit value isLoading
  | Prefill initialValue => (None, prefill initialValue value)
  end.

(** The texts handed to [onSend] over a run of inputs, and the final
    value. *)
Fixpoint run (inputs : list Input) (value : string) : list string * string :=
  match inputs with
  | [] => ([], value)
  | a :: rest =>
      let '(sent, value1) := step a value in
      let '(more, value2) := run rest value1 in
      (match sent with Some text => text :: more | None => more end, value2)
  end.

(** A suggested prompt within the limit. *)
Definition withinLimit (a : Input) : Prop :=
  match a with
  | Prefill initialValue => String.length initialValue <= MAX_CHARS
  | _ => True
  end.

End ChatInput.

(* ===================================================================== *)
(** * Concrete stores and environments

    The inputs at which the properties below are exercised. *)
(* ===================================================================== *)

Definition busyStore : Store :=
  {| sessions := [UseChat.createEmptySession "s1" "2024-01-01T00:00:00.000Z"];
     currentSessionId := Some "s1"; isLoading := true; chatStatus := thinking |}.

Definition someEnv : Env :=
  {| VITE_GROQ_API_KEY := Some "gsk_test"; VITE_TAVILY_API_KEY := None;
     dateStr := "Monday, January 1, 2024";
     groqFetch := fun _ => Rejects (ErrorObject "Failed to fetch");
     tavilyImport := None;
     tavilyFetch := Rejects (ErrorObject "Failed to fetch") |}.

Definition someDraws : UseChat.Draws :=
  {| UseChat.userMessageId := "m1"; UseChat.sentAt := "2024-01-01T00:00:01.000Z";
     UseChat.replyId := "m2"; UseChat.repliedAt := "2024-01-01T00:00:02.000Z";
     UseChat.replyUpdatedAt := "2024-01-01T00:00:02.001Z" |}.

Definition soleSession : Session.t :=
  {| Session.id := "s1"; Session.title := "Trip plan";
     Session.messages :=
       [{| Message.id := "m0"; Message.role := "user";
           Message.content := "Plan a trip"; Message.timestamp := "2024-01-01T00:00:00.000Z";
           Message.isError := None |}];
     Session.createdAt := "2024-01-01T00:00:00.000Z";
     Session.updatedAt := "2024-01-01T00:00:00.000Z";
     Session.starred := Some true |}.

Definition soleStore : Store :=
  {| sessions := [soleSession]; currentSessionId := Some "s1";
     isLoading := false; chatStatus := idle |}.

(** A successful completion body with the given text. *)
Definition completionBody (text : string) : JSON :=
  JObj [("choices",
         JArr [JObj [("index", JNum 0);
                     ("message", JObj [("role", JStr "assistant");
                                       ("content", JStr text)]);
                     ("finish_reason", JStr "stop")]])].

(** The body of the 400 the provider sends when tool-call generation
    failed. *)
Definition failedGenerationBody : JSON :=
  JObj [("error",
         JObj [("message",
                JStr "Failed to call a function. Please adjust your prompt. See 'failed_generation' for more details.");
               ("type", JStr "invalid_request_error");
               ("code", JStr "tool_use_failed")])].

(** A completion body asking for one web search. *)
Definition toolCallBody : JSON :=
  JObj [("choices",
         JArr [JObj [("index", JNum 0);
                     ("message",
                      JObj [("role", JStr "assistant");
                            ("content", JNull);
                            ("tool_calls",
                             JArr [JObj [("id", JStr "call_1");
                                         ("type", JStr "function");
                                         ("function",
                                          JObj [("name", JStr "web_search");
                                                ("arguments",
                                                 JStr (Json.stringify
                                                         (JObj [("query", JStr "rocq prover release")])))])]])]);
                     ("finish_reason", JStr "tool_calls")]])].

Definition respond (code : Z) (body : JSON) : FetchOutcome :=
  Resolves {| status := code; json := inr body |}.

(** First request: 400, failed generation.  Second request: an answer. *)
Definition retryEnv : Env :=
  {| VITE_GROQ_API_KEY := Some "gsk_test"; VITE_TAVILY_API_KEY := Some "tvly_test";
     dateStr := "Monday, January 1, 2024";
     groqFetch := fun n => match n with
                           | O => respond 400 failedGenerationBody
                           | S _ => respond 200 (completionBody "Hi there")
                           end;
     tavilyImport := None;
     tavilyFetch := respond 200 (JObj [("results", JArr [])]) |}.

(** The model asks for a search, and no search key is configured. *)
Definition noSearchKeyEnv : Env :=
  {| VITE_GROQ_API_KEY := Some "gsk_test"; VITE_TAVILY_API_KEY := None;
     dateStr := "Monday, January 1, 2024";
     groqFetch := fun n => match n with
                           | O => respond 200 toolCallBody
                           | S _ => respond 200 (completionBody "Answer")
                           end;
     tavilyImport := None;
     tavilyFetch := Rejects (ErrorObject "Failed to fetch") |}.

(** No completion key is configured. *)
Definition noKeyEnv : Env :=
  {| VITE_GROQ_API_KEY := None; VITE_TAVILY_API_KEY := Some "tvly_test";
     dateStr := "Monday, January 1, 2024";
     groqFetch := fun _ => respond 200 (completionBody "Hi there");
     tavilyImport := None;
     tavilyFetch := respond 200 (JObj [("results", JArr [])]) |}.

Definition oneQuestion : list OpenAIMessage := [ChatMsg "user" "What is new?"].

Definition emptyStorage : LocalStorage := {| entries := ∅; rejectsWrites := false |}.

Definition greeting : Message.t :=
  {| Message.id := "m1"; Message.role := "assistant";
     Message.content := "How can I help?";
     Message.timestamp := "2023-12-31T23:59:58.000Z"; Message.isError := None |}.

Definition hello : Message.t :=
  {| Message.id := "m2"; Message.role := "user"; Message.content := "Hello world";
     Message.timestamp := "2023-12-31T23:59:59.000Z"; Message.isError := None |}.

Definition failure : Message.t :=
  {| Message.id := "m3"; Message.role := "assistant";
     Message.content := "Network error. Please check your internet connection and try again.";
     Message.timestamp := "2024-01-01T00:00:00.000Z"; Message.isError := Some true |}.

(** A store of the first schema: a flat array of three messages under
    the legacy key, the second being the first user message. *)
Definition legacyStorage : LocalStorage :=
  {| entries :=
       {[ Storage.LEGACY_KEY :=
            Json.stringify (JArr (map Message.toJSON [greeting; hello; failure])) ]};
     rejectsWrites := false |}.


(** Two search results, as the search endpoint returns them. *)
Definition twoResults : JSON :=
  JObj [("results",
         JArr [JObj [("title", JStr "Rocq 9.0 released"); ("url", JStr "https://rocq-prover.org/news");
                     ("content", JStr "The Rocq Prover 9.0 is out."); ("score", JNum 1)];
               JObj [("title", JStr "Release notes"); ("url", JStr "https://rocq-prover.org/changes");
                     ("content", JStr "Summary of changes."); ("score", JNum 0)]])].

(** The model asks for a search, and the search answers. *)
Definition searchEnv : Env :=
  {| VITE_GROQ_API_KEY := Some "gsk_test"; VITE_TAVILY_API_KEY := Some "tvly_test";
     dateStr := "Monday, January 1, 2024";
     groqFetch := fun n => match n with
                           | O => respond 200 toolCallBody
                           | S _ => respond 200 (completionBody "Answer")
                           end;
     tavilyImport := None;
     tavilyFetch := respond 200 twoResults |}.

(** A store whose current key holds a text that is no JSON, beside a
    legacy key with three valid messages. *)
Definition corruptStorage : LocalStorage :=
  {| entries :=
       <[ Storage.SESSIONS_KEY := "{oops" ]>
         {[ Storage.LEGACY_KEY :=
              Json.stringify (JArr (map Message.toJSON [greeting; hello; failure])) ]};
     rejectsWrites := false |}.

(** The legacy store, in a browser that refuses every write. *)
Definition fullLegacyStorage : LocalStorage :=
  {| entries := entries legacyStorage; rejectsWrites := true |}.


(** An environment that answers the completion calls as listed, and the
    search as given. *)
Definition scriptedEnv (first second : FetchOutcome) (search : FetchOutcome) : Env :=
  {| VITE_GROQ_API_KEY := Some "gsk_test"; VITE_TAVILY_API_KEY := Some "tvly_test";
     dateStr := "Monday, January 1, 2024";
     groqFetch := fun n => match n with O => first | S _ => second end;
     tavilyImport := None;
     tavilyFetch := search |}.

(** A completion body that announces a tool call and carries none. *)
Definition toolCallBodyWithoutCall : JSON :=
  JObj [("choices",
         JArr [JObj [("index", JNum 0);
                     ("message", JObj [("role", JStr "assistant"); ("content", JNull);
                                       ("tool_calls", JArr [])]);
                     ("finish_reason", JStr "tool_calls")]])].

(** A store whose only session holds a question and the error message a
    failed send left behind. *)
Definition failedStore : Store :=
  {| sessions :=
       [{| Session.id := "s1"; Session.title := "Hello world";
           Session.messages := [hello; failure];
           Session.createdAt := "2023-12-31T23:59:59.000Z";
           Session.updatedAt := "2024-01-01T00:00:00.000Z";
           Session.starred := None |}];
     currentSessionId := Some "s1"; isLoading := false; chatStatus := idle |}.

(** The double quote, for the JSON texts written out below. *)
Definition Q : string := String "034"%char "".

(** A legacy text as another writer may have left it: the members of a
    message in another order, and a member the interface does not
    declare. *)
Definition annotatedLegacyText : string :=
  "[{" ++ Q ++ "id" ++ Q ++ ":" ++ Q ++ "m1" ++ Q ++ ","
       ++ Q ++ "role" ++ Q ++ ":" ++ Q ++ "assistant" ++ Q ++ ","
       ++ Q ++ "content" ++ Q ++ ":" ++ Q ++ "How can I help?" ++ Q ++ ","
       ++ Q ++ "timestamp" ++ Q ++ ":" ++ Q ++ "2023-12-31T23:59:58.000Z" ++ Q
  ++ "},{" ++ Q ++ "role" ++ Q ++ ":" ++ Q ++ "user" ++ Q ++ ","
       ++ Q ++ "model" ++ Q ++ ":" ++ Q ++ "llama" ++ Q ++ ","
       ++ Q ++ "tokens" ++ Q ++ ":" ++ "12" ++ ","
       ++ Q ++ "content" ++ Q ++ ":" ++ Q ++ "Hello world" ++ Q ++ ","
       ++ Q ++ "id" ++ Q ++ ":" ++ Q ++ "m2" ++ Q ++ ","
       ++ Q ++ "timestamp" ++ Q ++ ":" ++ Q ++ "2023-12-31T23:59:59.000Z" ++ Q
  ++ "}]".

(** What [JSON.parse] makes of it. *)
Definition annotatedLegacy : list JSON :=
  [JObj [("id", JStr "m1"); ("role", JStr "assistant");
         ("content", JStr "How can I help?");
         ("timestamp", JStr "2023-12-31T23:59:58.000Z")];
   JObj [("role", JStr "user"); ("model", JStr "llama"); ("tokens", JNum 12);
         ("content", JStr "Hello world"); ("id", JStr "m2");
         ("timestamp", JStr "2023-12-31T23:59:59.000Z")]].

Definition annotatedLegacyStorage : LocalStorage :=
  {| entries := {[ Storage.LEGACY_KEY := annotatedLegacyText ]};
     rejectsWrites := false |}.

(** A completion body whose tool call carries arguments that are not a
    JSON text. *)
Definition toolCallBodyBadArguments : JSON :=
  JObj [("choices",
         JArr [JObj [("index", JNum 0);
                     ("message",
                      JObj [("role", JStr "assistant"); ("content", JNull);
                            ("tool_calls",
                             JArr [JObj [("id", JStr "call_1");
                                         ("type", JStr "function");
                                         ("function",
                                          JObj [("name", JStr "web_search");
                                                ("arguments",
                                                 JStr "{query: rocq prover}")])]])]);
                     ("finish_reason", JStr "tool_calls")]])].

(* ===================================================================== *)
(** * The model at work *)
(* ===================================================================== *)

Example formatSourcesMarkdown_no_result :
  Tavily.formatSourcesMarkdown (Some (JArr [])) = Some "".
Proof. reflexivity. Qed.

Example parse_with_white_space :
  Json.parse (" [ true , null ,{ " ++ Json.quote "k" ++ " : [ ] } ] ")
  = Some (JArr [JBool true; JNull; JObj [("k", JArr [])]]).
Proof. reflexivity. Qed.

Example parse_rejects_trailing_comma :
  Json.parse "[1,]" = None /\ Json.wellFormed "[1,]" = false.
Proof. split; reflexivity. Qed.

(** JSON texts beyond the model: a fraction, an exponent, an integer
    that is not its own double, an escape for a code unit above 255, a
    repeated member name.  The grammar takes them; [Json.parse] does not
    answer. *)
Example texts_beyond_the_model :
  let beyond :=
    ["0.7"; "1e3"; "9007199254740993";
     Q ++ String Json.backslash "u2014" ++ Q;
     "{" ++ Q ++ "a" ++ Q ++ ":1," ++ Q ++ "a" ++ Q ++ ":2}"] in
  map Json.wellFormed beyond = [true; true; true; true; true]
  /\ map Json.parse beyond = [None; None; None; None; None].
Proof. split; reflexivity. Qed.

Example renameSession_blank :
  UseChat.renameSession "s1" "   " soleStore = soleStore.
Proof. reflexivity. Qed.

Example renameSession_trims :
  map Session.title (sessions (UseChat.renameSession "s1" "  Hi  " soleStore)) = ["Hi"].
Proof. reflexivity. Qed.

(** The tool-call path with a working search: the answer, then the
    citation block, one numbered link per result. *)
Example tool_call_answer_with_sources :
  fst (OpenAI.sendChatMessage searchEnv oneQuestion [])
  = inr ("Answer" ++ LF ++ LF ++ "---" ++ LF ++ "**Sources:**" ++ LF
         ++ "1. [Rocq 9.0 released](https://rocq-prover.org/news)" ++ LF
         ++ "2. [Release notes](https://rocq-prover.org/changes)")
  /\ notifications (snd (OpenAI.sendChatMessage searchEnv oneQuestion []))
     = [thinking; searching; thinking].
Proof. split; reflexivity. Qed.

(** A rejected fetch ends as an error message in the transcript, and the
    store is idle again. *)
Example sendMessage_network_failure :
  let st := fst (UseChat.sendMessage someEnv someDraws " hello "
                   (UseChat.mount [] "s1" "2024-01-01T00:00:00.000Z")) in
  map (fun s => map (fun m => (Message.content m, Message.isError m))
                    (Session.messages s)) (sessions st)
  = [[("hello", None);
      ("Network error. Please check your internet connection and try again.",
       Some true)]]
  /\ isLoading st = false /\ chatStatus st = idle.
Proof. cbv zeta. split_and!; reflexivity. Qed.

(* ===================================================================== *)
(** * Properties of the session store *)
(* ===================================================================== *)

Module UseChatFacts.
Import UseChat.

Lemma ids_updateSession id f l :
  (forall s, Session.id (f s) = Session.id s) ->
  map Session.id (updateSession id f l) = map Session.id l.
Proof.
  intros Hf. unfold updateSession. induction l as [|s l IH]; simpl; [done|].
  rewrite IH. destruct (isCurrent id s); by rewrite ?Hf.
Qed.

Lemma elem_of_filter_ids (id c : string) (l : list Session.t) :
  c ∈ map Session.id l -> c <> id ->
  c ∈ map Session.id
        (List.filter (fun s => negb (String.eqb (Session.id s) id)) l).
Proof.
  intros Hin Hne. apply list_elem_of_fmap in Hin as [s [-> Hs]].
  apply list_elem_of_fmap. exists s. split; [done|].
  apply list_elem_of_In, filter_In. split; [by apply list_elem_of_In|].
  apply negb_true_iff, String.eqb_neq. done.
Qed.

Lemma pointerValid_mount stored newId now : pointerValid (mount stored newId now).
Proof.
  unfold pointerValid, mount. destruct stored as [|first rest]; simpl;
    apply list_elem_of_here.
Qed.

Lemma pointerValid_beginSend content newId now st p st' :
  beginSend content newId now st = Some (p, st') ->
  pointerValid st -> pointerValid st'.
Proof.
  unfold beginSend, pointerValid. intros H Hv.
  destruct (currentSessionId st) as [c|] eqn:Hc; [|done].
  destruct (_ || _); [done|]. injection H as _ <-. simpl.
  rewrite Hc. rewrite ids_updateSession; [done|]. intros s. by destruct (negb _).
Qed.

Lemma pointerValid_step a st :
  switchesToExisting a st -> pointerValid st -> pointerValid (step a st).
Proof.
  intros Ha Hv. destruct a; simpl in *.
  - (* createNewSession *)
    unfold createNewSession.
    destruct (currentSession st) as [cur|];
      [destruct (Session.messages cur); [done|] |];
      unfold pointerValid; simpl; apply list_elem_of_here.
  - (* switchSession *) exact Ha.
  - (* deleteSession *)
    unfold deleteSession, pointerValid in *.
    destruct (List.filter _ (sessions st)) as [|first rest] eqn:Hf; simpl.
    + apply list_elem_of_here.
    + case_bool_decide as Hcur; [apply list_elem_of_here|].
      destruct (currentSessionId st) as [c|]; [|done].
      change (Session.id first :: map Session.id rest)
        with (map Session.id (first :: rest)).
      rewrite <- Hf. apply elem_of_filter_ids; [done|]. congruence.
  - (* renameSession *)
    unfold renameSession. destruct (negb _); [done|].
    unfold pointerValid in *. simpl. by rewrite ids_updateSession.
  - (* toggleStarSession *)
    unfold toggleStarSession, pointerValid in *. simpl.
    by rewrite ids_updateSession.
  - (* clearCurrentSession *)
    unfold clearCurrentSession. destruct (negb _); [done|].
    unfold pointerValid in *. simpl. by rewrite ids_updateSession.
  - (* beginSend *)
    destruct (beginSend _ _ _ st) as [[p st']|] eqn:Hb; [|done].
    by eapply pointerValid_beginSend.
  - (* setChatStatus *) exact Hv.
  - (* settleSend *)
    unfold settleSend, pointerValid in *. simpl. by rewrite ids_updateSession.
Qed.

Lemma find_head_current newId now l :
  find (isCurrent (Some newId)) (createEmptySession newId now :: l)
  = Some (createEmptySession newId now).
Proof. simpl. by rewrite String.eqb_refl. Qed.

(** A send that got past the guard is pending: the flag is up until
    [settleSend] takes it down. *)
Lemma beginSend_sets_isLoading content newId now st p st' :
  beginSend content newId now st = Some (p, st') ->
  isLoading st' = true /\ chatStatus st' = thinking
  /\ currentSessionId st' = currentSessionId st.
Proof.
  unfold beginSend. destruct (currentSessionId st) as [c|] eqn:Hc; [|done].
  destruct (_ || _); [done|]. intros [= _ <-]. simpl. by rewrite Hc.
Qed.

Lemma settleSend_clears_isLoading sessionId outcome newId stamp updatedAt st :
  let st' := settleSend sessionId outcome newId stamp updatedAt st in
  isLoading st' = false /\ chatStatus st' = idle.
Proof. done. Qed.

(** Whether the active session exists and has no message. *)
Lemma createNewSession_cases newId now st :
  (exists cur, currentSession st = Some cur /\ Session.messages cur = []
               /\ createNewSession newId now st = st)
  \/ ((forall cur, currentSession st = Some cur -> Session.messages cur <> [])
      /\ createNewSession newId now st
         = {| sessions := createEmptySession newId now :: sessions st;
              currentSessionId := Some newId;
              isLoading := isLoading st; chatStatus := chatStatus st |}).
Proof.
  unfold createNewSession.
  destruct (currentSession st) as [cur|] eqn:Hcur.
  - destruct (Session.messages cur) eqn:Hm.
    + left. by exists cur.
    + right. split; [|done]. intros ? [= <-]. by rewrite Hm.
  - right. split; [|done]. intros ? [=].
Qed.

Lemma createNewSession_idem newId now newId' now' st :
  createNewSession newId' now' (createNewSession newId now st)
  = createNewSession newId now st.
Proof.
  destruct (createNewSession_cases newId now st)
    as [(cur & Hcur & Hm & ->) | [_ ->]].
  - unfold createNewSession. by rewrite Hcur, Hm.
  - unfold createNewSession, currentSession. simpl. by rewrite String.eqb_refl.
Qed.

End UseChatFacts.

(** C3. A send that meets the guard -- a send is already pending, the
    content is empty once trimmed, or no session is active -- does nothing:
    the store is returned as it was (no message, no flag, no status
    change) and the call logs no event, hence no HTTP request. *)
Theorem sendMessage_guard_noop (env : Env) (d : UseChat.Draws) (content : string)
        (st : Store) :
  isLoading st = true \/ JsString.trim content = "" \/ currentSessionId st = None ->
  UseChat.sendMessage env d content st = (st, [])
  /\ UseChat.beginSend content (UseChat.userMessageId d) (UseChat.sentAt d) st = None.
Proof.
  intros H.
  assert (Hb : UseChat.beginSend content (UseChat.userMessageId d)
                                 (UseChat.sentAt d) st = None).
  { unfold UseChat.beginSend.
    destruct (currentSessionId st) as [c|]; [|done].
    destruct H as [-> | [-> | H]]; [| |done].
    - by rewrite orb_true_r.
    - simpl. by rewrite orb_true_r. }
  split; [|done]. unfold UseChat.sendMessage. by rewrite Hb.
Qed.

Lemma sendMessage_guard_noop_witness :
  UseChat.sendMessage someEnv someDraws "hello" busyStore = (busyStore, [])
  /\ UseChat.beginSend "hello" "m1" "2024-01-01T00:00:01.000Z" busyStore = None.
Proof.
  apply (sendMessage_guard_noop someEnv someDraws "hello" busyStore).
  left. reflexivity.
Defined.

(** C8. Deleting the only session of the collection leaves exactly one
    session: the one just created, with no message, and it is the active
    one. *)
Theorem deleteSession_sole (s : Session.t) (st : Store) (newId now : string) :
  sessions st = [s] ->
  let st' := UseChat.deleteSession (Session.id s) newId now st in
  sessions st' = [UseChat.createEmptySession newId now]
  /\ Session.messages (UseChat.createEmptySession newId now) = []
  /\ currentSessionId st' = Some newId.
Proof.
  intros Hs. unfold UseChat.deleteSession. rewrite Hs. simpl.
  by rewrite String.eqb_refl.
Qed.

Lemma deleteSession_sole_witness :
  sessions (UseChat.deleteSession "s1" "s2" "2024-01-02T00:00:00.000Z" soleStore)
  = [UseChat.createEmptySession "s2" "2024-01-02T00:00:00.000Z"]
  /\ Session.messages (UseChat.createEmptySession "s2" "2024-01-02T00:00:00.000Z") = []
  /\ currentSessionId
       (UseChat.deleteSession "s1" "s2" "2024-01-02T00:00:00.000Z" soleStore)
     = Some "s2".
Proof.
  apply (deleteSession_sole soleSession soleStore "s2" "2024-01-02T00:00:00.000Z").
  reflexivity.
Defined.

(** C9. [createNewSession] does nothing when the active session has no
    message, and otherwise puts a new empty session at the head of the
    collection and makes it active; hence any run of consecutive calls
    ends in the state the first call produced, and adds at most one
    session. *)
Theorem createNewSession_no_empty_run (st : Store) (newId now : string)
        (more : list (string * string)) :
  let st1 := UseChat.createNewSession newId now st in
  ((exists cur, UseChat.currentSession st = Some cur /\ Session.messages cur = [])
   -> st1 = st)
  /\ ((forall cur, UseChat.currentSession st = Some cur -> Session.messages cur <> [])
      -> sessions st1 = UseChat.createEmptySession newId now :: sessions st
         /\ currentSessionId st1 = Some newId
         /\ isLoading st1 = isLoading st /\ chatStatus st1 = chatStatus st)
  /\ foldl (fun s call => UseChat.createNewSession (fst call) (snd call) s) st1 more
     = st1
  /\ (sessions st1 = sessions st
      \/ sessions st1 = UseChat.createEmptySession newId now :: sessions st).
Proof.
  intros st1. subst st1.
  destruct (UseChatFacts.createNewSession_cases newId now st)
    as [(cur & Hcur & Hm & Heq) | [Hne Heq]].
  - split_and!.
    + done.
    + intros H. by destruct (H cur Hcur).
    + rewrite Heq. induction more as [|[i n] more IH]; simpl; [done|].
      rewrite <- Heq at 1. rewrite UseChatFacts.createNewSession_idem.
      by rewrite Heq.
    + left. by rewrite Heq.
  - split_and!.
    + intros (cur & Hcur & Hm). by destruct (Hne cur Hcur).
    + intros _. by rewrite Heq.
    + induction more as [|[i n] more IH]; simpl; [done|].
      by rewrite UseChatFacts.createNewSession_idem.
    + right. by rewrite Heq.
Qed.

(** C10. A confirmed [clearCurrentSession] resets the messages, the title
    and [updatedAt] of the active session and nothing else: its id,
    [createdAt] and [starred] stay, every other session stays, and so do
    the active pointer and the flags.  A declined one leaves the store as
    it was. *)
Theorem clearCurrentSession_frame (confirmed : bool) (now : string) (st : Store) :
  let st' := UseChat.clearCurrentSession confirmed now st in
  (confirmed = false -> st' = st)
  /\ (confirmed = true ->
      currentSessionId st' = currentSessionId st
      /\ isLoading st' = isLoading st
      /\ chatStatus st' = chatStatus st
      /\ length (sessions st') = length (sessions st)
      /\ forall (i : nat) (s : Session.t),
          sessions st !! i = Some s ->
          exists s', sessions st' !! i = Some s'
            /\ if UseChat.isCurrent (currentSessionId st) s
               then Session.messages s' = []
                    /\ Session.title s' = "New Chat"
                    /\ Session.updatedAt s' = now
                    /\ Session.id s' = Session.id s
                    /\ Session.createdAt s' = Session.createdAt s
                    /\ Session.starred s' = Session.starred s
               else s' = s).
Proof.
  simpl. split.
  - by intros ->.
  - intros ->. unfold UseChat.clearCurrentSession, UseChat.updateSession. simpl.
    split_and!; try done.
    + by rewrite length_map.
    + intros i s Hi. rewrite list_lookup_fmap, Hi. simpl.
      eexists. split; [done|].
      destruct (UseChat.isCurrent (currentSessionId st) s); by simpl.
Qed.

(** C5, as the code has it.  [switchSession] takes any id; when callers
    hand it only ids of the collection, every reachable store has a valid
    active pointer.  And deleting the active session moves the pointer, in
    the same transition, to the first session of the new collection. *)
Theorem pointer_valid_when_switching_to_existing :
  (forall st, UseChat.reachable UseChat.switchesToExisting st ->
              UseChat.pointerValid st)
  /\ (forall st id newId now,
        currentSessionId st = Some id ->
        let st' := UseChat.deleteSession id newId now st in
        currentSessionId st' = Session.id <$> head (sessions st')
        /\ UseChat.pointerValid st').
Proof.
  split.
  - intros st H. induction H as [stored newId now | a st _ IH Ha].
    + apply UseChatFacts.pointerValid_mount.
    + by apply UseChatFacts.pointerValid_step.
  - intros st id newId now Hcur. simpl.
    unfold UseChat.deleteSession, UseChat.pointerValid.
    destruct (List.filter _ (sessions st)) as [|first rest]; simpl.
    + split; [done|apply list_elem_of_here].
    + rewrite Hcur. rewrite bool_decide_true by done.
      split; [done|apply list_elem_of_here].
Qed.

(** C5 as stated fails: from the freshly mounted store, [switchSession]
    with an id that no session has leaves a non-null pointer that names
    nothing in the collection. *)
Lemma pointer_dangling_after_switch :
  let st := UseChat.step (UseChat.SwitchSession "ghost")
                         (UseChat.mount [] "s1" "2024-01-01T00:00:00.000Z") in
  UseChat.reachable UseChat.anyAction st
  /\ currentSessionId st = Some "ghost"
  /\ map Session.id (sessions st) = ["s1"]
  /\ ~ UseChat.pointerValid st.
Proof.
  cbv zeta. split.
  - apply (UseChat.reachable_step UseChat.anyAction (UseChat.SwitchSession "ghost"));
      [apply UseChat.reachable_mount | exact I].
  - split_and!; try done.
    unfold UseChat.pointerValid. simpl. intros H.
    apply list_elem_of_singleton in H. discriminate.
Qed.

(* ===================================================================== *)
(** * Properties of strings *)
(* ===================================================================== *)

Module StringFacts.

#[local] Arguments String.append : simpl nomatch.

Lemma append_nil_r (s : string) : s ++ "" = s.
Proof. induction s as [|c s IH]; simpl; [done|by rewrite IH]. Qed.

Lemma append_assoc (a b c : string) : (a ++ b) ++ c = a ++ (b ++ c).
Proof. induction a as [|x a IH]; simpl; [done|by rewrite IH]. Qed.

Lemma length_append (a b : string) :
  String.length (a ++ b) = String.length a + String.length b.
Proof. induction a as [|x a IH]; simpl; [done|by rewrite IH]. Qed.

End StringFacts.

(* ===================================================================== *)
(** * Properties of the completion client *)
(* ===================================================================== *)

Module OpenAIFacts.
Import RunMonad OpenAI.

#[local] Arguments Json.prop : simpl never.
#[local] Arguments Json.first : simpl never.
#[local] Arguments Json.truthy : simpl never.
#[local] Arguments Json.isTheString : simpl never.
#[local] Arguments isFailedGeneration : simpl never.
#[local] Arguments badRequestMessage : simpl never.
#[local] Arguments isNetworkFailure : simpl never.
#[local] Arguments buildSystemPrompt : simpl never.
#[local] Arguments searchQueryOf : simpl never.
#[local] Arguments finishReasonOf : simpl never.
#[local] Arguments firstContent : simpl never.
#[local] Arguments searchUnavailable : simpl never.
#[local] Arguments JsString.trim : simpl never.
#[local] Arguments String.eqb : simpl never.

Ltac run_unfold :=
  unfold onStatusChange, doFetch, bind, tryCatch, ret, throw, emit, await in *.

Section WithEnv.
Variable env : Env.

Lemma handleHttpError_log {A} (r : Response) log :
  exists e, handleHttpError (A := A) r log = (inl e, log).
Proof.
  unfold handleHttpError.
  destruct (json r) as [e|errorData]; simpl;
    repeat (case_match; try (eexists; reflexivity)).
Qed.

Lemma usableContent_log (c : JsValue) log : snd (usableContent c log) = log.
Proof.
  unfold usableContent. repeat (case_match; try reflexivity).
Qed.

Lemma searchWeb_log query log :
  snd (Tavily.searchWeb env query log) = log
  \/ snd (Tavily.searchWeb env query log) = (log ++ [TavilyCall query])%list.
Proof.
  unfold Tavily.searchWeb. destruct (configured _ _); [|by left].
  right. run_unfold. simpl.
  destruct (tavilyFetch env) as [e|r]; simpl; [done|].
  destruct (negb (ok r)); simpl; [done|]. by destruct (json r).
Qed.

(** Without a search key the search fails before any request. *)
Lemma searchWeb_without_key query log :
  configured (VITE_TAVILY_API_KEY env) "your_tavily_api_key_here" = None ->
  Tavily.searchWeb env query log
  = (inl (ErrorObject "Tavily API key is not configured."), log).
Proof. intros H. unfold Tavily.searchWeb. by rewrite H. Qed.

(** The outcome of a search does not depend on what was logged before. *)
Lemma searchWeb_outcome query log :
  fst (Tavily.searchWeb env query log) = fst (Tavily.searchWeb env query []).
Proof.
  unfold Tavily.searchWeb. destruct (configured _ _); [|done].
  run_unfold. simpl.
  destruct (tavilyFetch env) as [e|r]; simpl; [done|].
  destruct (negb (ok r)); simpl; [done|]. by destruct (json r).
Qed.

(** The search step never throws, and logs at most the search call. *)
Lemma runSearch_log query log :
  exists found evs,
    runSearch env query log = (inr found, (log ++ evs)%list)
    /\ (evs = [] \/ evs = [TavilyCall query]).
Proof.
  unfold runSearch. run_unfold.
  destruct (tavilyImport env) as [e|]; simpl.
  { exists (searchUnavailable, ""), []. rewrite app_nil_r. by split; [|left]. }
  destruct (searchWeb_log query log) as [Hl|Hl];
    destruct (Tavily.searchWeb env query log) as [[e|data] log'];
    simpl in Hl; subst log'; cbv beta iota zeta.
  - eexists _, []. rewrite app_nil_r. split; [reflexivity|by left].
  - destruct (Tavily.formatSourcesMarkdown _) as [sm|];
      [destruct (toolResultContent _)|];
      eexists _, []; rewrite app_nil_r; (split; [reflexivity|by left]).
  - eexists _, _. split; [reflexivity|by right].
  - destruct (Tavily.formatSourcesMarkdown _) as [sm|];
      [destruct (toolResultContent _)|];
      eexists _, _; (split; [reflexivity|by right]).
Qed.

Lemma retryWithoutTools_log messages apiKey log :
  snd (retryWithoutTools env messages apiKey log)
  = (log ++ [Notify thinking;
             GroqCall {| messages := messages; apiKey := apiKey;
                         includeTools := false |}])%list.
Proof.
  unfold retryWithoutTools. run_unfold. simpl.
  rewrite <- app_assoc. simpl.
  destruct (groqFetch env _) as [e|r]; simpl; [done|].
  destruct (negb (ok r)) eqn:Hok; simpl.
  - by destruct (handleHttpError_log (A := unit) r
                   (log ++ [Notify thinking;
                            GroqCall {| messages := messages; apiKey := apiKey;
                                        includeTools := false |}])%list)
      as [e ->].
  - destruct (json r) as [e|data]; simpl; [done|]. apply usableContent_log.
Qed.

Lemma toolCallPath_log messages apiKey firstChoice log :
  snd (toolCallPath env messages apiKey firstChoice log) = log
  \/ exists evs req,
      snd (toolCallPath env messages apiKey firstChoice log)
      = (log ++ [Notify searching] ++ evs
             ++ [Notify thinking; GroqCall req])%list
      /\ (evs = [] \/ exists q, evs = [TavilyCall q]).
Proof.
  unfold toolCallPath.
  destruct (negb (Json.truthy _)); [by left|].
  destruct (searchQueryOf _) as [q|]; [|by left].
  right. run_unfold. simpl.
  destruct (runSearch_log q (log ++ [Notify searching])%list)
    as ([content sources] & evs & -> & Hevs).
  simpl.
  exists evs, {| messages := messagesWithToolResult messages
                               (Json.prop "tool_calls" (Json.prop "message" firstChoice))
                               (Json.first (Json.prop "tool_calls" (Json.prop "message" firstChoice)))
                               content;
                 apiKey := apiKey; includeTools := false |}.
  split; [|destruct Hevs as [->| ->]; eauto].
  rewrite <- !app_assoc. simpl.
  set (log2 := (log ++ Notify searching :: evs ++ [Notify thinking; GroqCall _])%list).
  replace ((log ++ Notify searching :: evs ++ [Notify thinking]) ++ [GroqCall _])%list
    with log2 by (subst log2; rewrite <- !app_assoc; simpl; by rewrite <- !app_assoc).
  destruct (groqFetch env _) as [e|r]; simpl.
  { by destruct e. }
  destruct (negb (ok r)); simpl.
  - by destruct (handleHttpError_log (A := unit) r log2) as [e ->].
  - destruct (json r) as [e|data]; simpl; [done|].
    pose proof (usableContent_log (firstContent data) log2) as Hu.
    destruct (usableContent _ log2) as [[e|c] l]; simpl in *; by subst.
Qed.

Lemma ok_false_of_400 (r : Response) : status r = 400%Z -> ok r = false.
Proof. intros H. unfold ok. by rewrite H. Qed.

Lemma sendChatMessage_trace history :
  SendTrace env (snd (sendChatMessage env history [])).
Proof.
  unfold sendChatMessage.
  destruct (configured _ _) as [apiKey|] eqn:Hkey; [|by apply trace_no_key].
  run_unfold. simpl.
  destruct (groqFetch env 0) as [e|r1] eqn:Hfetch; simpl.
  { destruct e; simpl; try destruct (isNetworkFailure _);
      by eapply trace_direct. }
  destruct (negb (ok r1)) eqn:Hok.
  - destruct (status r1 =? 400)%Z eqn:Hst.
    + destruct (isFailedGeneration _) eqn:Hgen; [|by eapply trace_direct].
      rewrite retryWithoutTools_log. simpl.
      eapply trace_retry; eauto. by apply Z.eqb_eq.
    + destruct (handleHttpError_log (A := string) r1
                  [Notify thinking;
                   GroqCall {| messages := ChatMsg "system" (buildSystemPrompt env) :: history;
                               apiKey := apiKey; includeTools := true |}])
        as [e ->].
      by eapply trace_direct.
  - destruct (json r1) as [e|firstData]; simpl; [by eapply trace_direct|].
    set (firstChoice := Json.first (Json.prop "choices" (Some firstData))).
    set (log1 := [Notify thinking; GroqCall _]).
    assert (Hdirect : forall c, SendTrace env (snd (usableContent c log1))).
    { intros c. rewrite usableContent_log. by eapply trace_direct. }
    assert (Htool : SendTrace env (snd (toolCallPath env
               (ChatMsg "system" (buildSystemPrompt env) :: history)
               apiKey firstChoice log1))).
    { destruct (toolCallPath_log (ChatMsg "system" (buildSystemPrompt env) :: history)
                  apiKey firstChoice log1)
        as [-> | (evs & req & -> & [-> | [q ->]])]; subst log1; simpl.
      - by eapply trace_direct.
      - by eapply trace_tool.
      - by eapply trace_tool_search. }
    destruct (negb (Json.isTheString _ _)); [apply Hdirect | apply Htool].
Qed.

Lemma sendTrace_notifications log :
  SendTrace env log ->
  notifications log = [] /\ log = []
  \/ notifications log = [thinking] /\ length (groqCalls log) = 1
  \/ (notifications log = [thinking; thinking] /\ length (groqCalls log) = 2
      /\ exists r1, groqFetch env 0 = Resolves r1 /\ status r1 = 400%Z
                    /\ isFailedGeneration (badRequestMessage r1) = true)
  \/ notifications log = [thinking; searching; thinking]
     /\ length (groqCalls log) = 2.
Proof.
  intros [ | | | | ]; simpl; eauto 10.
Qed.

(** ** The retry path *)

Lemma sendChatMessage_retry history apiKey r1 :
  configured (VITE_GROQ_API_KEY env) "your_groq_api_key_here" = Some apiKey ->
  groqFetch env 0 = Resolves r1 ->
  status r1 = 400%Z ->
  isFailedGeneration (badRequestMessage r1) = true ->
  sendChatMessage env history []
  = retryWithoutTools env (ChatMsg "system" (buildSystemPrompt env) :: history)
      apiKey
      [Notify thinking;
       GroqCall {| messages := ChatMsg "system" (buildSystemPrompt env) :: history;
                   apiKey := apiKey; includeTools := true |}].
Proof.
  intros Hkey Hfetch Hst Hgen. unfold sendChatMessage. rewrite Hkey.
  run_unfold. simpl. rewrite Hfetch. simpl.
  rewrite (ok_false_of_400 r1 Hst). simpl. by rewrite Hst, Hgen.
Qed.

Lemma groqCalls_snoc_notify log s :
  groqCalls (log ++ [Notify s]) = groqCalls log.
Proof. unfold groqCalls. rewrite omap_app. simpl. by rewrite app_nil_r. Qed.

(** What the retry returns, read off the second response. *)
Lemma retryWithoutTools_returns messages apiKey log r2 data text :
  groqFetch env (length (groqCalls log)) = Resolves r2 ->
  ok r2 = true -> json r2 = inr data ->
  firstContent data = Some (JStr text) ->
  JsString.trim text <> "" ->
  fst (retryWithoutTools env messages apiKey log) = inr text.
Proof.
  intros Hfetch Hok Hjson Hcontent Htrim.
  unfold retryWithoutTools. run_unfold. simpl.
  rewrite groqCalls_snoc_notify, Hfetch. simpl. rewrite Hok. simpl.
  rewrite Hjson. simpl. rewrite Hcontent. unfold usableContent.
  apply String.eqb_neq in Htrim. by rewrite Htrim.
Qed.

Lemma usableContent_inv (c : JsValue) log text :
  fst (usableContent c log) = inr text -> c = Some (JStr text).
Proof.
  unfold usableContent. destruct c as [[]|]; simpl; try done.
  destruct (String.eqb _ _); simpl; [done|]. by intros [= ->].
Qed.

Lemma retryWithoutTools_inv messages apiKey log text :
  fst (retryWithoutTools env messages apiKey log) = inr text ->
  exists r2 data,
    groqFetch env (length (groqCalls log)) = Resolves r2
    /\ ok r2 = true /\ json r2 = inr data
    /\ firstContent data = Some (JStr text).
Proof.
  unfold retryWithoutTools. run_unfold. simpl.
  rewrite groqCalls_snoc_notify.
  destruct (groqFetch env _) as [e|r2]; simpl; [done|].
  destruct (ok r2) eqn:Hok; simpl.
  - destruct (json r2) as [e|data] eqn:Hjson; simpl; [done|].
    intros H. apply usableContent_inv in H. by exists r2, data.
  - by destruct (handleHttpError_log (A := unit) r2
                   ((log ++ [Notify thinking]) ++
                    [GroqCall {| messages := messages; apiKey := apiKey;
                                 includeTools := false |}])%list)
      as [e ->].
Qed.

(** ** The tool-call path *)

Lemma sendChatMessage_tool history apiKey r1 firstData :
  configured (VITE_GROQ_API_KEY env) "your_groq_api_key_here" = Some apiKey ->
  groqFetch env 0 = Resolves r1 ->
  ok r1 = true -> json r1 = inr firstData ->
  Json.prop "finish_reason" (Json.first (Json.prop "choices" (Some firstData)))
  = Some (JStr "tool_calls") ->
  sendChatMessage env history []
  = toolCallPath env (ChatMsg "system" (buildSystemPrompt env) :: history) apiKey
      (Json.first (Json.prop "choices" (Some firstData)))
      [Notify thinking;
       GroqCall {| messages := ChatMsg "system" (buildSystemPrompt env) :: history;
                   apiKey := apiKey; includeTools := true |}].
Proof.
  intros Hkey Hfetch Hok Hjson Hreason. unfold sendChatMessage. rewrite Hkey.
  run_unfold. simpl. rewrite Hfetch. simpl. rewrite Hok. simpl.
  rewrite Hjson. simpl. unfold finishReasonOf. by rewrite Hreason.
Qed.

Lemma runSearch_failure query log e :
  tavilyImport env = Some e \/ fst (Tavily.searchWeb env query []) = inl e ->
  exists evs,
    runSearch env query log = (inr (searchUnavailable, ""), (log ++ evs)%list)
    /\ (evs = [] \/ evs = [TavilyCall query]).
Proof.
  intros H. unfold runSearch. run_unfold.
  destruct (tavilyImport env) as [e'|] eqn:Himport.
  { exists []. rewrite app_nil_r. by split; [|left]. }
  destruct H as [H|H]; [done|].
  rewrite <- (searchWeb_outcome query log) in H.
  destruct (searchWeb_log query log) as [Hl|Hl];
    destruct (Tavily.searchWeb env query log) as [[e'|data] log'];
    simpl in *; subst; try done.
  - exists []. rewrite app_nil_r. by split; [|left].
  - eexists. split; [reflexivity|by right].
Qed.

Lemma toolCallPath_after_failed_search messages apiKey firstChoice log query e :
  let toolCalls := Json.prop "tool_calls" (Json.prop "message" firstChoice) in
  let toolCall := Json.first toolCalls in
  Json.truthy toolCall = true ->
  searchQueryOf toolCall = Some query ->
  (tavilyImport env = Some e \/ fst (Tavily.searchWeb env query []) = inl e) ->
  exists evs,
    (evs = [] \/ evs = [TavilyCall query])
    /\ snd (toolCallPath env messages apiKey firstChoice log)
       = (log ++ [Notify searching] ++ evs ++
          [Notify thinking;
           GroqCall {| messages := messagesWithToolResult messages toolCalls
                                     toolCall searchUnavailable;
                       apiKey := apiKey; includeTools := false |}])%list
    /\ forall r2 data text,
         groqFetch env (length (groqCalls log)) = Resolves r2 ->
         ok r2 = true -> json r2 = inr data ->
         firstContent data = Some (JStr text) ->
         JsString.trim text <> "" ->
         fst (toolCallPath env messages apiKey firstChoice log) = inr text.
Proof.
  intros toolCalls toolCall Htruthy Hquery Hfail.
  destruct (runSearch_failure query (log ++ [Notify searching])%list e Hfail)
    as (evs & Hrun & Hevs).
  exists evs. split; [done|].
  assert (Hcalls : groqCalls (((log ++ [Notify searching]) ++ evs)
                              ++ [Notify thinking])%list = groqCalls log).
  { rewrite groqCalls_snoc_notify. unfold groqCalls. rewrite omap_app.
    fold (groqCalls (log ++ [Notify searching])%list).
    rewrite groqCalls_snoc_notify.
    destruct Hevs as [-> | ->]; simpl; by rewrite app_nil_r. }
  split.
  - pose proof (toolCallPath_log messages apiKey firstChoice log) as Hlog.
    unfold toolCallPath in *. fold toolCalls toolCall in Hlog |- *.
    rewrite Htruthy, Hquery in Hlog |- *. simpl in Hlog |- *.
    run_unfold. rewrite Hrun in Hlog |- *. simpl in Hlog |- *.
    clear Hlog.
    rewrite <- !app_assoc. simpl.
    set (log2 := (log ++ Notify searching :: evs ++ [Notify thinking; GroqCall _])%list).
    replace (log ++ Notify searching :: evs ++ [Notify thinking] ++ [GroqCall _])%list
      with log2 by (subst log2; simpl; done).
    destruct (groqFetch env _) as [err|r]; simpl.
    { by destruct err. }
    destruct (negb (ok r)); simpl.
    + by destruct (handleHttpError_log (A := unit) r log2) as [err ->].
    + destruct (json r) as [err|data]; simpl; [done|].
      pose proof (usableContent_log (firstContent data) log2) as Hu.
      destruct (usableContent _ log2) as [[err|c] l]; simpl in *; by subst.
  - intros r2 data text Hfetch Hok Hjson Hcontent Htrim.
    unfold toolCallPath. fold toolCalls toolCall.
    rewrite Htruthy, Hquery. simpl. run_unfold. rewrite Hrun. simpl.
    rewrite Hcalls, Hfetch. simpl. rewrite Hok. simpl. rewrite Hjson. simpl.
    rewrite Hcontent. unfold usableContent.
    apply String.eqb_neq in Htrim. rewrite Htrim. simpl.
    by rewrite StringFacts.append_nil_r.
Qed.

End WithEnv.
End OpenAIFacts.

(** C1. When the first completion request comes back with status 400 and
    a body whose message tells of a failed tool-call generation, the
    client issues exactly two completion calls: the first with the tool
    declaration, the second with the same messages and without it.  What
    it returns is the content of the second response, unchanged: it
    returns that content whenever the second response is a success with a
    non-blank content, and it returns nothing else.  No send ever issues
    more than two completion calls, so the retry is not repeated and no
    later request is retried. *)
Theorem failed_generation_retry (env : Env) (history : list OpenAIMessage)
        (apiKey : string) (r1 : Response) :
  configured (VITE_GROQ_API_KEY env) "your_groq_api_key_here" = Some apiKey ->
  groqFetch env 0 = Resolves r1 ->
  status r1 = 400%Z ->
  OpenAI.isFailedGeneration (OpenAI.badRequestMessage r1) = true ->
  let messages := ChatMsg "system" (OpenAI.buildSystemPrompt env) :: history in
  let result := fst (OpenAI.sendChatMessage env history []) in
  let log := snd (OpenAI.sendChatMessage env history []) in
  groqCalls log
  = [ {| messages := messages; apiKey := apiKey; includeTools := true |};
      {| messages := messages; apiKey := apiKey; includeTools := false |} ]
  /\ (forall r2 data text,
        groqFetch env 1 = Resolves r2 ->
        ok r2 = true -> json r2 = inr data ->
        OpenAI.firstContent data = Some (JStr text) ->
        JsString.trim text <> "" ->
        result = inr text)
  /\ (forall text,
        result = inr text ->
        exists r2 data,
          groqFetch env 1 = Resolves r2 /\ ok r2 = true /\ json r2 = inr data
          /\ OpenAI.firstContent data = Some (JStr text))
  /\ (forall env' history',
        length (groqCalls (snd (OpenAI.sendChatMessage env' history' []))) <= 2).
Proof.
  intros Hkey Hfetch Hst Hgen messages result log. subst result log.
  rewrite (OpenAIFacts.sendChatMessage_retry env history apiKey r1 Hkey Hfetch Hst Hgen).
  fold messages. split_and!.
  - by rewrite OpenAIFacts.retryWithoutTools_log.
  - intros r2 data text Hf Hok Hjson Hc Ht.
    by apply (OpenAIFacts.retryWithoutTools_returns env messages apiKey _ r2 data).
  - intros text H. by apply OpenAIFacts.retryWithoutTools_inv in H.
  - intros env' history'.
    destruct (OpenAIFacts.sendTrace_notifications env' _
                (OpenAIFacts.sendChatMessage_trace env' history'))
      as [[_ ->] | [[_ ->] | [(_ & -> & _) | [_ ->]]]]; simpl; lia.
Qed.

Lemma failed_generation_retry_witness :
  fst (OpenAI.sendChatMessage retryEnv oneQuestion []) = inr "Hi there"
  /\ map includeTools (groqCalls (snd (OpenAI.sendChatMessage retryEnv oneQuestion [])))
     = [true; false].
Proof.
  destruct (failed_generation_retry retryEnv oneQuestion "gsk_test"
              {| status := 400; json := inr failedGenerationBody |}
              eq_refl eq_refl eq_refl eq_refl) as (Hcalls & Hreturns & _).
  split.
  - apply (Hreturns {| status := 200; json := inr (completionBody "Hi there") |}
                    (completionBody "Hi there") "Hi there");
      [reflexivity | reflexivity | reflexivity | reflexivity | discriminate].
  - rewrite Hcalls. reflexivity.
Defined.

(** C2, as the code has it.  The statuses one [sendChatMessage] reports
    are, in order, one of: nothing (no API key is configured, and the call
    fails before any request); thinking; thinking, thinking (the retry
    without tools reports thinking again); thinking, searching, thinking.
    The doubled thinking occurs only on the retry path.  No status is
    reported after the last completion call, whose outcome settles the
    send: a log that is not empty ends with that call. *)
Theorem status_sequence (env : Env) (history : list OpenAIMessage) :
  let log := snd (OpenAI.sendChatMessage env history []) in
  let seen := notifications log in
  (seen = [] \/ seen = [thinking] \/ seen = [thinking; thinking]
   \/ seen = [thinking; searching; thinking])
  /\ (seen = [] <->
      configured (VITE_GROQ_API_KEY env) "your_groq_api_key_here" = None)
  /\ (seen = [thinking; thinking] ->
      exists r1, groqFetch env 0 = Resolves r1 /\ status r1 = 400%Z
                 /\ OpenAI.isFailedGeneration (OpenAI.badRequestMessage r1) = true)
  /\ (log = [] \/ exists req, last log = Some (GroqCall req)).
Proof.
  intros log seen. subst seen log.
  pose proof (OpenAIFacts.sendChatMessage_trace env history) as Htrace.
  split_and!; [| | |destruct Htrace; simpl; eauto].
  - destruct (OpenAIFacts.sendTrace_notifications env _ Htrace)
      as [[-> _] | [[-> _] | [(-> & _) | [-> _]]]]; eauto.
  - split.
    + intros Hseen. destruct Htrace; simpl in Hseen; done.
    + intros Hkey. destruct Htrace; simpl; congruence.
  - intros Hseen. destruct Htrace; simpl in Hseen; try done. eauto.
Qed.

(** C2 as stated fails in two ways.  On the retry path the client reports
    thinking twice, which is neither of the two sequences of the claim;
    and without an API key it fails before reporting anything. *)
Lemma status_sequence_retry_doubles_thinking :
  let seen := notifications (snd (OpenAI.sendChatMessage retryEnv oneQuestion [])) in
  let unseen := notifications (snd (OpenAI.sendChatMessage noKeyEnv oneQuestion [])) in
  seen = [thinking; thinking]
  /\ seen <> [thinking]
  /\ seen <> [thinking; searching; thinking]
  /\ unseen = []
  /\ fst (OpenAI.sendChatMessage noKeyEnv oneQuestion [])
     = inl (OpenAIError
              "Groq API key is not configured. Please add your VITE_GROQ_API_KEY to the .env file."
              (Some 401%Z) (Some (JStr "missing_api_key"))).
Proof.
  cbv zeta. split_and!; [reflexivity | discriminate | discriminate
                        | reflexivity | reflexivity].
Qed.

(** C4. On the tool-call path, a search that fails -- the module does not
    load, no search key is configured, or [searchWeb] throws for any other
    reason -- is not propagated: the second completion request is issued
    all the same.  It repeats the messages of the first request, followed
    by the model's tool calls and by a tool result whose content is the
    JSON text of an object with the one member [error], telling that the
    web search is unavailable and to answer from training knowledge; it
    declares no tool.  The send returns the second response's content
    when that response is a success with a non-blank content. *)
Theorem search_failure_falls_back (env : Env) (history : list OpenAIMessage)
        (apiKey : string) (r1 : Response) (firstData : JSON) (query : JsValue)
        (e : Thrown) :
  configured (VITE_GROQ_API_KEY env) "your_groq_api_key_here" = Some apiKey ->
  groqFetch env 0 = Resolves r1 ->
  ok r1 = true ->
  json r1 = inr firstData ->
  let firstChoice := Json.first (Json.prop "choices" (Some firstData)) in
  let toolCalls := Json.prop "tool_calls" (Json.prop "message" firstChoice) in
  let toolCall := Json.first toolCalls in
  Json.prop "finish_reason" firstChoice = Some (JStr "tool_calls") ->
  Json.truthy toolCall = true ->
  OpenAI.searchQueryOf toolCall = Some query ->
  (tavilyImport env = Some e
   \/ (configured (VITE_TAVILY_API_KEY env) "your_tavily_api_key_here" = None
       /\ e = ErrorObject "Tavily API key is not configured.")
   \/ fst (Tavily.searchWeb env query []) = inl e) ->
  let messages := ChatMsg "system" (OpenAI.buildSystemPrompt env) :: history in
  let result := fst (OpenAI.sendChatMessage env history []) in
  let log := snd (OpenAI.sendChatMessage env history []) in
  groqCalls log
  = [ {| messages := messages; apiKey := apiKey; includeTools := true |};
      {| messages :=
           (messages
            ++ [AssistantToolCalls toolCalls;
                ToolResult
                  ("{" ++ Q ++ "error" ++ Q ++ ":" ++ Q
                   ++ "Web search unavailable. Answer from your training knowledge."
                   ++ Q ++ "}")
                  (Json.prop "id" toolCall)])%list;
         apiKey := apiKey; includeTools := false |} ]
  /\ notifications log = [thinking; searching; thinking]
  /\ (forall r2 data text,
        groqFetch env 1 = Resolves r2 ->
        ok r2 = true -> json r2 = inr data ->
        OpenAI.firstContent data = Some (JStr text) ->
        JsString.trim text <> "" ->
        result = inr text).
Proof.
  intros Hkey Hfetch Hok Hjson firstChoice toolCalls toolCall Hreason Htruthy
         Hquery Hfail messages result log.
  subst result log.
  assert (Hfail' : tavilyImport env = Some e
                   \/ fst (Tavily.searchWeb env query []) = inl e).
  { destruct Hfail as [H | [[H ->] | H]]; [by left | right | by right].
    by rewrite OpenAIFacts.searchWeb_without_key. }
  clear Hfail. rename Hfail' into Hfail.
  rewrite (OpenAIFacts.sendChatMessage_tool env history apiKey r1 firstData
             Hkey Hfetch Hok Hjson Hreason).
  fold firstChoice messages.
  destruct (OpenAIFacts.toolCallPath_after_failed_search env messages apiKey
              firstChoice
              [Notify thinking;
               GroqCall {| messages := messages; apiKey := apiKey;
                           includeTools := true |}]
              query e Htruthy Hquery Hfail)
    as (evs & Hevs & Hlog & Hreturns).
  fold toolCalls toolCall in Hlog.
  split_and!.
  - rewrite Hlog. by destruct Hevs as [-> | ->].
  - rewrite Hlog. by destruct Hevs as [-> | ->].
  - exact Hreturns.
Qed.

Lemma search_failure_falls_back_witness :
  fst (OpenAI.sendChatMessage noSearchKeyEnv oneQuestion []) = inr "Answer"
  /\ map (fun request => (last (messages request), includeTools request))
         (groqCalls (snd (OpenAI.sendChatMessage noSearchKeyEnv oneQuestion [])))
     = [(Some (ChatMsg "user" "What is new?"), true);
        (Some (ToolResult
                 ("{" ++ Q ++ "error" ++ Q ++ ":" ++ Q
                  ++ "Web search unavailable. Answer from your training knowledge."
                  ++ Q ++ "}")
                 (Some (JStr "call_1"))), false)].
Proof.
  destruct (search_failure_falls_back noSearchKeyEnv oneQuestion "gsk_test"
              {| status := 200; json := inr toolCallBody |} toolCallBody
              (Some (JStr "rocq prover release"))
              (ErrorObject "Tavily API key is not configured.")
              eq_refl eq_refl eq_refl eq_refl eq_refl eq_refl eq_refl
              (or_intror (or_introl (conj eq_refl eq_refl))))
    as (Hcalls & _ & Hreturns).
  split.
  - apply (Hreturns {| status := 200; json := inr (completionBody "Answer") |}
                    (completionBody "Answer") "Answer");
      [reflexivity | reflexivity | reflexivity | reflexivity | discriminate].
  - rewrite Hcalls. reflexivity.
Defined.

(* ===================================================================== *)
(** * [JSON.parse] reads back what [JSON.stringify] wrote *)
(* ===================================================================== *)

Module JsonFacts.
Import Json.

#[local] Arguments String.append : simpl nomatch.

(** Induction on JSON values, through the lists they nest in. *)
Section Induction.
Variable P : JSON -> Prop.
Hypothesis Hnull : P JNull.
Hypothesis Hbool : forall b, P (JBool b).
Hypothesis Hnum : forall n, P (JNum n).
Hypothesis Hstr : forall s, P (JStr s).
Hypothesis Harr : forall l, Forall P l -> P (JArr l).
Hypothesis Hobj : forall l, Forall (fun kv => P (snd kv)) l -> P (JObj l).

Fixpoint JSON_nested_ind (j : JSON) : P j :=
  match j with
  | JNull => Hnull
  | JBool b => Hbool b
  | JNum n => Hnum n
  | JStr s => Hstr s
  | JArr l =>
      Harr l ((fix go (l : list JSON) : Forall P l :=
                 match l with
                 | [] => @List.Forall_nil _ P
                 | x :: r => @List.Forall_cons _ P x r (JSON_nested_ind x) (go r)
                 end) l)
  | JObj l =>
      Hobj l ((fix go (l : list (string * JSON))
                 : Forall (fun kv => P (snd kv)) l :=
                 match l with
                 | [] => @List.Forall_nil _ (fun kv => P (snd kv))
                 | kv :: r =>
                     @List.Forall_cons _ (fun kv => P (snd kv)) kv r
                                       (JSON_nested_ind (snd kv)) (go r)
                 end) l)
  end.
End Induction.

(** ** String literals *)

Lemma parseStringBody_quoteChar (c : ascii) (fuel : nat) (tail : string) :
  parseStringBody (S fuel) (quoteChar c ++ tail)
  = match parseStringBody fuel tail with
    | Some (t, rest) => Some (String c t, rest)
    | None => None
    end.
Proof.
  destruct c as [b0 b1 b2 b3 b4 b5 b6 b7].
  destruct b0, b1, b2, b3, b4, b5, b6, b7; reflexivity.
Qed.

Lemma parseStringBody_quoteBody (s : string) (fuel : nat) (tail : string) :
  String.length s < fuel ->
  parseStringBody fuel (quoteBody s ++ String dquote tail) = Some (s, tail).
Proof.
  revert fuel. induction s as [|c s IH]; intros fuel Hfuel.
  - destruct fuel; [simpl in Hfuel; lia|]. reflexivity.
  - destruct fuel; [lia|]. simpl in Hfuel.
    change (quoteBody (String c s)) with (quoteChar c ++ quoteBody s).
    rewrite StringFacts.append_assoc, parseStringBody_quoteChar.
    by rewrite IH by lia.
Qed.

Lemma length_quoteChar (c : ascii) : 1 <= String.length (quoteChar c).
Proof.
  destruct c as [b0 b1 b2 b3 b4 b5 b6 b7].
  destruct b0, b1, b2, b3, b4, b5, b6, b7; simpl; lia.
Qed.

Lemma length_quoteBody (s : string) :
  String.length s <= String.length (quoteBody s).
Proof.
  induction s as [|c s IH]; simpl; [done|].
  rewrite StringFacts.length_append. pose proof (length_quoteChar c). lia.
Qed.

(** A quoted string at the head of the input is read back, whatever
    follows it. *)
Lemma parse_quote (s tail : string) :
  exists body,
    quote s ++ tail = String dquote body
    /\ parseStringBody (String.length body) body = Some (s, tail).
Proof.
  exists (quoteBody s ++ String dquote tail). split.
  - unfold quote. simpl. by rewrite StringFacts.append_assoc.
  - apply parseStringBody_quoteBody.
    rewrite StringFacts.length_append. pose proof (length_quoteBody s).
    simpl. lia.
Qed.

(** ** Values *)

Lemma stripPrefix_app (p tail : string) : stripPrefix p (p ++ tail) = Some tail.
Proof.
  induction p as [|c p IH]; simpl; [by destruct tail|].
  by rewrite Ascii.eqb_refl.
Qed.

Lemma skipWs_id (c : ascii) (r : string) :
  isJsonSpace c = false -> skipWs (String c r) = String c r.
Proof. intros H. simpl. by rewrite H. Qed.

(** ** Number literals *)

(** The value of the digits of [d], after those counted in [acc]. *)
Fixpoint uintValue (d : Decimal.uint) (acc : Z) : Z :=
  match d with
  | Decimal.Nil => acc
  | Decimal.D0 l => uintValue l (acc * 10 + 0)
  | Decimal.D1 l => uintValue l (acc * 10 + 1)
  | Decimal.D2 l => uintValue l (acc * 10 + 2)
  | Decimal.D3 l => uintValue l (acc * 10 + 3)
  | Decimal.D4 l => uintValue l (acc * 10 + 4)
  | Decimal.D5 l => uintValue l (acc * 10 + 5)
  | Decimal.D6 l => uintValue l (acc * 10 + 6)
  | Decimal.D7 l => uintValue l (acc * 10 + 7)
  | Decimal.D8 l => uintValue l (acc * 10 + 8)
  | Decimal.D9 l => uintValue l (acc * 10 + 9)
  end.

Lemma uintValue_acc (d : Decimal.uint) (acc : positive) :
  uintValue d (Z.pos acc) = Z.pos (Pos.of_uint_acc d acc).
Proof.
  revert acc. induction d; intros acc; simpl; [done|..];
    (match goal with
     | |- uintValue _ ?z = _ =>
         match goal with
         | |- _ = Z.pos (Pos.of_uint_acc _ ?p) =>
             replace z with (Z.pos p) by lia
         end
     end; apply IHd).
Qed.

Lemma uintValue_of_uint (d : Decimal.uint) :
  uintValue d 0 = Z.of_N (Pos.of_uint d).
Proof.
  induction d; simpl; [done|exact IHd|..]; apply (uintValue_acc d).
Qed.

Lemma delimited_not_digit (tail : string) :
  delimited tail = true ->
  match tail with String c _ => isDigit c = false | EmptyString => True end.
Proof.
  destruct tail as [|c r]; [done|]. unfold delimited.
  destruct (isDigit c); [done|done].
Qed.

Lemma parseDigits_uint (d : Decimal.uint) (acc : Z) (tail : string) :
  delimited tail = true ->
  parseDigits acc (NilEmpty.string_of_uint d ++ tail) = (uintValue d acc, tail).
Proof.
  intros Htail. revert acc. induction d; intros acc;
    [| cbn [NilEmpty.string_of_uint uintValue];
       change (String ?c ?r ++ tail) with (String c (r ++ tail));
       cbn [parseDigits]; rewrite <- IHd; reflexivity ..].
  simpl. apply delimited_not_digit in Htail.
  destruct tail as [|c r]; [done|]. simpl. by rewrite Htail.
Qed.

Lemma to_uint_not_D0 (p : positive) (l : Decimal.uint) :
  Pos.to_uint p <> Decimal.D0 l.
Proof.
  pose proof (DecimalPos.Unsigned.to_of (Pos.to_uint p)) as Hnorm.
  rewrite DecimalPos.Unsigned.of_to in Hnorm. simpl in Hnorm.
  pose proof (DecimalPos.Unsigned.to_uint_nonzero p) as Hnz.
  intros Heq. rewrite Hnorm in Heq, Hnz.
  unfold Decimal.unorm in Heq, Hnz.
  destruct (Decimal.nzhead (Pos.to_uint p)) eqn:Hh; try discriminate Heq.
  - congruence.
  - exact (DecimalFacts.nzhead_nonzero _ _ Hh).
Qed.

(** The decimal digits of a positive number start with a digit that is
    not zero. *)
Lemma to_uint_head (p : positive) :
  exists c r, NilEmpty.string_of_uint (Pos.to_uint p) = String c r
              /\ isDigit c = true /\ (JsString.code c =? 48)%N = false.
Proof.
  pose proof (DecimalPos.Unsigned.to_uint_nonnil p) as Hnn.
  pose proof (to_uint_not_D0 p) as Hhead.
  destruct (Pos.to_uint p) as [|l|l|l|l|l|l|l|l|l|l]; [done|by destruct (Hhead l)|..];
    simpl; eauto 10.
Qed.

Lemma ofZ_pos (p : positive) :
  JsString.ofZ (Z.pos p) = NilEmpty.string_of_uint (Pos.to_uint p).
Proof.
  unfold JsString.ofZ. simpl. unfold NilZero.string_of_uint.
  pose proof (DecimalPos.Unsigned.to_uint_nonnil p).
  by destruct (Pos.to_uint p).
Qed.

Lemma ofZ_neg (p : positive) :
  JsString.ofZ (Z.neg p) = String "-" (NilEmpty.string_of_uint (Pos.to_uint p)).
Proof.
  unfold JsString.ofZ. simpl. unfold NilZero.string_of_uint.
  pose proof (DecimalPos.Unsigned.to_uint_nonnil p).
  by destruct (Pos.to_uint p).
Qed.

Lemma parseUnsigned_pos (p : positive) (tail : string) :
  (Z.pos p <= MAX_EXACT)%Z -> delimited tail = true ->
  parseUnsigned (NilEmpty.string_of_uint (Pos.to_uint p) ++ tail)
  = Some (Z.pos p, tail).
Proof.
  intros Hp Htail.
  pose proof (parseDigits_uint (Pos.to_uint p) 0 tail Htail) as Hdigits.
  rewrite uintValue_of_uint, DecimalPos.Unsigned.of_to in Hdigits.
  simpl Z.of_N in Hdigits.
  destruct (to_uint_head p) as (c & r & Heq & Hdig & Hzero).
  rewrite Heq in Hdigits |- *.
  change (String c r ++ tail) with (String c (r ++ tail)) in Hdigits |- *.
  unfold parseUnsigned. rewrite Hdig, Hdigits, Hzero.
  assert (Hle : (MAX_EXACT <? Z.pos p)%Z = false) by (apply Z.ltb_ge; lia).
  rewrite Hle. cbn [andb].
  destruct tail as [|d t]; [by destruct (r ++ "")|].
  unfold delimited in Htail. cbv zeta in Htail.
  apply negb_true_iff in Htail.
  apply orb_false_iff in Htail as [Htail H69].
  apply orb_false_iff in Htail as [Htail H101].
  apply orb_false_iff in Htail as [_ H46].
  cbv zeta. rewrite H46, H101, H69. by destruct (r ++ String d t).
Qed.

(** An integer of the model is read back from its decimal text. *)
Lemma parseNumber_ofZ (n : Z) (tail : string) :
  (Z.abs n <=? MAX_EXACT)%Z = true -> delimited tail = true ->
  parseNumber (JsString.ofZ n ++ tail) = Some (n, tail).
Proof.
  intros Hn Htail. apply Z.leb_le in Hn.
  destruct n as [|p|p].
  - change (JsString.ofZ 0 ++ tail) with (String "0" tail).
    unfold parseNumber. change (JsString.code "0" =? 45)%N with false. cbv iota.
    unfold parseUnsigned. change (isDigit "0") with true. cbv iota.
    pose proof (parseDigits_uint (Decimal.D0 Decimal.Nil) 0 tail Htail) as Hdigits.
    change (NilEmpty.string_of_uint (Decimal.D0 Decimal.Nil) ++ tail)
      with (String "0" tail) in Hdigits.
    rewrite Hdigits. cbn [uintValue].
    destruct tail as [|d t]; [reflexivity|].
    unfold delimited in Htail. cbv zeta in Htail.
    apply negb_true_iff in Htail.
    apply orb_false_iff in Htail as [Htail H69].
    apply orb_false_iff in Htail as [Htail H101].
    apply orb_false_iff in Htail as [Hdig H46].
    cbv zeta. by rewrite H46, H101, H69, Hdig.
  - rewrite ofZ_pos.
    pose proof (parseUnsigned_pos p tail Hn Htail) as Hread.
    destruct (to_uint_head p) as (c & r & Heq & Hdig & _).
    rewrite Heq in Hread |- *.
    change (String c r ++ tail) with (String c (r ++ tail)) in Hread |- *.
    unfold parseNumber.
    assert (Hminus : (JsString.code c =? 45)%N = false).
    { destruct (JsString.code c =? 45)%N eqn:E45; [|done].
      apply N.eqb_eq in E45. unfold isDigit in Hdig. cbv zeta in Hdig.
      by rewrite E45 in Hdig. }
    by rewrite Hminus.
  - rewrite ofZ_neg.
    change (String "-" ?x ++ tail) with (String "-" (x ++ tail)).
    unfold parseNumber. change (JsString.code "-" =? 45)%N with true. cbv iota.
    by rewrite (parseUnsigned_pos p tail Hn Htail).
Qed.

Lemma ofZ_head (n : Z) :
  exists c r, JsString.ofZ n = String c r /\ (isDigit c = true \/ c = "-"%char).
Proof.
  destruct n as [|p|p].
  - exists "0"%char, "". split; [done|by left].
  - rewrite ofZ_pos. destruct (to_uint_head p) as (c & r & -> & Hdig & _).
    exists c, r. split; [done|by left].
  - rewrite ofZ_neg. eexists _, _. split; [done|by right].
Qed.

(** The first character of a number literal is none of those that
    open another phrase. *)
Lemma number_head (c : ascii) :
  isDigit c = true \/ c = "-"%char ->
  isJsonSpace c = false
  /\ (JsString.code c =? 93)%N = false /\ (JsString.code c =? 125)%N = false
  /\ (JsString.code c =? 34)%N = false /\ (JsString.code c =? 91)%N = false
  /\ (JsString.code c =? 123)%N = false /\ (JsString.code c =? 116)%N = false
  /\ (JsString.code c =? 102)%N = false /\ (JsString.code c =? 110)%N = false.
Proof.
  intros [H | ->]; [|by split_and!].
  destruct c as [b0 b1 b2 b3 b4 b5 b6 b7].
  destruct b0, b1, b2, b3, b4, b5, b6, b7; by try discriminate.
Qed.

(** The text of a value starts with a character that is neither white
    space nor a closing bracket or brace. *)
Lemma stringify_head (j : JSON) (tail : string) :
  exists c r, stringify j ++ tail = String c r
              /\ isJsonSpace c = false
              /\ (JsString.code c =? 93)%N = false
              /\ (JsString.code c =? 125)%N = false.
Proof.
  destruct j as [|[]|n| | |]; simpl; eauto 10.
  destruct (ofZ_head n) as (c & r & -> & H).
  destruct (number_head c H) as (H1 & H2 & H3 & _).
  exists c, (r ++ tail). by split_and!.
Qed.

Lemma sum_sizes_cons {A} (f : A -> nat) (x : A) (l : list A) :
  list_sum (map f (x :: l)) = f x + list_sum (map f l).
Proof. reflexivity. Qed.

Lemma join_cons_app (y : string) (l : list string) (tail : string) :
  exists tail', JsString.join "," (y :: l) ++ tail = y ++ tail'.
Proof.
  destruct l as [|z l]; [by exists tail|].
  exists ("," ++ JsString.join "," (z :: l) ++ tail).
  change (JsString.join "," (y :: z :: l)) with (y ++ "," ++ JsString.join "," (z :: l)).
  by rewrite !StringFacts.append_assoc.
Qed.

Lemma skipWs_value (y : JSON) (tail : string) :
  skipWs (stringify y ++ tail) = stringify y ++ tail.
Proof.
  destruct (stringify_head y tail) as (c & r & -> & Hws & _).
  by apply skipWs_id.
Qed.

Lemma parseElements_join (l : list JSON) (fuel : nat) (tail : string) :
  l <> [] ->
  Forall readsBack l ->
  forallb inDomain l = true ->
  list_sum (map (fun x => S (size x)) l) <= fuel ->
  parseElements fuel (JsString.join "," (map stringify l) ++ "]" ++ tail)
  = Some (l, tail).
Proof.
  revert fuel. induction l as [|x l IH]; intros fuel Hne Hall Hnf Hfuel; [done|].
  apply Forall_cons in Hall as [Hx Hl].
  simpl in Hnf. apply andb_true_iff in Hnf as [Hnx Hnl].
  rewrite sum_sizes_cons in Hfuel.
  destruct fuel as [|fuel]; [lia|].
  specialize (Hx Hnx).
  destruct l as [|y l].
  - simpl. rewrite Hx; [reflexivity|lia|reflexivity].
  - change (JsString.join "," (map stringify (x :: y :: l)))
      with (stringify x ++ "," ++ JsString.join "," (map stringify (y :: l))).
    rewrite !StringFacts.append_assoc.
    cbn [parseElements]. rewrite Hx; [|lia|reflexivity].
    change ("," ++ ?r) with (String "," r).
    rewrite skipWs_id by reflexivity.
    change (JsString.code "," =? 93)%N with false.
    change (JsString.code "," =? 44)%N with true. cbv iota.
    assert (Hskip : skipWs (JsString.join "," (map stringify (y :: l)) ++ "]" ++ tail)
                    = JsString.join "," (map stringify (y :: l)) ++ "]" ++ tail).
    { destruct (join_cons_app (stringify y) (map stringify l) ("]" ++ tail))
        as [tail' Heq].
      change (map stringify (y :: l)) with (stringify y :: map stringify l).
      rewrite Heq. by apply skipWs_value. }
    rewrite Hskip. rewrite IH; [done|done|done|done|lia].
Qed.

Lemma skipWs_member (kv : string * JSON) (tail : string) :
  skipWs (member kv ++ tail) = member kv ++ tail.
Proof. reflexivity. Qed.

Lemma parseMembers_join (l : list (string * JSON)) (fuel : nat) (tail : string) :
  l <> [] ->
  Forall (fun kv => readsBack (snd kv)) l ->
  forallb (fun kv => inDomain (snd kv)) l = true ->
  list_sum (map (fun kv => S (size (snd kv))) l) <= fuel ->
  parseMembers fuel (JsString.join "," (map member l) ++ "}" ++ tail)
  = Some (l, tail).
Proof.
  revert fuel. induction l as [|[k v] l IH]; intros fuel Hne Hall Hnf Hfuel; [done|].
  apply Forall_cons in Hall as [Hv Hl]. simpl in Hv.
  simpl in Hnf. apply andb_true_iff in Hnf as [Hnv Hnl].
  rewrite sum_sizes_cons in Hfuel. simpl in Hfuel.
  destruct fuel as [|fuel]; [lia|].
  specialize (Hv Hnv).
  assert (Hone : forall rest,
    exists body,
      member (k, v) ++ rest = String dquote body
      /\ parseStringBody (String.length body) body
         = Some (k, String ":" (stringify v ++ rest))).
  { intros rest. unfold member. simpl fst. simpl snd.
    rewrite !StringFacts.append_assoc. apply parse_quote. }
  destruct l as [|kv l].
  - change (JsString.join "," (map member [(k, v)])) with (member (k, v)).
    destruct (Hone ("}" ++ tail)) as (body & -> & Hbody).
    cbn [parseMembers].
    change (JsString.code dquote =? 34)%N with true. cbv iota.
    rewrite Hbody. rewrite skipWs_id by reflexivity.
    change (JsString.code ":" =? 58)%N with true. cbv iota.
    rewrite skipWs_value. rewrite Hv; [reflexivity|lia|reflexivity].
  - change (JsString.join "," (map member ((k, v) :: kv :: l)))
      with (member (k, v) ++ "," ++ JsString.join "," (map member (kv :: l))).
    rewrite !StringFacts.append_assoc.
    destruct (Hone ("," ++ JsString.join "," (map member (kv :: l)) ++ "}" ++ tail))
      as (body & -> & Hbody).
    cbn [parseMembers].
    change (JsString.code dquote =? 34)%N with true. cbv iota.
    rewrite Hbody. rewrite skipWs_id by reflexivity.
    change (JsString.code ":" =? 58)%N with true. cbv iota.
    rewrite skipWs_value. rewrite Hv; [|lia|reflexivity].
    change ("," ++ ?r) with (String "," r).
    rewrite skipWs_id by reflexivity.
    change (JsString.code "," =? 125)%N with false.
    change (JsString.code "," =? 44)%N with true. cbv iota.
    assert (Hskip : skipWs (JsString.join "," (map member (kv :: l)) ++ "}" ++ tail)
                    = JsString.join "," (map member (kv :: l)) ++ "}" ++ tail).
    { destruct (join_cons_app (member kv) (map member l) ("}" ++ tail))
        as [tail' Heq].
      change (map member (kv :: l)) with (member kv :: map member l).
      rewrite Heq. apply skipWs_member. }
    rewrite Hskip. rewrite IH; [done|done|done|done|lia].
Qed.

Lemma readsBack_all (j : JSON) : readsBack j.
Proof.
  induction j as [|b|n|s|l IH|l IH] using JSON_nested_ind;
    intros Hnf fuel tail Hfuel Htail; simpl in Hnf;
    (destruct fuel as [|fuel]; [simpl in Hfuel; lia|]).
  - reflexivity.
  - destruct b; reflexivity.
  - change (stringify (JNum n)) with (JsString.ofZ n).
    pose proof (parseNumber_ofZ n tail Hnf Htail) as Hnum.
    destruct (ofZ_head n) as (c & r & Heq & Hc).
    destruct (number_head c Hc) as (_ & _ & _ & H34 & H91 & H123 & H116 & H102 & H110).
    rewrite Heq in Hnum |- *.
    change (String c r ++ tail) with (String c (r ++ tail)) in Hnum |- *.
    cbn [parseValue]. cbv zeta. rewrite H34, H91, H123, H116, H102, H110.
    by rewrite Hnum.
  - change (stringify (JStr s)) with (quote s).
    destruct (parse_quote s tail) as (body & -> & Hbody).
    cbn [parseValue]. change (JsString.code dquote =? 34)%N with true. cbv iota.
    by rewrite Hbody.
  - destruct l as [|x l]; [reflexivity|].
    change (stringify (JArr (x :: l)))
      with ("[" ++ JsString.join "," (map stringify (x :: l)) ++ "]").
    rewrite !StringFacts.append_assoc.
    change ("[" ++ ?r) with (String "[" r).
    cbn [parseValue]. change (JsString.code "[" =? 34)%N with false.
    change (JsString.code "[" =? 91)%N with true. cbv iota.
    assert (Hskip : skipWs (JsString.join "," (map stringify (x :: l)) ++ "]" ++ tail)
                    = JsString.join "," (map stringify (x :: l)) ++ "]" ++ tail).
    { destruct (join_cons_app (stringify x) (map stringify l) ("]" ++ tail))
        as [tail' Heq].
      change (map stringify (x :: l)) with (stringify x :: map stringify l).
      rewrite Heq. by apply skipWs_value. }
    rewrite Hskip.
    destruct (join_cons_app (stringify x) (map stringify l) ("]" ++ tail))
      as [tail' Heq].
    change (map stringify (x :: l)) with (stringify x :: map stringify l) at 1.
    rewrite Heq.
    destruct (stringify_head x tail') as (c & r & -> & _ & Hc & _).
    rewrite Hc. rewrite parseElements_join; [done|done|done|done|].
    simpl in Hfuel. simpl. lia.
  - apply andb_true_iff in Hnf as [Hkeys Hnf].
    destruct l as [|kv l]; [reflexivity|].
    change (stringify (JObj (kv :: l)))
      with ("{" ++ JsString.join "," (map member (kv :: l)) ++ "}").
    rewrite !StringFacts.append_assoc.
    change ("{" ++ ?r) with (String "{" r).
    cbn [parseValue]. change (JsString.code "{" =? 34)%N with false.
    change (JsString.code "{" =? 91)%N with false.
    change (JsString.code "{" =? 123)%N with true. cbv iota.
    assert (Hskip : skipWs (JsString.join "," (map member (kv :: l)) ++ "}" ++ tail)
                    = JsString.join "," (map member (kv :: l)) ++ "}" ++ tail).
    { destruct (join_cons_app (member kv) (map member l) ("}" ++ tail))
        as [tail' Heq].
      change (map member (kv :: l)) with (member kv :: map member l).
      rewrite Heq. apply skipWs_member. }
    rewrite Hskip.
    destruct (join_cons_app (member kv) (map member l) ("}" ++ tail))
      as [tail' Heq].
    change (map member (kv :: l)) with (member kv :: map member l) at 1.
    rewrite Heq.
    assert (Hm : exists body, member kv ++ tail' = String dquote body).
    { unfold member, quote. eexists. reflexivity. }
    destruct Hm as [body ->].
    change (JsString.code dquote =? 125)%N with false. cbv iota.
    rewrite parseMembers_join; [by rewrite Hkeys|done|done|done|].
    simpl in Hfuel. simpl. lia.
Qed.

(** ** The whole text *)

Lemma length_join_bound {A} (w : A -> nat) (f : A -> string) (l : list A) :
  Forall (fun a => w a <= String.length (f a)) l ->
  list_sum (map (fun a => S (w a)) l)
  <= S (String.length (JsString.join "," (map f l))).
Proof.
  induction 1 as [|x l Hx Hl IH]; [simpl; lia|].
  destruct l as [|y l]; [simpl in *; lia|].
  change (JsString.join "," (map f (x :: y :: l)))
    with (f x ++ "," ++ JsString.join "," (map f (y :: l))).
  rewrite sum_sizes_cons, !StringFacts.length_append.
  change (String.length ",") with 1. lia.
Qed.

Lemma size_le_length (j : JSON) : size j <= String.length (stringify j).
Proof.
  induction j as [|b|n|s|l IH|l IH] using JSON_nested_ind.
  - simpl. lia.
  - destruct b; simpl; lia.
  - destruct (ofZ_head n) as (c & r & Heq & _).
    change (stringify (JNum n)) with (JsString.ofZ n). rewrite Heq. simpl. lia.
  - simpl. lia.
  - pose proof (length_join_bound size stringify l IH) as Hb.
    change (stringify (JArr l)) with ("[" ++ JsString.join "," (map stringify l) ++ "]").
    rewrite !StringFacts.length_append. simpl. lia.
  - assert (Hall : Forall (fun kv => size (snd kv) <= String.length (member kv)) l).
    { apply Forall_forall. intros kv Hkv. rewrite Forall_forall in IH.
      unfold member. rewrite !StringFacts.length_append.
      specialize (IH kv Hkv). lia. }
    pose proof (length_join_bound (fun kv => size (snd kv)) member l Hall) as Hb.
    change (stringify (JObj l)) with ("{" ++ JsString.join "," (map member l) ++ "}").
    rewrite !StringFacts.length_append. simpl. lia.
Qed.

(** [JSON.parse(JSON.stringify(j))] is [j], for a value of the model. *)
Lemma parse_stringify (j : JSON) :
  inDomain j = true -> parse (stringify j) = Some j.
Proof.
  intros Hnf. unfold parse.
  pose proof (skipWs_value j "") as Hskip.
  rewrite StringFacts.append_nil_r in Hskip. rewrite Hskip.
  pose proof (readsBack_all j Hnf (S (String.length (stringify j))) "") as Hread.
  rewrite StringFacts.append_nil_r in Hread.
  rewrite Hread; [done| |done]. pose proof (size_le_length j). lia.
Qed.

Lemma stringify_nonempty (j : JSON) : JsString.truthy (stringify j) = true.
Proof.
  destruct (stringify_head j "") as (c & r & Heq & _).
  rewrite StringFacts.append_nil_r in Heq. by rewrite Heq.
Qed.

(** ** What [JSON.parse] answers *)

Lemma parseDigits_nonneg (t : string) (acc : Z) :
  (0 <= acc)%Z -> (0 <= fst (parseDigits acc t))%Z.
Proof.
  revert acc. induction t as [|c r IH]; intros acc Hacc; simpl; [done|].
  destruct (isDigit c); [|done]. apply IH. lia.
Qed.

Lemma parseUnsigned_inDomain (t : string) (v : Z) (rest : string) :
  parseUnsigned t = Some (v, rest) -> (0 <= v <= MAX_EXACT)%Z.
Proof.
  unfold parseUnsigned. destruct t as [|c r]; [done|].
  destruct (isDigit c); [|done].
  pose proof (parseDigits_nonneg (String c r) 0%Z ltac:(lia)) as Hpos.
  destruct (parseDigits 0 (String c r)) as [v0 rest0]. simpl in Hpos.
  destruct (_ || _ || (MAX_EXACT <? v0)%Z) eqn:E; [done|].
  intros [= <- <-]. apply orb_false_iff in E as [_ E].
  apply Z.ltb_ge in E. lia.
Qed.

Lemma parseNumber_inDomain (s : string) (v : Z) (rest : string) :
  parseNumber s = Some (v, rest) -> (Z.abs v <=? MAX_EXACT)%Z = true.
Proof.
  unfold parseNumber. destruct s as [|c r]; [done|].
  destruct (JsString.code c =? 45)%N.
  - destruct (parseUnsigned r) as [[w rest']|] eqn:E; [|done].
    intros [= <- <-]. apply parseUnsigned_inDomain in E. apply Z.leb_le. lia.
  - intros E. apply parseUnsigned_inDomain in E. apply Z.leb_le. lia.
Qed.

(** Every value [parseValue] builds is one of the model. *)
Lemma parseValue_inDomain (fuel : nat) :
  (forall s j rest, parseValue fuel s = Some (j, rest) -> inDomain j = true)
  /\ (forall s l rest, parseElements fuel s = Some (l, rest) ->
                       forallb inDomain l = true)
  /\ (forall s l rest, parseMembers fuel s = Some (l, rest) ->
                       forallb (fun kv => inDomain (snd kv)) l = true).
Proof.
  induction fuel as [|fuel (IHv & IHe & IHm)]; [by split_and!|].
  split_and!.
  - intros s j rest. cbn [parseValue]. destruct s as [|c r]; [done|]. cbv zeta.
    repeat match goal with
           | |- (if ?b then _ else _) = _ -> _ => destruct b
           end.
    + destruct (parseStringBody _ r) as [[t rest']|]; [|done]. by intros [= <- <-].
    + destruct (skipWs r) as [|d r']; [done|].
      destruct (JsString.code d =? 93)%N; [by intros [= <- <-]|].
      destruct (parseElements fuel _) as [[items rest']|] eqn:E; [|done].
      intros [= <- <-]. simpl. by eapply IHe.
    + destruct (skipWs r) as [|d r']; [done|].
      destruct (JsString.code d =? 125)%N; [by intros [= <- <-]|].
      destruct (parseMembers fuel _) as [[fields rest']|] eqn:E; [|done].
      destruct (plainKeys (map fst fields)) eqn:Hkeys; [|done].
      intros [= <- <-]. simpl. rewrite Hkeys. by eapply IHm.
    + destruct (stripPrefix _ _); [|done]. by intros [= <- <-].
    + destruct (stripPrefix _ _); [|done]. by intros [= <- <-].
    + destruct (stripPrefix _ _); [|done]. by intros [= <- <-].
    + destruct (parseNumber _) as [[v rest']|] eqn:E; [|done].
      intros [= <- <-]. simpl. by eapply parseNumber_inDomain.
  - intros s l rest. cbn [parseElements].
    destruct (parseValue fuel s) as [[v rest1]|] eqn:Ev; [|done].
    destruct (skipWs rest1) as [|c r]; [done|]. cbv zeta.
    destruct (JsString.code c =? 93)%N.
    { intros [= <- <-]. simpl. by rewrite (IHv _ _ _ Ev). }
    destruct (JsString.code c =? 44)%N; [|done].
    destruct (parseElements fuel _) as [[vs rest2]|] eqn:Ee; [|done].
    intros [= <- <-]. simpl. by rewrite (IHv _ _ _ Ev), (IHe _ _ _ Ee).
  - intros s l rest. cbn [parseMembers]. destruct s as [|q r]; [done|].
    destruct (JsString.code q =? 34)%N; [|done].
    destruct (parseStringBody _ r) as [[k rest0]|]; [|done].
    destruct (skipWs rest0) as [|colon rest1]; [done|].
    destruct (JsString.code colon =? 58)%N; [|done].
    destruct (parseValue fuel _) as [[v rest2]|] eqn:Ev; [|done].
    destruct (skipWs rest2) as [|c r']; [done|]. cbv zeta.
    destruct (JsString.code c =? 125)%N.
    { intros [= <- <-]. simpl. by rewrite (IHv _ _ _ Ev). }
    destruct (JsString.code c =? 44)%N; [|done].
    destruct (parseMembers fuel _) as [[kvs rest3]|] eqn:Em; [|done].
    intros [= <- <-]. simpl. by rewrite (IHv _ _ _ Ev), (IHm _ _ _ Em).
Qed.

Lemma parse_inDomain (text : string) (j : JSON) :
  parse text = Some j -> inDomain j = true.
Proof.
  unfold parse.
  destruct (parseValue _ _) as [[v rest]|] eqn:E; [|done].
  destruct (skipWs rest); [|done]. intros [= <-].
  by eapply (proj1 (parseValue_inDomain _)).
Qed.

(** What [JSON.parse] returned is read back from its own text. *)
Lemma parse_stringify_parse (text : string) (j : JSON) :
  parse text = Some j -> parse (stringify j) = Some j.
Proof. intros H. by apply parse_stringify, (parse_inDomain text). Qed.

(** ** [JSON.parse] answers only on JSON texts *)

Lemma scanUnicode_parseUnicode (s : string) (x : ascii) (rest : string) :
  parseUnicode s = Some (x, rest) -> scanUnicode s = Some rest.
Proof.
  unfold parseUnicode, scanUnicode.
  destruct s as [|a [|b [|c [|d r]]]]; try done.
  destruct (hexValue a), (hexValue b), (hexValue c), (hexValue d); try done.
  destruct (_ <? 256)%N; [|done]. by intros [= _ ->].
Qed.

Lemma scanStringBody_parseStringBody (fuel : nat) (s t rest : string) :
  parseStringBody fuel s = Some (t, rest) -> scanStringBody fuel s = Some rest.
Proof.
  revert s t rest. induction fuel as [|fuel IH]; intros s t rest; [done|].
  cbn [parseStringBody scanStringBody]. destruct s as [|c r]; [done|]. cbv zeta.
  destruct (JsString.code c =? 34)%N; [by intros [= _ ->]|].
  destruct (JsString.code c =? 92)%N.
  - destruct r as [|e r']; [done|].
    assert (Hplain : forall x,
              match parseStringBody fuel r' with
              | Some (t0, rest0) => Some (String x t0, rest0)
              | None => None
              end = Some (t, rest) -> scanStringBody fuel r' = Some rest).
    { intros x. destruct (parseStringBody fuel r') as [[t0 rest0]|] eqn:E; [|done].
      intros [= _ <-]. by eapply IH. }
    repeat match goal with
           | |- (if (?m =? ?k)%N then _ else _) = _ -> _ =>
               destruct (m =? k)%N; [simpl; apply Hplain|]
           end.
    simpl. destruct (JsString.code e =? 117)%N; [|done].
    destruct (parseUnicode r') as [[x r'']|] eqn:Eu; [|done].
    rewrite (scanUnicode_parseUnicode _ _ _ Eu).
    destruct (parseStringBody fuel r'') as [[t0 rest0]|] eqn:E; [|done].
    intros [= _ <-]. by eapply IH.
  - destruct (JsString.code c <? 32)%N; [done|].
    destruct (parseStringBody fuel r) as [[t0 rest0]|] eqn:E; [|done].
    intros [= _ <-]. by eapply IH.
Qed.

Lemma skipDigits_parseDigits (s : string) (acc : Z) :
  snd (parseDigits acc s) = skipDigits s.
Proof.
  revert acc. induction s as [|c r IH]; intros acc; simpl; [done|].
  destruct (isDigit c); [apply IH|done].
Qed.

Lemma scanNumber_parseUnsigned (t : string) (v : Z) (rest : string) :
  parseUnsigned t = Some (v, rest) ->
  scanNumber t = Some rest
  /\ match t with
     | String c _ => (JsString.code c =? 45)%N = false
     | EmptyString => True
     end.
Proof.
  unfold parseUnsigned. destruct t as [|c r]; [done|].
  destruct (isDigit c) eqn:Hdig; [|done].
  pose proof (skipDigits_parseDigits (String c r) 0) as Hskip.
  destruct (parseDigits 0 (String c r)) as [v0 rest0]. simpl in Hskip.
  rewrite Hdig in Hskip. subst rest0.
  destruct (_ || _ || (MAX_EXACT <? v0)%Z) eqn:E; [done|].
  intros [= <- <-].
  apply orb_false_iff in E as [E _]. apply orb_false_iff in E as [Hbad Hzero].
  assert (Hminus : (JsString.code c =? 45)%N = false).
  { destruct (JsString.code c =? 45)%N eqn:E45; [|done].
    apply N.eqb_eq in E45. unfold isDigit in Hdig. cbv zeta in Hdig.
    by rewrite E45 in Hdig. }
  split; [|done]. unfold scanNumber. rewrite Hminus, Hdig.
  destruct (JsString.code c =? 48)%N eqn:E48.
  - destruct r as [|d r0]; [done|]. simpl in Hzero.
    cbn [skipDigits] in Hbad |- *. rewrite Hzero in Hbad |- *.
    cbv zeta in Hbad. apply orb_false_iff in Hbad as [Hbad H69].
    apply orb_false_iff in Hbad as [H46 H101].
    by rewrite H46, H101, H69.
  - destruct (skipDigits r) as [|d r0]; [done|].
    cbv zeta in Hbad. apply orb_false_iff in Hbad as [Hbad H69].
    apply orb_false_iff in Hbad as [H46 H101].
    by rewrite H46, H101, H69.
Qed.

Lemma scanNumber_parseNumber (s : string) (v : Z) (rest : string) :
  parseNumber s = Some (v, rest) -> scanNumber s = Some rest.
Proof.
  unfold parseNumber. destruct s as [|c r]; [done|].
  destruct (JsString.code c =? 45)%N eqn:E45.
  - destruct (parseUnsigned r) as [[w rest']|] eqn:E; [|done].
    intros [= <- <-]. apply scanNumber_parseUnsigned in E as [Hscan Hminus].
    unfold scanNumber in *. rewrite E45.
    destruct r as [|d r0]; [done|]. by rewrite Hminus in Hscan.
  - intros E. by apply scanNumber_parseUnsigned in E as [Hscan _].
Qed.

(** Where [parseValue] reads a value, [scanValue] reads a phrase of the
    grammar, up to the same place. *)
Lemma scanValue_parseValue (fuel : nat) :
  (forall s j rest, parseValue fuel s = Some (j, rest) ->
                    scanValue fuel s = Some rest)
  /\ (forall s l rest, parseElements fuel s = Some (l, rest) ->
                       scanElements fuel s = Some rest)
  /\ (forall s l rest, parseMembers fuel s = Some (l, rest) ->
                       scanMembers fuel s = Some rest).
Proof.
  induction fuel as [|fuel (IHv & IHe & IHm)]; [by split_and!|].
  split_and!.
  - intros s j rest. cbn [parseValue scanValue].
    destruct s as [|c r]; [done|]. cbv zeta.
    repeat match goal with
           | |- (if ?b then _ else _) = _ -> _ => destruct b
           end.
    + destruct (parseStringBody _ r) as [[t rest']|] eqn:E; [|done].
      intros [= _ <-]. by eapply scanStringBody_parseStringBody.
    + destruct (skipWs r) as [|d r']; [done|].
      destruct (JsString.code d =? 93)%N; [by intros [= _ <-]|].
      destruct (parseElements fuel _) as [[items rest']|] eqn:E; [|done].
      intros [= _ <-]. by eapply IHe.
    + destruct (skipWs r) as [|d r']; [done|].
      destruct (JsString.code d =? 125)%N; [by intros [= _ <-]|].
      destruct (parseMembers fuel _) as [[fields rest']|] eqn:E; [|done].
      destruct (plainKeys _); [|done].
      intros [= _ <-]. by eapply IHm.
    + destruct (stripPrefix _ _); [|done]. by intros [= _ <-].
    + destruct (stripPrefix _ _); [|done]. by intros [= _ <-].
    + destruct (stripPrefix _ _); [|done]. by intros [= _ <-].
    + destruct (parseNumber _) as [[v rest']|] eqn:E; [|done].
      intros [= _ <-]. by eapply scanNumber_parseNumber.
  - intros s l rest. cbn [parseElements scanElements].
    destruct (parseValue fuel s) as [[v rest1]|] eqn:Ev; [|done].
    rewrite (IHv _ _ _ Ev).
    destruct (skipWs rest1) as [|c r]; [done|]. cbv zeta.
    destruct (JsString.code c =? 93)%N; [by intros [= _ <-]|].
    destruct (JsString.code c =? 44)%N; [|done].
    destruct (parseElements fuel _) as [[vs rest2]|] eqn:Ee; [|done].
    intros [= _ <-]. by eapply IHe.
  - intros s l rest. cbn [parseMembers scanMembers]. destruct s as [|q r]; [done|].
    destruct (JsString.code q =? 34)%N; [|done].
    destruct (parseStringBody _ r) as [[k rest0]|] eqn:Ek; [|done].
    rewrite (scanStringBody_parseStringBody _ _ _ _ Ek).
    destruct (skipWs rest0) as [|colon rest1]; [done|].
    destruct (JsString.code colon =? 58)%N; [|done].
    destruct (parseValue fuel _) as [[v rest2]|] eqn:Ev; [|done].
    rewrite (IHv _ _ _ Ev).
    destruct (skipWs rest2) as [|c r']; [done|]. cbv zeta.
    destruct (JsString.code c =? 125)%N; [by intros [= _ <-]|].
    destruct (JsString.code c =? 44)%N; [|done].
    destruct (parseMembers fuel _) as [[kvs rest3]|] eqn:Em; [|done].
    intros [= _ <-]. by eapply IHm.
Qed.

(** On a text that is not JSON, [Json.parse] answers [None]. *)
Lemma parse_malformed (text : string) :
  wellFormed text = false -> parse text = None.
Proof.
  unfold wellFormed, parse. intros H.
  destruct (parseValue _ _) as [[v rest]|] eqn:E; [|done].
  rewrite (proj1 (scanValue_parseValue _) _ _ _ E) in H.
  by destruct (skipWs rest).
Qed.

(** ** The fuel of the grammar is enough *)

Lemma length_skipWs (s : string) : String.length (skipWs s) <= String.length s.
Proof.
  induction s as [|c r IH]; simpl; [lia|].
  destruct (isJsonSpace c); simpl; lia.
Qed.

Lemma length_skipDigits (s : string) :
  String.length (skipDigits s) <= String.length s.
Proof.
  induction s as [|c r IH]; simpl; [lia|].
  destruct (isDigit c); simpl; lia.
Qed.

Lemma length_scanDigits (s rest : string) :
  scanDigits s = Some rest -> String.length rest < String.length s.
Proof.
  unfold scanDigits. destruct s as [|c r]; [done|].
  destruct (isDigit c); [|done]. intros [= <-].
  pose proof (length_skipDigits r). simpl. lia.
Qed.

Lemma length_stripPrefix (p s rest : string) :
  stripPrefix p s = Some rest ->
  String.length rest + String.length p = String.length s.
Proof.
  revert s. induction p as [|c p IH]; intros s; simpl.
  - intros [= <-]. lia.
  - destruct s as [|d s']; [done|]. destruct (Ascii.eqb c d); [|done].
    intros H. apply IH in H. simpl. lia.
Qed.

Lemma length_scanStringBody (fuel : nat) (s rest : string) :
  scanStringBody fuel s = Some rest -> String.length rest < String.length s.
Proof.
  revert s. induction fuel as [|fuel IH]; intros s; [done|].
  cbn [scanStringBody]. destruct s as [|c r]; [done|]. cbv zeta.
  destruct (JsString.code c =? 34)%N; [intros [= <-]; simpl; lia|].
  destruct (JsString.code c =? 92)%N.
  - destruct r as [|e r']; [done|].
    destruct (_ || _).
    + intros H. apply IH in H. simpl. lia.
    + destruct (JsString.code e =? 117)%N; [|done].
      unfold scanUnicode.
      destruct r' as [|a [|b [|c0 [|d r'']]]]; try done.
      destruct (hexValue a), (hexValue b), (hexValue c0), (hexValue d); try done.
      intros H. apply IH in H. simpl. lia.
  - destruct (JsString.code c <? 32)%N; [done|].
    intros H. apply IH in H. simpl. lia.
Qed.

Lemma length_scanNumber (s rest : string) :
  scanNumber s = Some rest -> String.length rest < String.length s.
Proof.
  unfold scanNumber.
  set (unsigned := match s with
                   | String c r => if (JsString.code c =? 45)%N then r else s
                   | EmptyString => s
                   end).
  assert (Hu : String.length unsigned <= String.length s).
  { subst unsigned. destruct s as [|c r]; [done|].
    destruct (JsString.code c =? 45)%N; simpl; lia. }
  destruct unsigned as [|c r]; [done|].
  assert (Hint : forall t,
            (if (JsString.code c =? 48)%N then Some r
             else if isDigit c then Some (skipDigits r) else None) = Some t ->
            String.length t < String.length s).
  { intros t. pose proof (length_skipDigits r). simpl in Hu.
    destruct (JsString.code c =? 48)%N; [intros [= <-]; lia|].
    destruct (isDigit c); [intros [= <-]; lia|done]. }
  destruct (if (JsString.code c =? 48)%N then Some r
            else if isDigit c then Some (skipDigits r) else None) as [t|]; [|done].
  specialize (Hint t eq_refl).
  assert (Hfrac : forall u,
            match t with
            | String c0 r0 =>
                if (JsString.code c0 =? 46)%N then scanDigits r0 else Some t
            | EmptyString => Some t
            end = Some u -> String.length u <= String.length t).
  { intros u. destruct t as [|c0 r0]; [by intros [= <-]|].
    destruct (JsString.code c0 =? 46)%N; [|by intros [= <-]].
    intros H%length_scanDigits. simpl. lia. }
  destruct (match t with
            | String c0 r0 =>
                if (JsString.code c0 =? 46)%N then scanDigits r0 else Some t
            | EmptyString => Some t
            end) as [u|]; [|done].
  specialize (Hfrac u eq_refl).
  destruct u as [|c1 r1]; [intros [= <-]; simpl in *; lia|].
  destruct (_ || _); [|intros [= <-]; lia].
  destruct r1 as [|d r']; [done|].
  destruct (_ || _); intros H%length_scanDigits; simpl in *; lia.
Qed.

(** A phrase is read with as much fuel as it has characters. *)
Lemma scanValue_fuel_bound (fuel : nat) :
  (forall s rest, scanValue fuel s = Some rest ->
     String.length rest < String.length s
     /\ forall g, String.length s - String.length rest <= S g ->
                  scanValue (S g) s = Some rest)
  /\ (forall s rest, scanElements fuel s = Some rest ->
        String.length rest < String.length s
        /\ forall g, String.length s - String.length rest <= S g ->
                     scanElements (S g) s = Some rest)
  /\ (forall s rest, scanMembers fuel s = Some rest ->
        String.length rest < String.length s
        /\ forall g, String.length s - String.length rest <= S g ->
                     scanMembers (S g) s = Some rest).
Proof.
  induction fuel as [|fuel (IHv & IHe & IHm)]; [by split_and!|].
  assert (Hv : forall g s rest,
            scanValue fuel s = Some rest ->
            String.length s - String.length rest <= g ->
            scanValue g s = Some rest).
  { intros g s rest H Hg. destruct (IHv s rest H) as [Hlt Hall].
    destruct g; [lia|]. by apply Hall. }
  assert (He : forall g s rest,
            scanElements fuel s = Some rest ->
            String.length s - String.length rest <= g ->
            scanElements g s = Some rest).
  { intros g s rest H Hg. destruct (IHe s rest H) as [Hlt Hall].
    destruct g; [lia|]. by apply Hall. }
  assert (Hm : forall g s rest,
            scanMembers fuel s = Some rest ->
            String.length s - String.length rest <= g ->
            scanMembers g s = Some rest).
  { intros g s rest H Hg. destruct (IHm s rest H) as [Hlt Hall].
    destruct g; [lia|]. by apply Hall. }
  split_and!.
  - intros s rest. cbn [scanValue]. destruct s as [|c r]; [done|]. cbv zeta.
    repeat match goal with
           | |- (if ?b then _ else _) = _ -> _ => destruct b
           end.
    + intros H. pose proof (length_scanStringBody _ _ _ H). simpl.
      split; [lia|done].
    + pose proof (length_skipWs r) as Hws.
      destruct (skipWs r) as [|d r'] eqn:Hskip; [done|].
      destruct (JsString.code d =? 93)%N.
      * intros [= <-]. simpl in *. split; [lia|done].
      * intros H. destruct (IHe _ _ H) as [Hlt _]. simpl in *.
        split; [lia|]. intros g Hg. apply He; [done|]. simpl. lia.
    + pose proof (length_skipWs r) as Hws.
      destruct (skipWs r) as [|d r'] eqn:Hskip; [done|].
      destruct (JsString.code d =? 125)%N.
      * intros [= <-]. simpl in *. split; [lia|done].
      * intros H. destruct (IHm _ _ H) as [Hlt _]. simpl in *.
        split; [lia|]. intros g Hg. apply Hm; [done|]. simpl. lia.
    + intros H. pose proof (length_stripPrefix _ _ _ H). simpl in *.
      split; [lia|done].
    + intros H. pose proof (length_stripPrefix _ _ _ H). simpl in *.
      split; [lia|done].
    + intros H. pose proof (length_stripPrefix _ _ _ H). simpl in *.
      split; [lia|done].
    + intros H. pose proof (length_scanNumber _ _ H). simpl in *.
      split; [lia|done].
  - intros s rest. cbn [scanElements].
    destruct (scanValue fuel s) as [rest1|] eqn:Ev; [|done].
    destruct (IHv _ _ Ev) as [Hlt1 _].
    pose proof (length_skipWs rest1) as Hws.
    destruct (skipWs rest1) as [|c r] eqn:Hskip; [done|]. cbv zeta.
    destruct (JsString.code c =? 93)%N eqn:E93.
    { intros [= <-]. simpl in *. split; [lia|]. intros g Hg.
      rewrite (Hv g s rest1 Ev) by lia. by rewrite Hskip, E93. }
    destruct (JsString.code c =? 44)%N eqn:E44; [|done].
    intros H. destruct (IHe _ _ H) as [Hlt2 _].
    pose proof (length_skipWs r) as Hws2. simpl in *.
    split; [lia|]. intros g Hg.
    rewrite (Hv g s rest1 Ev) by lia. rewrite Hskip, E93, E44.
    apply He; [done|lia].
  - intros s rest. cbn [scanMembers]. destruct s as [|q r]; [done|].
    destruct (JsString.code q =? 34)%N; [|done].
    destruct (scanStringBody _ r) as [rest0|] eqn:Ek; [|done].
    pose proof (length_scanStringBody _ _ _ Ek) as Hk.
    pose proof (length_skipWs rest0) as Hws0.
    destruct (skipWs rest0) as [|colon rest1] eqn:Hskip0; [done|].
    destruct (JsString.code colon =? 58)%N; [|done].
    destruct (scanValue fuel _) as [rest2|] eqn:Ev; [|done].
    destruct (IHv _ _ Ev) as [Hlt1 _].
    pose proof (length_skipWs rest1) as Hws1.
    pose proof (length_skipWs rest2) as Hws2.
    destruct (skipWs rest2) as [|c r'] eqn:Hskip2; [done|]. cbv zeta.
    destruct (JsString.code c =? 125)%N eqn:E125.
    { intros [= <-]. simpl in *. split; [lia|]. intros g Hg.
      rewrite (Hv g _ rest2 Ev) by lia. by rewrite Hskip2, E125. }
    destruct (JsString.code c =? 44)%N eqn:E44; [|done].
    intros H. destruct (IHm _ _ H) as [Hlt2 _].
    pose proof (length_skipWs r') as Hws3. simpl in *.
    split; [lia|]. intros g Hg.
    rewrite (Hv g _ rest2 Ev) by lia. rewrite Hskip2, E125, E44.
    apply Hm; [done|lia].
Qed.

(** No text is refused for want of fuel: a text that reads as one JSON
    value with some fuel is well formed. *)
Lemma wellFormed_any_fuel (text : string) (fuel : nat) (rest : string) :
  scanValue fuel (skipWs text) = Some rest -> skipWs rest = "" ->
  wellFormed text = true.
Proof.
  intros H Hrest. unfold wellFormed.
  destruct (proj1 (scanValue_fuel_bound fuel) _ _ H) as [_ Hall].
  rewrite Hall, Hrest; [done|].
  pose proof (length_skipWs text). lia.
Qed.

End JsonFacts.

(* ===================================================================== *)
(** * Properties of the persistence adapter *)
(* ===================================================================== *)

Module StorageFacts.
Import Storage.

Lemma asMessage_toJSON (m : Message.t) : asMessage (Message.toJSON m) = m.
Proof. destruct m as [i r c t [b|]]; reflexivity. Qed.

Lemma isValidMessage_toJSON (m : Message.t) :
  isValidMessage (Message.toJSON m) = true.
Proof. destruct m as [i r c t [b|]]; reflexivity. Qed.

Lemma inDomain_message (m : Message.t) :
  Json.inDomain (Message.toJSON m) = true.
Proof. destruct m as [i r c t [b|]]; reflexivity. Qed.

Lemma filter_all {A} (f : A -> bool) (l : list A) :
  forallb f l = true -> List.filter f l = l.
Proof.
  induction l as [|x l IH]; simpl; [done|].
  intros [Hx Hl]%andb_true_iff. rewrite Hx. by rewrite IH.
Qed.

Lemma forallb_map_true {A B} (f : B -> bool) (g : A -> B) (l : list A) :
  (forall a, f (g a) = true) -> forallb f (map g l) = true.
Proof. intros H. induction l as [|x l IH]; simpl; [done|]. by rewrite H, IH. Qed.

Lemma map_map_id {A B} (f : B -> A) (g : A -> B) (l : list A) :
  (forall a, f (g a) = a) -> map f (map g l) = l.
Proof. intros H. induction l as [|x l IH]; simpl; [done|]. by rewrite H, IH. Qed.

Lemma messages_read_back (ms : list Message.t) :
  map asMessage (List.filter isValidMessage (map Message.toJSON ms)) = ms.
Proof.
  rewrite filter_all by (apply forallb_map_true, isValidMessage_toJSON).
  apply map_map_id, asMessage_toJSON.
Qed.

Lemma asSession_toJSON (s : Session.t) : asSession (Session.toJSON s) = s.
Proof.
  destruct s as [i t ms c u st].
  assert (Hm : Json.prop "messages"
                 (Some (Session.toJSON (Session.mk i t ms c u st)))
               = Some (JArr (map Message.toJSON ms))).
  { destruct st; reflexivity. }
  unfold asSession. rewrite Hm. simpl items. rewrite messages_read_back.
  destruct st; reflexivity.
Qed.

Lemma isValidSession_toJSON (s : Session.t) :
  isValidSession (Session.toJSON s) = true.
Proof. destruct s as [i t ms c u [b|]]; reflexivity. Qed.

Lemma inDomain_session (s : Session.t) :
  Json.inDomain (Session.toJSON s) = true.
Proof.
  destruct s as [i t ms c u st].
  assert (Hms : forallb Json.inDomain (map Message.toJSON ms) = true)
    by apply forallb_map_true, inDomain_message.
  destruct st; simpl; by rewrite Hms.
Qed.

Lemma inDomain_sessions (l : list Session.t) :
  Json.inDomain (JArr (map Session.toJSON l)) = true.
Proof. simpl. apply forallb_map_true, inDomain_session. Qed.

Lemma sessions_read_back (l : list Session.t) :
  map asSession (List.filter isValidSession (map Session.toJSON l)) = l.
Proof.
  rewrite filter_all by (apply forallb_map_true, isValidSession_toJSON).
  apply map_map_id, asSession_toJSON.
Qed.

(** What [saveSessions] leaves in a store that takes the write. *)
Lemma getItem_saveSessions (l : list Session.t) (ls : LocalStorage) :
  rejectsWrites ls = false ->
  getItem SESSIONS_KEY (saveSessions l ls)
  = Some (Json.stringify (JArr (map Session.toJSON (take MAX_SESSIONS l)))).
Proof.
  intros Hw. unfold saveSessions, saveObjects, setItem, getItem. rewrite Hw.
  simpl. rewrite <- fmap_take. apply lookup_insert_eq.
Qed.

Lemma getItem_saveObjects (l : list JSON) (ls : LocalStorage) :
  rejectsWrites ls = false ->
  getItem SESSIONS_KEY (saveObjects l ls)
  = Some (Json.stringify (JArr (take MAX_SESSIONS l))).
Proof.
  intros Hw. unfold saveObjects, setItem, getItem. rewrite Hw. simpl.
  apply lookup_insert_eq.
Qed.

(** Loading from a store whose current key holds the text of [l]. *)
Lemma loadSessions_of_text (newId : string) (l : list Session.t) (ls : LocalStorage) :
  l <> [] ->
  getItem SESSIONS_KEY ls = Some (Json.stringify (JArr (map Session.toJSON l))) ->
  loadSessions newId ls = (l, ls).
Proof.
  intros Hne Hget. unfold loadSessions. rewrite Hget.
  rewrite JsonFacts.stringify_nonempty.
  rewrite JsonFacts.parse_stringify by apply inDomain_sessions.
  rewrite sessions_read_back. by destruct l.
Qed.

Lemma filter_filter {A} (f : A -> bool) (l : list A) :
  List.filter f (List.filter f l) = List.filter f l.
Proof.
  induction l as [|x l IH]; simpl; [done|].
  destruct (f x) eqn:E; simpl; by rewrite ?E, IH.
Qed.

Lemma forallb_filter {A} (f g : A -> bool) (l : list A) :
  forallb g l = true -> forallb g (List.filter f l) = true.
Proof.
  induction l as [|x l IH]; simpl; [done|].
  intros [Hx Hl]%andb_true_iff. destruct (f x); simpl; rewrite ?Hx; by apply IH.
Qed.

(** The object the migration writes is a valid session, seen in the store
    as the session the migration returns. *)
Lemma sessionObject_view (id title : string) (valid : list JSON)
      (createdAt updatedAt : string) :
  forallb isValidMessage valid = true ->
  isValidSession (sessionObject id title valid createdAt updatedAt) = true
  /\ asSession (sessionObject id title valid createdAt updatedAt)
     = Session.mk id title (map asMessage valid) createdAt updatedAt None.
Proof.
  intros Hvalid. split; [reflexivity|].
  unfold asSession, sessionObject. simpl. by rewrite (filter_all _ _ Hvalid).
Qed.

(** Loading from a store whose current key holds the text of the object
    the migration writes. *)
Lemma loadSessions_of_object (newId id title : string) (valid : list JSON)
      (createdAt updatedAt : string) (ls : LocalStorage) :
  forallb isValidMessage valid = true ->
  forallb Json.inDomain valid = true ->
  getItem SESSIONS_KEY ls
  = Some (Json.stringify (JArr [sessionObject id title valid createdAt updatedAt])) ->
  loadSessions newId ls
  = ([Session.mk id title (map asMessage valid) createdAt updatedAt None], ls).
Proof.
  intros Hvalid Hdom Hget. unfold loadSessions. rewrite Hget.
  rewrite JsonFacts.stringify_nonempty.
  rewrite JsonFacts.parse_stringify by (simpl; by rewrite Hdom).
  destruct (sessionObject_view id title valid createdAt updatedAt Hvalid)
    as [Hok Hview].
  cbn [List.filter]. rewrite Hok. cbn [map]. by rewrite Hview.
Qed.

Lemma parse_truthy (raw : string) (j : JSON) :
  Json.parse raw = Some j -> JsString.truthy raw = true.
Proof. by destruct raw. Qed.

End StorageFacts.

(** C6. Saving a non-empty collection of at most 50 sessions into a store
    that takes the write, and loading it again, returns the collection. *)
Theorem load_save_roundtrip (newId : string) (S : list Session.t) (ls : LocalStorage) :
  S <> [] ->
  length S <= Storage.MAX_SESSIONS ->
  rejectsWrites ls = false ->
  fst (Storage.loadSessions newId (Storage.saveSessions S ls)) = S.
Proof.
  intros Hne Hlen Hw.
  rewrite (StorageFacts.loadSessions_of_text newId S); [done|done|].
  rewrite StorageFacts.getItem_saveSessions by done.
  by rewrite take_ge.
Qed.

Lemma load_save_roundtrip_witness :
  fst (Storage.loadSessions "s9" (Storage.saveSessions [soleSession] emptyStorage))
  = [soleSession].
Proof.
  apply (load_save_roundtrip "s9" [soleSession] emptyStorage);
    [discriminate | vm_compute; lia | reflexivity].
Defined.

(** C7. With no current key and a legacy key holding an array of valid
    messages, at least one, [loadSessions] returns one session made of
    those messages: its id is the generated one, its title the first 40
    characters of the first user message (or the placeholder when there is
    none), [createdAt] the first message's timestamp and [updatedAt] the
    last one's.  Afterwards the legacy key is gone, and in a store that
    takes the write the current key holds the text of the session object:
    its five members in the order of the object literal, the messages
    being the parsed legacy objects as they are, with every member they
    carry and in the order they carry them.  From there the next load
    returns the session. *)
Theorem legacy_migration (newId : string) (ls : LocalStorage) (raw : string)
        (parsed : list JSON) :
  Storage.getItem Storage.SESSIONS_KEY ls = None ->
  Storage.getItem Storage.LEGACY_KEY ls = Some raw ->
  Json.parse raw = Some (JArr parsed) ->
  forallb Storage.isValidMessage parsed = true ->
  parsed <> [] ->
  let messages := map Storage.asMessage parsed in
  exists first final,
    head messages = Some first /\ last messages = Some final
    /\ let title :=
         match find (fun m => String.eqb (Message.role m) "user") messages with
         | Some u => JsString.slice0 40 (Message.content u)
         | None => "Previous Chat"
         end in
       let session :=
         {| Session.id := newId;
            Session.title := title;
            Session.messages := messages;
            Session.createdAt := Message.timestamp first;
            Session.updatedAt := Message.timestamp final;
            Session.starred := None |} in
       let ls' := snd (Storage.loadSessions newId ls) in
       fst (Storage.loadSessions newId ls) = [session]
       /\ Storage.getItem Storage.LEGACY_KEY ls' = None
       /\ (rejectsWrites ls = false ->
           Storage.getItem Storage.SESSIONS_KEY ls'
           = Some (Json.stringify
                     (JArr [JObj [("id", JStr newId);
                                  ("title", JStr title);
                                  ("messages", JArr parsed);
                                  ("createdAt", JStr (Message.timestamp first));
                                  ("updatedAt", JStr (Message.timestamp final))]]))
           /\ forall nextId, Storage.loadSessions nextId ls' = ([session], ls')).
Proof.
  intros Hcur Hleg Hparse Hvalid Hne messages.
  assert (Hmsgs : messages <> []) by (subst messages; by destruct parsed).
  destruct messages as [|first rest] eqn:Hm; [done|].
  destruct (last (first :: rest)) as [final|] eqn:Hlast;
    [|by apply last_None in Hlast].
  exists first, final. split; [done|]. split; [done|].
  cbv zeta.
  unfold Storage.loadSessions, Storage.migrateLegacy.
  rewrite Hcur, Hleg, (StorageFacts.parse_truthy raw _ Hparse), Hparse.
  rewrite (StorageFacts.filter_all _ _ Hvalid).
  fold messages. rewrite Hm, Hlast. cbn [fst snd].
  split; [done|]. split.
  - unfold Storage.saveObjects, Storage.setItem, Storage.removeItem, Storage.getItem.
    destruct (rejectsWrites ls); simpl.
    + apply lookup_delete_eq.
    + rewrite lookup_insert_ne by done. apply lookup_delete_eq.
  - intros Hw.
    assert (Hdom : forallb Json.inDomain parsed = true).
    { exact (JsonFacts.parse_inDomain raw _ Hparse). }
    match goal with
    | |- Storage.getItem _ (Storage.saveObjects [?o] ?l) = _ /\ _ =>
        assert (Hget : Storage.getItem Storage.SESSIONS_KEY
                         (Storage.saveObjects [o] l)
                       = Some (Json.stringify (JArr [o])))
          by (by rewrite StorageFacts.getItem_saveObjects)
    end.
    split; [exact Hget|].
    intros nextId. rewrite <- Hm in Hget |- *.
    exact (StorageFacts.loadSessions_of_object nextId _ _ parsed _ _ _
             Hvalid Hdom Hget).
Qed.

Lemma legacy_migration_witness :
  fst (Storage.loadSessions "s1" annotatedLegacyStorage)
  = [ {| Session.id := "s1"; Session.title := "Hello world";
         Session.messages := [greeting; hello];
         Session.createdAt := "2023-12-31T23:59:58.000Z";
         Session.updatedAt := "2023-12-31T23:59:59.000Z";
         Session.starred := None |} ]
  /\ Storage.getItem Storage.LEGACY_KEY
       (snd (Storage.loadSessions "s1" annotatedLegacyStorage)) = None
  /\ Storage.getItem Storage.SESSIONS_KEY
       (snd (Storage.loadSessions "s1" annotatedLegacyStorage))
     = Some ("[{" ++ Q ++ "id" ++ Q ++ ":" ++ Q ++ "s1" ++ Q ++ ","
             ++ Q ++ "title" ++ Q ++ ":" ++ Q ++ "Hello world" ++ Q ++ ","
             ++ Q ++ "messages" ++ Q ++ ":" ++ annotatedLegacyText ++ ","
             ++ Q ++ "createdAt" ++ Q ++ ":" ++ Q ++ "2023-12-31T23:59:58.000Z" ++ Q ++ ","
             ++ Q ++ "updatedAt" ++ Q ++ ":" ++ Q ++ "2023-12-31T23:59:59.000Z" ++ Q
             ++ "}]").
Proof.
  destruct (legacy_migration "s1" annotatedLegacyStorage annotatedLegacyText
              annotatedLegacy eq_refl eq_refl eq_refl eq_refl ltac:(discriminate))
    as (first & final & Hfirst & Hfinal & Hload & Hgone & Hsaved).
  injection Hfirst as <-. injection Hfinal as <-.
  destruct (Hsaved eq_refl) as [Htext _].
  split_and!; [exact Hload | exact Hgone | rewrite Htext; reflexivity].
Defined.

(* ===================================================================== *)
(** * Further properties of the persistence adapter *)
(* ===================================================================== *)

Module StorageMoreFacts.
Import Storage.

Lemma getItem_removeItem (k k' : string) (ls : LocalStorage) :
  getItem k (removeItem k' ls) = if decide (k' = k) then None else getItem k ls.
Proof. unfold getItem, removeItem. simpl. apply lookup_delete. Qed.

(** The legacy branch either leaves everything as it is, or migrates. *)
Lemma migrateLegacy_cases (newId : string) (ls : LocalStorage) :
  (forall i, migrateLegacy i ls = ([], ls))
  \/ exists title valid createdAt updatedAt,
       forallb isValidMessage valid = true
       /\ forallb Json.inDomain valid = true
       /\ forall i,
            migrateLegacy i ls
            = ([Session.mk i title (map asMessage valid) createdAt updatedAt None],
               saveObjects [sessionObject i title valid createdAt updatedAt]
                           (removeItem LEGACY_KEY ls)).
Proof.
  unfold migrateLegacy.
  destruct (getItem LEGACY_KEY ls) as [raw|]; [|by left].
  destruct (JsString.truthy raw); [|by left].
  destruct (Json.parse raw) as [[| | | |parsed|]|] eqn:Hparse; try by left.
  destruct (map asMessage (List.filter isValidMessage parsed))
    as [|first rest] eqn:Hm; [by left|].
  destruct (last (first :: rest)) as [final|] eqn:Hlast;
    [|by apply last_None in Hlast].
  right. eexists _, (List.filter isValidMessage parsed), _, _. split_and!.
  - apply forallb_forall. intros x Hx. by apply filter_In in Hx as [_ Hx].
  - apply StorageFacts.forallb_filter.
    exact (JsonFacts.parse_inDomain raw _ Hparse).
  - intros i. by rewrite Hm.
Qed.

(** What a load does to the store, whatever id it draws. *)
Lemma loadSessions_cases (ls : LocalStorage) :
  (exists l, forall i, loadSessions i ls = (l, ls))
  \/ exists title valid createdAt updatedAt,
       forallb isValidMessage valid = true
       /\ forallb Json.inDomain valid = true
       /\ forall i,
            loadSessions i ls
            = ([Session.mk i title (map asMessage valid) createdAt updatedAt None],
               saveObjects [sessionObject i title valid createdAt updatedAt]
                           (removeItem LEGACY_KEY ls)).
Proof.
  assert (Hleg : (forall i, loadSessions i ls = migrateLegacy i ls) ->
                 (exists l, forall i, loadSessions i ls = (l, ls))
                 \/ exists title valid createdAt updatedAt,
                      forallb isValidMessage valid = true
                      /\ forallb Json.inDomain valid = true
                      /\ forall i,
                           loadSessions i ls
                           = ([Session.mk i title (map asMessage valid)
                                          createdAt updatedAt None],
                              saveObjects
                                [sessionObject i title valid createdAt updatedAt]
                                (removeItem LEGACY_KEY ls))).
  { intros Heq.
    destruct (migrateLegacy_cases "" ls) as [H | (t & ms & c & u & Hv & Hd & H)].
    - left. exists []. intros i. by rewrite Heq.
    - right. exists t, ms, c, u. split_and!; [done|done|].
      intros i. by rewrite Heq. }
  unfold loadSessions in *.
  destruct (getItem SESSIONS_KEY ls) as [raw|] eqn:Hget; [|by apply Hleg].
  destruct (JsString.truthy raw); [|by apply Hleg].
  destruct (Json.parse raw) as [[| | | |parsed|]|];
    try (by apply Hleg); [|left; by exists []].
  destruct (map asSession (List.filter isValidSession parsed)) as [|s l];
    [by apply Hleg|].
  left. by exists (s :: l).
Qed.

Lemma take_nonempty {A} (n : nat) (l : list A) : l <> [] -> take (S n) l <> [].
Proof. by destruct l. Qed.

End StorageMoreFacts.

(** X1. Only the first 50 sessions are kept: saving any non-empty
    collection into a store that takes the write, and loading it again,
    returns its first 50 sessions, in order. *)
Theorem load_save_keeps_first_fifty (newId : string) (S : list Session.t)
        (ls : LocalStorage) :
  S <> [] ->
  rejectsWrites ls = false ->
  fst (Storage.loadSessions newId (Storage.saveSessions S ls)) = take 50 S.
Proof.
  intros Hne Hw.
  rewrite (StorageFacts.loadSessions_of_text newId (take 50 S)); [done| |].
  - by apply StorageMoreFacts.take_nonempty.
  - by rewrite StorageFacts.getItem_saveSessions.
Qed.

Lemma load_save_keeps_first_fifty_witness :
  fst (Storage.loadSessions "s9"
         (Storage.saveSessions (replicate 51 soleSession ++ [UseChat.createEmptySession "s0" "t0"])
                               emptyStorage))
  = take 50 (replicate 51 soleSession ++ [UseChat.createEmptySession "s0" "t0"]).
Proof.
  apply (load_save_keeps_first_fifty "s9"
           (replicate 51 soleSession ++ [UseChat.createEmptySession "s0" "t0"])
           emptyStorage);
    [discriminate | reflexivity].
Defined.

(** X2. A current key whose text is not JSON makes the load return
    nothing and leave the store as it is: the SyntaxError is caught at the
    end of [loadSessions], so the legacy key is not looked at and nothing
    is migrated. *)
Theorem load_corrupt_current_key (newId raw : string) (ls : LocalStorage) :
  Storage.getItem Storage.SESSIONS_KEY ls = Some raw ->
  raw <> "" ->
  Json.wellFormed raw = false ->
  Storage.loadSessions newId ls = ([], ls).
Proof.
  intros Hget Hne Hbad. unfold Storage.loadSessions. rewrite Hget.
  apply String.eqb_neq in Hne. unfold JsString.truthy. rewrite Hne. simpl.
  by rewrite (JsonFacts.parse_malformed raw Hbad).
Qed.

Lemma load_corrupt_current_key_witness :
  Storage.loadSessions "s1" corruptStorage = ([], corruptStorage)
  /\ Storage.getItem Storage.LEGACY_KEY corruptStorage
     = Some (Json.stringify (JArr (map Message.toJSON [greeting; hello; failure]))).
Proof.
  split; [|reflexivity].
  apply (load_corrupt_current_key "s1" "{oops" corruptStorage);
    [reflexivity | discriminate | reflexivity].
Defined.

(** X3. After [clearAllSessions] both keys are gone, every other key is
    as before, and a load returns nothing and changes nothing. *)
Theorem clearAllSessions_then_load (newId : string) (ls : LocalStorage) :
  let cleared := Storage.clearAllSessions ls in
  Storage.getItem Storage.SESSIONS_KEY cleared = None
  /\ Storage.getItem Storage.LEGACY_KEY cleared = None
  /\ (forall k, k <> Storage.SESSIONS_KEY -> k <> Storage.LEGACY_KEY ->
                Storage.getItem k cleared = Storage.getItem k ls)
  /\ Storage.loadSessions newId cleared = ([], cleared).
Proof.
  cbv zeta. unfold Storage.clearAllSessions.
  assert (H1 : Storage.getItem Storage.SESSIONS_KEY
                 (Storage.removeItem Storage.LEGACY_KEY
                    (Storage.removeItem Storage.SESSIONS_KEY ls)) = None).
  { rewrite !StorageMoreFacts.getItem_removeItem.
    rewrite decide_False by done. by rewrite decide_True. }
  assert (H2 : Storage.getItem Storage.LEGACY_KEY
                 (Storage.removeItem Storage.LEGACY_KEY
                    (Storage.removeItem Storage.SESSIONS_KEY ls)) = None).
  { rewrite StorageMoreFacts.getItem_removeItem. by rewrite decide_True. }
  split_and!; [done | done | |].
  - intros k Hk1 Hk2. rewrite !StorageMoreFacts.getItem_removeItem.
    by rewrite !decide_False.
  - unfold Storage.loadSessions, Storage.migrateLegacy. by rewrite H1, H2.
Qed.

(** X4. A migration in a browser that refuses the write loses the legacy
    data: the session is returned to the caller, but the legacy key has
    been removed before the save and the save is swallowed, so the store
    ends with neither key and the next load returns nothing. *)
Theorem legacy_migration_without_write (newId : string) (ls : LocalStorage)
        (raw : string) (parsed : list JSON) :
  Storage.getItem Storage.SESSIONS_KEY ls = None ->
  Storage.getItem Storage.LEGACY_KEY ls = Some raw ->
  Json.parse raw = Some (JArr parsed) ->
  forallb Storage.isValidMessage parsed = true ->
  parsed <> [] ->
  rejectsWrites ls = true ->
  let ls' := snd (Storage.loadSessions newId ls) in
  (exists session,
      fst (Storage.loadSessions newId ls) = [session]
      /\ Session.messages session = map Storage.asMessage parsed)
  /\ Storage.getItem Storage.SESSIONS_KEY ls' = None
  /\ Storage.getItem Storage.LEGACY_KEY ls' = None
  /\ forall nextId, Storage.loadSessions nextId ls' = ([], ls').
Proof.
  intros Hcur Hleg Hparse Hvalid Hne Hw. cbv zeta.
  assert (Hms : map Storage.asMessage parsed <> []) by by destruct parsed.
  assert (Hload : exists session,
             Session.messages session = map Storage.asMessage parsed
             /\ Storage.loadSessions newId ls
                = ([session], Storage.removeItem Storage.LEGACY_KEY ls)).
  { destruct (map Storage.asMessage parsed) as [|first rest] eqn:Hm; [done|].
    destruct (last (first :: rest)) as [final|] eqn:Hlast;
      [|by apply last_None in Hlast].
    unfold Storage.loadSessions, Storage.migrateLegacy.
    rewrite Hcur, Hleg, (StorageFacts.parse_truthy raw _ Hparse), Hparse.
    rewrite (StorageFacts.filter_all _ _ Hvalid), Hm, Hlast.
    unfold Storage.saveObjects, Storage.setItem. simpl. rewrite Hw.
    eexists. split; [|reflexivity]. reflexivity. }
  destruct Hload as (session & Hmsgs & ->). cbn [fst snd].
  assert (H1 : Storage.getItem Storage.SESSIONS_KEY
                 (Storage.removeItem Storage.LEGACY_KEY ls) = None).
  { rewrite StorageMoreFacts.getItem_removeItem. by rewrite decide_False. }
  assert (H2 : Storage.getItem Storage.LEGACY_KEY
                 (Storage.removeItem Storage.LEGACY_KEY ls) = None).
  { rewrite StorageMoreFacts.getItem_removeItem. by rewrite decide_True. }
  split_and!; [by exists session | done | done |].
  intros nextId. unfold Storage.loadSessions, Storage.migrateLegacy.
  by rewrite H1, H2.
Qed.

Lemma legacy_migration_without_write_witness :
  length (fst (Storage.loadSessions "s1" fullLegacyStorage)) = 1
  /\ fst (Storage.loadSessions "s2" (snd (Storage.loadSessions "s1" fullLegacyStorage)))
     = [].
Proof.
  destruct (legacy_migration_without_write "s1" fullLegacyStorage
              (Json.stringify (JArr (map Message.toJSON [greeting; hello; failure])))
              (map Message.toJSON [greeting; hello; failure])
              eq_refl eq_refl eq_refl eq_refl ltac:(discriminate) eq_refl)
    as ((session & Hload & _) & _ & _ & Hnext).
  split.
  - by rewrite Hload.
  - by rewrite (Hnext "s2").
Defined.

(** X5. In a store that takes writes, loading is repeatable: a second
    load, whatever id it draws, returns the sessions the first one
    returned -- also when the first one migrated the legacy messages. *)
Theorem load_twice (id1 id2 : string) (ls : LocalStorage) :
  rejectsWrites ls = false ->
  fst (Storage.loadSessions id2 (snd (Storage.loadSessions id1 ls)))
  = fst (Storage.loadSessions id1 ls).
Proof.
  intros Hw.
  destruct (StorageMoreFacts.loadSessions_cases ls)
    as [[l Hl] | (t & valid & c & u & Hvalid & Hdom & Hl)].
  - by rewrite !Hl.
  - rewrite (Hl id1). cbn [fst snd].
    rewrite (StorageFacts.loadSessions_of_object id2 id1 t valid c u);
      [done | done | done |].
    by rewrite StorageFacts.getItem_saveObjects.
Qed.

Lemma load_twice_witness :
  fst (Storage.loadSessions "s2" (snd (Storage.loadSessions "s1" legacyStorage)))
  = fst (Storage.loadSessions "s1" legacyStorage).
Proof. apply (load_twice "s1" "s2" legacyStorage). reflexivity. Defined.

(* ===================================================================== *)
(** * Properties of the timestamp helpers *)
(* ===================================================================== *)

Module TimeFacts.

(** The quotient of a floor division, between its bounds. *)
Lemma floor_bounds (a b : Z) :
  (0 < b)%Z -> (b * (a / b) <= a < b * (a / b + 1))%Z.
Proof.
  intros Hb. split.
  - by apply Z.mul_div_le.
  - replace (a / b + 1)%Z with (Z.succ (a / b)) by lia.
    by apply Z.mul_succ_div_gt.
Qed.

End TimeFacts.

(** X6. The sidebar label of a session by the age of its last update, in
    milliseconds: under 24 hours it is Today (a span, not the calendar
    day), under 48 hours Yesterday, under 8 days Previous 7 Days, under 31
    days Previous 30 Days, and the month and year beyond.  An update time
    in the future is labelled Previous 7 Days. *)
Theorem session_date_label_by_age (monthYear : string) (now d : Z) :
  let age := (now - d)%Z in
  let label := Storage.getSessionDateLabel monthYear now (Some d) in
  ((0 <= age < 86400000)%Z -> label = "Today")
  /\ ((86400000 <= age < 172800000)%Z -> label = "Yesterday")
  /\ ((172800000 <= age < 691200000)%Z -> label = "Previous 7 Days")
  /\ ((age < 0)%Z -> label = "Previous 7 Days")
  /\ ((691200000 <= age < 2678400000)%Z -> label = "Previous 30 Days")
  /\ ((2678400000 <= age)%Z -> label = monthYear).
Proof.
  cbv zeta. unfold Storage.getSessionDateLabel.
  pose proof (TimeFacts.floor_bounds (now - d) 86400000 ltac:(lia)) as Hq.
  set (q := ((now - d) / 86400000)%Z) in *.
  split_and!; intros Hage;
    destruct (Z.eqb_spec q 0); destruct (Z.eqb_spec q 1);
    destruct (Z.leb_spec q 7); destruct (Z.leb_spec q 30);
    try reflexivity; lia.
Qed.

(** X7. The relative time shown under a message, by its age in
    milliseconds: Just now under one minute (also for a time in the
    future), then a whole number of minutes between 1 and 59 followed by
    "m ago" under one hour, the time of day under 24 hours, and the full
    date from then on. *)
Theorem format_timestamp_by_age (timeOfDay fullDate : string) (now d : Z) :
  let age := (now - d)%Z in
  let shown := Storage.formatTimestamp timeOfDay fullDate now (Some d) in
  ((age < 60000)%Z -> shown = "Just now")
  /\ ((60000 <= age < 3600000)%Z ->
      exists n, (1 <= n <= 59)%Z /\ (60000 * n <= age < 60000 * (n + 1))%Z
                /\ shown = JsString.ofZ n ++ "m ago")
  /\ ((3600000 <= age < 86400000)%Z -> shown = timeOfDay)
  /\ ((86400000 <= age)%Z -> shown = fullDate).
Proof.
  cbv zeta. unfold Storage.formatTimestamp.
  pose proof (TimeFacts.floor_bounds (now - d) 60000 ltac:(lia)) as Hm.
  pose proof (TimeFacts.floor_bounds (now - d) 3600000 ltac:(lia)) as Hh.
  set (m := ((now - d) / 60000)%Z) in *.
  set (h := ((now - d) / 3600000)%Z) in *.
  split_and!; intros Hage.
  - destruct (Z.ltb_spec m 1); [done|lia].
  - exists m. destruct (Z.ltb_spec m 1); [lia|].
    destruct (Z.ltb_spec m 60); [|lia]. split_and!; [lia|lia|lia|lia|done].
  - destruct (Z.ltb_spec m 1); [lia|]. destruct (Z.ltb_spec m 60); [lia|].
    destruct (Z.ltb_spec h 24); [done|lia].
  - destruct (Z.ltb_spec m 1); [lia|]. destruct (Z.ltb_spec m 60); [lia|].
    destruct (Z.ltb_spec h 24); [lia|done].
Qed.

(* ===================================================================== *)
(** * Properties of the sidebar grouping *)
(* ===================================================================== *)

Module SidebarFacts.
Import Sidebar.

(** The place of a label in the sort: its index in [DATE_ORDER], and 4
    for any other label. *)
Definition rank (label : string) : nat :=
  match indexOf label DATE_ORDER with
  | Some i => i
  | None => 4
  end.

Lemma indexOf_lt (label : string) (l : list string) (i : nat) :
  indexOf label l = Some i -> i < length l.
Proof.
  revert i. induction l as [|x l IH]; intros i; simpl; [done|].
  destruct (String.eqb x label); [intros [= <-]; lia|].
  destruct (indexOf label l) as [j|]; [|done].
  intros [= <-]. specialize (IH j eq_refl). lia.
Qed.

Lemma indexOf_None (label : string) (l : list string) :
  label ∉ l -> indexOf label l = None.
Proof.
  induction l as [|x l IH]; simpl; [done|].
  intros [Hx Hl]%not_elem_of_cons.
  destruct (String.eqb_spec x label) as [->|_]; [done|]. by rewrite IH.
Qed.

Lemma stronglySorted_weaken {A} (R R' : A -> A -> Prop) (l : list A) :
  (forall x y, R x y -> R' x y) -> StronglySorted R l -> StronglySorted R' l.
Proof.
  intros HR. induction 1 as [|x l Hs IH Hall]; constructor; [done|].
  eapply Forall_impl; [exact Hall|]. intros y. apply HR.
Qed.

Lemma indexOf_elem_of (label : string) (l : list string) :
  label ∈ l -> indexOf label l <> None.
Proof.
  induction l as [|x l IH]; simpl; [by intros ?%elem_of_nil|].
  destruct (String.eqb_spec x label) as [->|Hne]; [done|].
  intros [?|Hin]%elem_of_cons; [congruence|].
  destruct (indexOf label l); [done|]. by destruct (IH Hin).
Qed.

Lemma other_rank (g : Group) :
  bool_decide (indexOf (fst g) DATE_ORDER = None) = Nat.eqb (rank (fst g)) 4.
Proof.
  unfold rank. destruct (indexOf (fst g) DATE_ORDER) as [i|] eqn:Hidx.
  - apply indexOf_lt in Hidx. unfold DATE_ORDER in Hidx. simpl in Hidx.
    rewrite bool_decide_false by done. symmetry. apply Nat.eqb_neq. lia.
  - by rewrite bool_decide_true.
Qed.

Lemma compareLabels_rank (a b : string) :
  compareLabels a b = Nat.compare (rank a) (rank b).
Proof.
  unfold compareLabels, rank.
  destruct (indexOf a DATE_ORDER) as [i|] eqn:Ha;
    destruct (indexOf b DATE_ORDER) as [j|] eqn:Hb; try done.
  - apply indexOf_lt in Ha. symmetry. apply Nat.compare_lt_iff.
    unfold DATE_ORDER in Ha. simpl in Ha. lia.
  - apply indexOf_lt in Hb. symmetry. apply Nat.compare_gt_iff.
    unfold DATE_ORDER in Hb. simpl in Hb. lia.
Qed.

Section Grouping.
Variable labelOf : Session.t -> string.

(** The items filed under a label, none when the label has no group. *)
Fixpoint itemsOf (label : string) (groups : list Group) : list Session.t :=
  match groups with
  | [] => []
  | (l, items) :: rest =>
      if String.eqb l label then items else itemsOf label rest
  end.

Definition wellFormed (groups : list Group) : Prop :=
  NoDup (map fst groups) /\ Forall (fun g => snd g <> []) groups.

Lemma labels_addToGroup label s groups :
  map fst (addToGroup label s groups)
  = if bool_decide (label ∈ map fst groups) then map fst groups
    else (map fst groups ++ [label])%list.
Proof.
  induction groups as [|[l items] rest IH]; simpl; [done|].
  destruct (String.eqb_spec l label) as [->|Hne]; simpl.
  - rewrite bool_decide_true; [done|apply list_elem_of_here].
  - rewrite IH. case_bool_decide as Hin.
    + rewrite bool_decide_true; [done|by apply list_elem_of_further].
    + rewrite bool_decide_false; [done|].
      intros [?|?]%elem_of_cons; congruence.
Qed.

Lemma itemsOf_addToGroup label s groups lab :
  itemsOf lab (addToGroup label s groups)
  = if String.eqb label lab then (itemsOf lab groups ++ [s])%list
    else itemsOf lab groups.
Proof.
  induction groups as [|[l items] rest IH]; simpl.
  - destruct (String.eqb label lab); done.
  - destruct (String.eqb_spec l label) as [->|Hne]; simpl.
    + destruct (String.eqb label lab); done.
    + destruct (String.eqb_spec l lab) as [->|Hne'].
      * apply String.eqb_neq in Hne. rewrite String.eqb_sym in Hne.
        by rewrite Hne.
      * apply IH.
Qed.

Lemma wellFormed_addToGroup label s groups :
  wellFormed groups -> wellFormed (addToGroup label s groups).
Proof.
  intros [Hnd Hne]. split.
  - rewrite labels_addToGroup. case_bool_decide as Hin; [done|].
    apply NoDup_app. split_and!; [done| |apply NoDup_singleton].
    intros x Hx ->%list_elem_of_singleton. done.
  - clear Hnd. induction groups as [|[l items] rest IH]; simpl.
    + by repeat constructor.
    + apply Forall_cons in Hne as [H1 H2].
      destruct (String.eqb l label); constructor; simpl; auto.
      by destruct items.
Qed.

Lemma concat_addToGroup label s groups :
  concat (map snd (addToGroup label s groups)) ≡ₚ s :: concat (map snd groups).
Proof.
  induction groups as [|[l items] rest IH]; simpl; [done|].
  destruct (String.eqb l label); simpl.
  - rewrite <- app_assoc. simpl. symmetry. apply Permutation_middle.
  - rewrite IH. symmetry. apply Permutation_middle.
Qed.

Lemma collect_snoc l s :
  collect labelOf (l ++ [s]) = addToGroup (labelOf s) s (collect labelOf l).
Proof. unfold collect. by rewrite foldl_app. Qed.

Lemma filter_snoc {A} (f : A -> bool) (l : list A) (x : A) :
  List.filter f (l ++ [x])
  = (List.filter f l ++ if f x then [x] else [])%list.
Proof. rewrite List.filter_app. simpl. by destruct (f x). Qed.

(** What the loop has built after the sessions [l]. *)
Lemma collect_spec (l : list Session.t) :
  wellFormed (collect labelOf l)
  /\ (forall lab, itemsOf lab (collect labelOf l)
                  = List.filter (fun s => String.eqb (labelOf s) lab) l)
  /\ (forall lab, lab ∈ map fst (collect labelOf l) <-> lab ∈ map labelOf l)
  /\ concat (map snd (collect labelOf l)) ≡ₚ l.
Proof.
  induction l as [|s l IH] using rev_ind.
  - split_and!; [split; constructor | done | done | done].
  - destruct IH as (Hwf & Hitems & Hlabels & Hperm).
    rewrite collect_snoc. split_and!.
    + by apply wellFormed_addToGroup.
    + intros lab. rewrite itemsOf_addToGroup, Hitems, filter_snoc.
      destruct (String.eqb (labelOf s) lab); by rewrite ?app_nil_r.
    + intros lab. rewrite labels_addToGroup, map_app. simpl.
      case_bool_decide as Hin.
      * rewrite Hlabels. rewrite elem_of_app, list_elem_of_singleton.
        split; [by left|]. intros [?| ->]; [done|]. by apply Hlabels.
      * rewrite !elem_of_app, Hlabels. done.
    + rewrite concat_addToGroup, Hperm. by rewrite Permutation_cons_append.
Qed.

Lemma itemsOf_elem_of (groups : list Group) lab items :
  NoDup (map fst groups) ->
  (lab, items) ∈ groups -> itemsOf lab groups = items.
Proof.
  induction groups as [|[l its] rest IH]; simpl; intros Hnd Hin.
  - by apply elem_of_nil in Hin.
  - apply NoDup_cons in Hnd as [Hl Hnd].
    apply elem_of_cons in Hin as [[= -> ->]|Hin].
    + by rewrite String.eqb_refl.
    + destruct (String.eqb_spec l lab) as [->|Hne]; [|by apply IH].
      destruct Hl. apply list_elem_of_fmap. by exists (lab, items).
Qed.

(** ** The sort *)

Definition byRank (g h : Group) : Prop := rank (fst g) <= rank (fst h).

Lemma insertGroup_perm (g : Group) (l : list Group) :
  insertGroup g l ≡ₚ g :: l.
Proof.
  induction l as [|h l IH]; simpl; [done|].
  destruct (compareLabels _ _); try done; rewrite IH; apply Permutation_swap.
Qed.

Lemma insertGroup_sorted (g : Group) (l : list Group) :
  StronglySorted byRank l -> StronglySorted byRank (insertGroup g l).
Proof.
  induction 1 as [|h l Hs IH Hall]; simpl; [by repeat constructor|].
  rewrite compareLabels_rank.
  destruct (Nat.compare_spec (rank (fst g)) (rank (fst h))) as [Heq|Hlt|Hgt].
  - constructor; [done|]. rewrite insertGroup_perm.
    constructor; [unfold byRank; lia|done].
  - constructor; [by constructor|]. constructor; [unfold byRank; lia|].
    eapply Forall_impl; [exact Hall|]. unfold byRank. intros; lia.
  - constructor; [done|]. rewrite insertGroup_perm.
    constructor; [unfold byRank; lia|done].
Qed.

(** Stability: among the groups of one rank, the new one comes last. *)
Lemma insertGroup_stable (g : Group) (l : list Group) (r : nat) :
  StronglySorted byRank l ->
  List.filter (fun h => Nat.eqb (rank (fst h)) r) (insertGroup g l)
  = (List.filter (fun h => Nat.eqb (rank (fst h)) r) l
     ++ if Nat.eqb (rank (fst g)) r then [g] else [])%list.
Proof.
  induction 1 as [|h l Hs IH Hall]; simpl; [done|].
  rewrite compareLabels_rank.
  destruct (Nat.compare_spec (rank (fst g)) (rank (fst h))) as [Heq|Hlt|Hgt];
    simpl; try (rewrite IH; by destruct (Nat.eqb (rank (fst h)) r)).
  destruct (Nat.eqb_spec (rank (fst g)) r) as [Hg|Hg].
  - assert (Hnone : List.filter (fun h0 => Nat.eqb (rank (fst h0)) r) l = []).
    { clear IH Hs. induction l as [|k l IHl]; [done|].
      apply Forall_cons in Hall as [Hk Hall]. simpl.
      destruct (Nat.eqb_spec (rank (fst k)) r); [unfold byRank in Hk; lia|].
      by apply IHl. }
    rewrite Hnone. destruct (Nat.eqb_spec (rank (fst h)) r); [lia|done].
  - by rewrite app_nil_r.
Qed.

Lemma sortGroups_snoc l g :
  sortGroups (l ++ [g]) = insertGroup g (sortGroups l).
Proof. unfold sortGroups. by rewrite foldl_app. Qed.

Lemma sortGroups_spec (l : list Group) :
  sortGroups l ≡ₚ l
  /\ StronglySorted byRank (sortGroups l)
  /\ forall r, List.filter (fun h => Nat.eqb (rank (fst h)) r) (sortGroups l)
               = List.filter (fun h => Nat.eqb (rank (fst h)) r) l.
Proof.
  induction l as [|g l IH] using rev_ind.
  - split_and!; [done | constructor | done].
  - destruct IH as (Hperm & Hsorted & Hstable). rewrite sortGroups_snoc.
    split_and!.
    + rewrite insertGroup_perm, Hperm. apply Permutation_cons_append.
    + by apply insertGroup_sorted.
    + intros r. rewrite insertGroup_stable by done.
      by rewrite Hstable, filter_snoc.
Qed.

Lemma filter_partition {A} (f : A -> bool) (l : list A) :
  (List.filter f l ++ List.filter (fun x => negb (f x)) l)%list ≡ₚ l.
Proof.
  induction l as [|x l IH]; simpl; [done|].
  destruct (f x); simpl.
  - by rewrite IH.
  - by rewrite <- Permutation_middle, IH.
Qed.

End Grouping.
End SidebarFacts.

(** X8. The sidebar lists every session exactly once: the starred
    sessions followed by the items of the date groups are a rearrangement
    of the session collection. *)
Theorem sidebar_lists_each_session_once (labelOf : Session.t -> string)
        (sessions : list Session.t) :
  (Sidebar.starredSessions sessions
   ++ concat (map snd (Sidebar.dateGroups labelOf sessions)))%list
  ≡ₚ sessions.
Proof.
  unfold Sidebar.dateGroups, Sidebar.groupByDate, Sidebar.starredSessions.
  destruct (SidebarFacts.sortGroups_spec
              (Sidebar.collect labelOf
                 (List.filter (fun s => negb (Sidebar.isStarred s)) sessions)))
    as (Hperm & _ & _).
  rewrite Hperm.
  destruct (SidebarFacts.collect_spec labelOf
              (List.filter (fun s => negb (Sidebar.isStarred s)) sessions))
    as (_ & _ & _ & Hconcat).
  rewrite Hconcat. apply SidebarFacts.filter_partition.
Qed.

(** X9. The date groups have distinct labels and none is empty; the
    items of a group are the sessions of that label, in the order of the
    collection; and every session has a group for its label. *)
Theorem groupByDate_groups (labelOf : Session.t -> string)
        (sessions : list Session.t) :
  let groups := Sidebar.groupByDate labelOf sessions in
  NoDup (map fst groups)
  /\ (forall label items,
        (label, items) ∈ groups ->
        items <> []
        /\ items = List.filter (fun s => String.eqb (labelOf s) label) sessions)
  /\ (forall s, s ∈ sessions -> labelOf s ∈ map fst groups).
Proof.
  cbv zeta. unfold Sidebar.groupByDate.
  destruct (SidebarFacts.sortGroups_spec (Sidebar.collect labelOf sessions))
    as (Hperm & _ & _).
  destruct (SidebarFacts.collect_spec labelOf sessions)
    as ([Hnd Hne] & Hitems & Hlabels & _).
  split_and!.
  - by rewrite Hperm.
  - intros label items Hin. rewrite Hperm in Hin. split.
    + rewrite Forall_forall in Hne. by apply (Hne (label, items)).
    + rewrite <- Hitems. symmetry. by apply SidebarFacts.itemsOf_elem_of.
  - intros s Hs. rewrite Hperm. apply Hlabels.
    apply list_elem_of_fmap. by exists s.
Qed.

(** X10. The date groups are sorted by the comparator of the sort: the
    labels of [DATE_ORDER] come in that order (Today, Yesterday, Previous
    7 Days, Previous 30 Days) and before every other label; the other
    labels keep the order in which the collection first shows them. *)
Theorem groupByDate_order (labelOf : Session.t -> string)
        (sessions : list Session.t) :
  let groups := Sidebar.groupByDate labelOf sessions in
  let other (g : Sidebar.Group) :=
    bool_decide (Sidebar.indexOf (fst g) Sidebar.DATE_ORDER = None) in
  StronglySorted (fun g h => Sidebar.compareLabels (fst g) (fst h) <> Gt) groups
  /\ List.filter other groups
     = List.filter other (Sidebar.collect labelOf sessions)
  /\ (forall i j a b,
        Sidebar.DATE_ORDER !! i = Some a -> Sidebar.DATE_ORDER !! j = Some b ->
        i < j -> Sidebar.compareLabels a b = Lt)
  /\ (forall a b, a ∈ Sidebar.DATE_ORDER -> b ∉ Sidebar.DATE_ORDER ->
                  Sidebar.compareLabels a b = Lt).
Proof.
  cbv zeta. unfold Sidebar.groupByDate.
  destruct (SidebarFacts.sortGroups_spec (Sidebar.collect labelOf sessions))
    as (_ & Hsorted & Hstable).
  split_and!.
  - eapply SidebarFacts.stronglySorted_weaken; [|exact Hsorted].
    intros g h Hgh. rewrite SidebarFacts.compareLabels_rank.
    unfold SidebarFacts.byRank in Hgh. intros Hgt%Nat.compare_gt_iff. lia.
  - specialize (Hstable 4).
    rewrite !(List.filter_ext _ _ SidebarFacts.other_rank). exact Hstable.
  - intros i j a b Hi Hj Hlt.
    destruct i as [|[|[|[|i]]]]; destruct j as [|[|[|[|j]]]];
      simpl in Hi, Hj; try done; try lia;
      injection Hi as <-; injection Hj as <-; reflexivity.
  - intros a b Ha Hb. unfold Sidebar.compareLabels.
    rewrite (SidebarFacts.indexOf_None b) by done.
    destruct (Sidebar.indexOf a Sidebar.DATE_ORDER) eqn:Hidx; [done|].
    by apply SidebarFacts.indexOf_elem_of in Ha.
Qed.

(* ===================================================================== *)
(** * Further properties of the completion and search clients *)
(* ===================================================================== *)

Module TrimFacts.
Import JsString.

Fixpoint allWhiteSpace (s : string) : bool :=
  match s with
  | String c r => isWhiteSpace c && allWhiteSpace r
  | EmptyString => true
  end.

Lemma trimStart_spec (s : string) :
  (allWhiteSpace s = true /\ trimStart s = "")
  \/ (allWhiteSpace s = false
      /\ exists c r, trimStart s = String c r /\ isWhiteSpace c = false).
Proof.
  induction s as [|c s IH]; simpl; [by left|].
  destruct (isWhiteSpace c) eqn:Hc; simpl; [done|].
  right. split; [done|]. by exists c, s.
Qed.

Lemma trimEnd_empty (s : string) : trimEnd s = "" -> allWhiteSpace s = true.
Proof.
  induction s as [|c s IH]; simpl; [done|].
  destruct (trimEnd s) eqn:Hs; [|done].
  destruct (isWhiteSpace c); [intros _; by apply IH|done].
Qed.

Lemma allWhiteSpace_trimEnd (s : string) :
  allWhiteSpace s = true -> trimEnd s = "".
Proof.
  induction s as [|c s IH]; simpl; [done|].
  intros [Hc Hs]%andb_true_iff. by rewrite IH, Hc.
Qed.

(** [s.trim() === ''] exactly when [s] is white space only. *)
Lemma trim_empty_iff (s : string) : trim s = "" <-> allWhiteSpace s = true.
Proof.
  unfold trim. destruct (trimStart_spec s) as [[Hall ->] | (Hall & c & r & -> & Hc)].
  - done.
  - split.
    + intros H%trimEnd_empty. simpl in H. by rewrite Hc in H.
    + congruence.
Qed.

Lemma allWhiteSpace_app (a b : string) :
  allWhiteSpace (a ++ b) = allWhiteSpace a && allWhiteSpace b.
Proof.
  induction a as [|c a IH]; [done|].
  change (String c a ++ b) with (String c (a ++ b)). simpl.
  by rewrite IH, andb_assoc.
Qed.

Lemma trim_app_nonempty (a b : string) : trim a <> "" -> trim (a ++ b) <> "".
Proof.
  rewrite !trim_empty_iff, allWhiteSpace_app.
  intros Ha [H _]%andb_true_iff. done.
Qed.

End TrimFacts.

Module OpenAIMoreFacts.
Import RunMonad OpenAI.

#[local] Arguments Json.prop : simpl never.
#[local] Arguments Json.first : simpl never.
#[local] Arguments Json.truthy : simpl never.
#[local] Arguments Json.isTheString : simpl never.
#[local] Arguments Json.toStringV : simpl never.
#[local] Arguments isFailedGeneration : simpl never.
#[local] Arguments badRequestMessage : simpl never.
#[local] Arguments isNetworkFailure : simpl never.
#[local] Arguments buildSystemPrompt : simpl never.
#[local] Arguments searchQueryOf : simpl never.
#[local] Arguments finishReasonOf : simpl never.
#[local] Arguments firstContent : simpl never.
#[local] Arguments searchUnavailable : simpl never.
#[local] Arguments providerMessage : simpl never.
#[local] Arguments JsString.trim : simpl never.
#[local] Arguments JsString.ofZ : simpl never.
#[local] Arguments JsString.truthy : simpl never.
#[local] Arguments String.eqb : simpl never.
#[local] Arguments Z.eqb : simpl never.

Ltac run_unfold :=
  unfold onStatusChange, doFetch, bind, tryCatch, ret, throw, emit, await in *.

Section WithEnv.
Variable env : Env.

Lemma usableContent_nonblank (c : JsValue) log text :
  fst (usableContent c log) = inr text -> JsString.trim text <> "".
Proof.
  unfold usableContent. destruct c as [[]|]; simpl; try done.
  destruct (String.eqb_spec (JsString.trim s) ""); simpl; [done|].
  by intros [= <-].
Qed.

(** The message and the code [handleHttpError] throws with. *)
Definition httpErrorMessage (r : Response) : string :=
  if (status r =? 401)%Z then
    "Invalid API key. Please check your VITE_GROQ_API_KEY in the .env file."
  else if (status r =? 429)%Z then
    "Rate limit exceeded. Please wait a moment before sending another message."
  else if (status r =? 503)%Z then "Service unavailable. Please try again shortly."
  else if (status r =? 500)%Z then
    "Groq is experiencing issues. Please try again shortly."
  else
    match json r with
    | inr errorData =>
        Json.toStringV
          (providerMessage errorData
             ("Request failed with status " ++ JsString.ofZ (status r)))
    | inl _ => "Request failed with status " ++ JsString.ofZ (status r)
    end.

Definition httpErrorCode (r : Response) : JsValue :=
  match json r with
  | inr errorData => Json.prop "code" (Json.prop "error" (Some errorData))
  | inl _ => None
  end.

Lemma handleHttpError_throws {A} (r : Response) log :
  handleHttpError (A := A) r log
  = (inl (OpenAIError (httpErrorMessage r) (Some (status r)) (httpErrorCode r)), log).
Proof.
  unfold handleHttpError, httpErrorMessage, httpErrorCode.
  unfold throw.
  destruct (json r) as [e|errorData];
    (destruct (Z.eqb_spec (status r) 401) as [E|_]; [by rewrite E|]);
    (destruct (Z.eqb_spec (status r) 429) as [E|_]; [by rewrite E|]);
    (destruct (Z.eqb_spec (status r) 503) as [E|_]; [by rewrite E|]);
    (destruct (Z.eqb_spec (status r) 500) as [E|_]; [by rewrite E|]);
    reflexivity.
Qed.

Lemma toolCallPath_nonblank messages apiKey firstChoice log text :
  fst (toolCallPath env messages apiKey firstChoice log) = inr text ->
  JsString.trim text <> "".
Proof.
  unfold toolCallPath.
  destruct (negb (Json.truthy _)); [done|].
  destruct (searchQueryOf _) as [q|]; [|done].
  run_unfold. simpl.
  destruct (OpenAIFacts.runSearch_log env q (log ++ [Notify searching])%list)
    as ([content sources] & evs & -> & _).
  simpl.
  destruct (groqFetch env _) as [e|r]; simpl.
  { by destruct e. }
  destruct (negb (ok r)); simpl.
  - by rewrite handleHttpError_throws.
  - destruct (json r) as [e|data]; simpl; [done|].
    destruct (usableContent _ _) as [[e|c] l] eqn:Hu; simpl; [done|].
    intros [= <-]. apply TrimFacts.trim_app_nonempty.
    eapply usableContent_nonblank. by rewrite Hu.
Qed.

Lemma retryWithoutTools_nonblank messages apiKey log text :
  fst (retryWithoutTools env messages apiKey log) = inr text ->
  JsString.trim text <> "".
Proof.
  unfold retryWithoutTools. run_unfold. simpl.
  destruct (groqFetch env _) as [e|r]; simpl; [done|].
  destruct (negb (ok r)); simpl.
  - by rewrite handleHttpError_throws.
  - destruct (json r) as [e|data]; simpl; [done|].
    apply usableContent_nonblank.
Qed.

Lemma groqCalls_app l k : groqCalls (l ++ k) = (groqCalls l ++ groqCalls k)%list.
Proof. unfold groqCalls. apply omap_app. Qed.

End WithEnv.
End OpenAIMoreFacts.

(** X11. Whatever path a send takes (direct answer, retry without tools,
    tool call with or without citations), a text it returns is never
    blank: trimmed, it is not the empty string. *)
Theorem successful_send_is_never_blank (env : Env) (history : list OpenAIMessage)
        (text : string) :
  fst (OpenAI.sendChatMessage env history []) = inr text ->
  JsString.trim text <> "".
Proof.
  unfold OpenAI.sendChatMessage.
  destruct (configured _ _) as [apiKey|]; [|done].
  unfold OpenAI.onStatusChange, OpenAI.doFetch, RunMonad.bind, RunMonad.tryCatch,
    RunMonad.ret, RunMonad.throw, RunMonad.emit, RunMonad.await.
  simpl.
  destruct (groqFetch env 0) as [e|r1]; simpl.
  { destruct e; simpl; try destruct (OpenAI.isNetworkFailure _); done. }
  destruct (negb (ok r1)).
  - destruct (status r1 =? 400)%Z.
    + destruct (OpenAI.isFailedGeneration _); [|done].
      apply OpenAIMoreFacts.retryWithoutTools_nonblank.
    + by rewrite OpenAIMoreFacts.handleHttpError_throws.
  - destruct (json r1) as [e|firstData]; simpl; [done|].
    destruct (negb (Json.isTheString _ _)).
    + apply OpenAIMoreFacts.usableContent_nonblank.
    + apply OpenAIMoreFacts.toolCallPath_nonblank.
Qed.

Lemma successful_send_is_never_blank_witness :
  fst (OpenAI.sendChatMessage retryEnv oneQuestion []) = inr "Hi there"
  /\ JsString.trim "Hi there" <> "".
Proof.
  split; [reflexivity|].
  apply (successful_send_is_never_blank retryEnv oneQuestion "Hi there").
  reflexivity.
Defined.





(** X14. When the first request itself is rejected, the send ends after
    that one request.  An [OpenAIError] is passed on as it is.  Any other
    rejection becomes an [OpenAIError]: with status 0 and the code
    [network_error] when its text, in lower case, contains [failed to
    fetch], [load failed] or [networkerror]; with the message [Request
    failed: ] followed by its text, and neither status nor code,
    otherwise. *)
Theorem first_request_rejected (env : Env) (history : list OpenAIMessage)
        (apiKey : string) (e : Thrown) :
  configured (VITE_GROQ_API_KEY env) "your_groq_api_key_here" = Some apiKey ->
  groqFetch env 0 = Rejects e ->
  let result := fst (OpenAI.sendChatMessage env history []) in
  snd (OpenAI.sendChatMessage env history [])
  = [Notify thinking; GroqCall (firstRequest env history apiKey)]
  /\ (forall m s c, e = OpenAIError m s c -> result = inl e)
  /\ ((forall m s c, e <> OpenAIError m s c) ->
      let lower := JsString.toLowerCase (errorText e) in
      (JsString.includes "failed to fetch" lower
       || JsString.includes "load failed" lower
       || JsString.includes "networkerror" lower = true ->
       result = inl (OpenAIError
                       "Network error. Please check your internet connection and try again."
                       (Some 0%Z) (Some (JStr "network_error"))))
      /\ (JsString.includes "failed to fetch" lower
          || JsString.includes "load failed" lower
          || JsString.includes "networkerror" lower = false ->
          result = inl (OpenAIError ("Request failed: " ++ errorText e) None None))).
Proof.
  intros Hkey Hfetch result. subst result.
  assert (Hsend :
    OpenAI.sendChatMessage env history []
    = (match e with
       | OpenAIError _ _ _ => inl e
       | _ =>
           if OpenAI.isNetworkFailure (errorText e)
           then inl (OpenAIError
                       "Network error. Please check your internet connection and try again."
                       (Some 0%Z) (Some (JStr "network_error")))
           else inl (OpenAIError ("Request failed: " ++ errorText e) None None)
       end,
       [Notify thinking; GroqCall (firstRequest env history apiKey)])).
  { unfold OpenAI.sendChatMessage. rewrite Hkey.
    unfold OpenAI.onStatusChange, OpenAI.doFetch, RunMonad.bind, RunMonad.tryCatch,
      RunMonad.ret, RunMonad.throw, RunMonad.emit, RunMonad.await.
    simpl. rewrite Hfetch. simpl.
    destruct e; simpl; try destruct (OpenAI.isNetworkFailure _); done. }
  rewrite Hsend. cbn [fst snd]. split_and!.
  - done.
  - by intros m s c ->.
  - intros Hother.
    fold (OpenAI.isNetworkFailure (errorText e)).
    destruct e as [m s c| |]; [by destruct (Hother m s c)| |];
      (split; intros ->; reflexivity).
Qed.

Lemma first_request_rejected_witness :
  OpenAI.sendChatMessage
    (scriptedEnv (Rejects (ErrorObject "TypeError: Failed to fetch"))
                 (respond 200 (completionBody "unused")) (respond 200 twoResults))
    oneQuestion []
  = (inl (OpenAIError
            "Network error. Please check your internet connection and try again."
            (Some 0%Z) (Some (JStr "network_error"))),
     [Notify thinking;
      GroqCall (firstRequest
                  (scriptedEnv (Rejects (ErrorObject "TypeError: Failed to fetch"))
                               (respond 200 (completionBody "unused"))
                               (respond 200 twoResults))
                  oneQuestion "gsk_test")]).
Proof.
  destruct (first_request_rejected
              (scriptedEnv (Rejects (ErrorObject "TypeError: Failed to fetch"))
                           (respond 200 (completionBody "unused"))
                           (respond 200 twoResults))
              oneQuestion "gsk_test" (ErrorObject "TypeError: Failed to fetch")
              eq_refl eq_refl)
    as (Hlog & _ & Hother).
  destruct (Hother ltac:(discriminate)) as [Hnet _].
  apply injective_projections; [exact (Hnet eq_refl) | exact Hlog].
Defined.

Module ToolPathFacts.
Import RunMonad OpenAI.

#[local] Arguments Json.prop : simpl never.
#[local] Arguments Json.first : simpl never.
#[local] Arguments Json.truthy : simpl never.
#[local] Arguments Json.isTheString : simpl never.
#[local] Arguments buildSystemPrompt : simpl never.
#[local] Arguments searchQueryOf : simpl never.
#[local] Arguments finishReasonOf : simpl never.
#[local] Arguments firstContent : simpl never.
#[local] Arguments searchUnavailable : simpl never.
#[local] Arguments toolResultContent : simpl never.
#[local] Arguments Tavily.formatSourcesMarkdown : simpl never.
#[local] Arguments JsString.trim : simpl never.
#[local] Arguments String.eqb : simpl never.

Section WithEnv.
Variable env : Env.

(** A search that answers: one search call, the tool result and the
    citation block of its results. *)
Lemma runSearch_success query log key rs data block payload :
  tavilyImport env = None ->
  configured (VITE_TAVILY_API_KEY env) "your_tavily_api_key_here" = Some key ->
  tavilyFetch env = Resolves rs -> ok rs = true -> json rs = inr data ->
  Tavily.formatSourcesMarkdown (Json.prop "results" (Some data)) = Some block ->
  toolResultContent (Json.prop "results" (Some data)) = Some payload ->
  runSearch env query log = (inr (payload, block), (log ++ [TavilyCall query])%list).
Proof.
  intros Himport Hkey Hfetch Hok Hjson Hblock Hpayload.
  unfold runSearch, Tavily.searchWeb. rewrite Himport, Hkey.
  unfold bind, tryCatch, ret, throw, emit, await. simpl.
  rewrite Hfetch. simpl. rewrite Hok. simpl. rewrite Hjson. simpl.
  by rewrite Hblock, Hpayload.
Qed.

(** The events of the tool path up to its second request, whatever the
    search did. *)
Lemma toolCallPath_second_request messages apiKey firstChoice log :
  let toolCalls := Json.prop "tool_calls" (Json.prop "message" firstChoice) in
  let toolCall := Json.first toolCalls in
  forall query,
  Json.truthy toolCall = true ->
  searchQueryOf toolCall = Some query ->
  exists payload block evs,
    runSearch env query (log ++ [Notify searching])%list
    = (inr (payload, block), ((log ++ [Notify searching]) ++ evs)%list)
    /\ (evs = [] \/ evs = [TavilyCall query])
    /\ forall outcome,
        groqFetch env (length (groqCalls log)) = outcome ->
        toolCallPath env messages apiKey firstChoice log
        = (let log2 := (log ++ [Notify searching] ++ evs ++
                        [Notify thinking;
                         GroqCall {| messages := messagesWithToolResult messages
                                                   toolCalls toolCall payload;
                                     apiKey := apiKey; includeTools := false |}])%list in
           match outcome with
           | Rejects (OpenAIError m s c) => (inl (OpenAIError m s c), log2)
           | Rejects e =>
               (inl (OpenAIError ("Request failed: " ++ errorText e) None None), log2)
           | Resolves r2 =>
               if negb (ok r2) then handleHttpError r2 log2
               else match json r2 with
                    | inl e => (inl e, log2)
                    | inr secondData =>
                        match usableContent (firstContent secondData) log2 with
                        | (inr finalContent, l) => (inr (finalContent ++ block), l)
                        | (inl e, l) => (inl e, l)
                        end
                    end
           end).
Proof.
  intros toolCalls toolCall query Htruthy Hquery.
  destruct (OpenAIFacts.runSearch_log env query (log ++ [Notify searching])%list)
    as ([payload block] & evs & Hrun & Hevs).
  exists payload, block, evs. split; [done|]. split; [done|].
  intros outcome Hfetch.
  assert (Hcalls : groqCalls (((log ++ [Notify searching]) ++ evs)
                              ++ [Notify thinking])%list = groqCalls log).
  { rewrite OpenAIFacts.groqCalls_snoc_notify. unfold groqCalls. rewrite omap_app.
    fold (groqCalls (log ++ [Notify searching])%list).
    rewrite OpenAIFacts.groqCalls_snoc_notify.
    destruct Hevs as [-> | ->]; simpl; by rewrite app_nil_r. }
  unfold toolCallPath. fold toolCalls toolCall.
  rewrite Htruthy, Hquery. simpl.
  unfold onStatusChange, doFetch, bind, tryCatch, ret, throw, emit, await.
  rewrite Hrun. simpl. rewrite Hcalls, Hfetch.
  rewrite <- !app_assoc. simpl. rewrite <- ?app_assoc. simpl.
  destruct outcome as [e|r2]; simpl.
  { by destruct e. }
  destruct (negb (ok r2)); simpl.
  - by rewrite !OpenAIMoreFacts.handleHttpError_throws.
  - destruct (json r2) as [e|secondData]; simpl; [done|].
    by destruct (usableContent _ _) as [[e|c] l].
Qed.

End WithEnv.
End ToolPathFacts.

(** X15. The tool-call path with a working search.  When the first
    response asks for a tool call with a readable query, the search
    answers with results, and the second response carries a non-blank
    content, the send returns that content followed by the citation block
    of the results.  It reports thinking, searching, thinking; it searches
    once, for the query of the tool call; and its second request repeats
    the messages of the first, followed by the model's tool calls and the
    tool result, without the tool declaration. *)
Theorem tool_call_answer_with_citations (env : Env) (history : list OpenAIMessage)
        (apiKey searchKey : string) (r1 rs r2 : Response)
        (firstData found secondData : JSON) (query : JsValue)
        (block payload text : string) :
  let toolCalls :=
    Json.prop "tool_calls"
      (Json.prop "message" (Json.first (Json.prop "choices" (Some firstData)))) in
  let toolCall := Json.first toolCalls in
  configured (VITE_GROQ_API_KEY env) "your_groq_api_key_here" = Some apiKey ->
  groqFetch env 0 = Resolves r1 -> ok r1 = true -> json r1 = inr firstData ->
  Json.prop "finish_reason" (Json.first (Json.prop "choices" (Some firstData)))
  = Some (JStr "tool_calls") ->
  Json.truthy toolCall = true ->
  OpenAI.searchQueryOf toolCall = Some query ->
  tavilyImport env = None ->
  configured (VITE_TAVILY_API_KEY env) "your_tavily_api_key_here" = Some searchKey ->
  tavilyFetch env = Resolves rs -> ok rs = true -> json rs = inr found ->
  Tavily.formatSourcesMarkdown (Json.prop "results" (Some found)) = Some block ->
  OpenAI.toolResultContent (Json.prop "results" (Some found)) = Some payload ->
  groqFetch env 1 = Resolves r2 -> ok r2 = true -> json r2 = inr secondData ->
  OpenAI.firstContent secondData = Some (JStr text) ->
  JsString.trim text <> "" ->
  OpenAI.sendChatMessage env history []
  = (inr (text ++ block),
     [Notify thinking; GroqCall (firstRequest env history apiKey);
      Notify searching; TavilyCall query; Notify thinking;
      GroqCall {| messages :=
                    (messages (firstRequest env history apiKey)
                     ++ [AssistantToolCalls toolCalls;
                         ToolResult payload (Json.prop "id" toolCall)])%list;
                  apiKey := apiKey; includeTools := false |}]).
Proof.
  intros toolCalls toolCall Hkey Hf1 Hok1 Hj1 Hreason Htruthy Hquery
         Himport Hskey Hfs Hoks Hjs Hblock Hpayload Hf2 Hok2 Hj2 Hcontent Htrim.
  rewrite (OpenAIFacts.sendChatMessage_tool env history apiKey r1 firstData
             Hkey Hf1 Hok1 Hj1 Hreason).
  destruct (ToolPathFacts.toolCallPath_second_request env
              (ChatMsg "system" (OpenAI.buildSystemPrompt env) :: history) apiKey
              (Json.first (Json.prop "choices" (Some firstData)))
              [Notify thinking; GroqCall (firstRequest env history apiKey)]
              query Htruthy Hquery)
    as (payload' & block' & evs & Hrun & _ & Hpath).
  rewrite (ToolPathFacts.runSearch_success env query _ searchKey rs found block payload
             Himport Hskey Hfs Hoks Hjs Hblock Hpayload) in Hrun.
  injection Hrun as -> -> <-.
  unfold firstRequest in *.
  rewrite (Hpath (Resolves r2) Hf2). cbv zeta.
  rewrite Hok2. simpl negb. cbv iota. rewrite Hj2, Hcontent.
  unfold OpenAI.usableContent.
  apply String.eqb_neq in Htrim. rewrite Htrim. reflexivity.
Qed.

Lemma tool_call_answer_with_citations_witness :
  fst (OpenAI.sendChatMessage searchEnv oneQuestion [])
  = inr ("Answer" ++ LF ++ LF ++ "---" ++ LF ++ "**Sources:**" ++ LF
         ++ "1. [Rocq 9.0 released](https://rocq-prover.org/news)" ++ LF
         ++ "2. [Release notes](https://rocq-prover.org/changes)").
Proof.
  rewrite (tool_call_answer_with_citations searchEnv oneQuestion "gsk_test" "tvly_test"
             {| status := 200; json := inr toolCallBody |}
             {| status := 200; json := inr twoResults |}
             {| status := 200; json := inr (completionBody "Answer") |}
             toolCallBody twoResults (completionBody "Answer")
             (Some (JStr "rocq prover release"))
             (default "" (Tavily.formatSourcesMarkdown
                            (Json.prop "results" (Some twoResults))))
             (default "" (OpenAI.toolResultContent
                            (Json.prop "results" (Some twoResults))))
             "Answer"
             eq_refl eq_refl eq_refl eq_refl eq_refl eq_refl eq_refl eq_refl eq_refl
             eq_refl eq_refl eq_refl eq_refl eq_refl eq_refl eq_refl eq_refl eq_refl
             ltac:(discriminate)).
  reflexivity.
Defined.

(** X16. A first response that announces a tool call and carries none, or
    one whose arguments give no readable query, ends the send at once:
    one completion request, no search, no second request, and an
    [OpenAIError] without status that says which of the two it was.  The
    arguments give no query when the call has no [function], or when
    they are not a JSON text, so that [JSON.parse] throws. *)
Theorem tool_call_without_usable_call (env : Env) (history : list OpenAIMessage)
        (apiKey : string) (r1 : Response) (firstData : JSON) :
  let toolCall :=
    Json.first (Json.prop "tool_calls"
      (Json.prop "message" (Json.first (Json.prop "choices" (Some firstData))))) in
  configured (VITE_GROQ_API_KEY env) "your_groq_api_key_here" = Some apiKey ->
  groqFetch env 0 = Resolves r1 -> ok r1 = true -> json r1 = inr firstData ->
  Json.prop "finish_reason" (Json.first (Json.prop "choices" (Some firstData)))
  = Some (JStr "tool_calls") ->
  let failsWith (message : string) :=
    OpenAI.sendChatMessage env history []
    = (inl (OpenAIError message None None),
       [Notify thinking; GroqCall (firstRequest env history apiKey)]) in
  (Json.truthy toolCall = false ->
   failsWith "Model indicated tool use but provided no tool call.")
  /\ (Json.truthy toolCall = true ->
      (Json.prop "function" toolCall = None ->
       failsWith "Model returned an invalid search query.")
      /\ (forall fn,
            Json.prop "function" toolCall = Some fn ->
            Json.wellFormed (Json.toStringV (Json.prop "arguments" (Some fn)))
            = false ->
            failsWith "Model returned an invalid search query.")).
Proof.
  intros toolCall Hkey Hf1 Hok1 Hj1 Hreason failsWith. subst failsWith. cbv beta.
  rewrite (OpenAIFacts.sendChatMessage_tool env history apiKey r1 firstData
             Hkey Hf1 Hok1 Hj1 Hreason).
  unfold OpenAI.toolCallPath. fold toolCall. unfold firstRequest.
  split.
  - by intros ->.
  - intros ->. cbn [negb]. cbv iota. unfold OpenAI.searchQueryOf. split.
    + by intros ->.
    + intros fn -> Hbad. rewrite (JsonFacts.parse_malformed _ Hbad).
      by destruct fn.
Qed.

Lemma tool_call_without_usable_call_witness :
  fst (OpenAI.sendChatMessage
         (scriptedEnv (respond 200 toolCallBodyWithoutCall)
                      (respond 200 (completionBody "unused")) (respond 200 twoResults))
         oneQuestion [])
  = inl (OpenAIError "Model indicated tool use but provided no tool call." None None)
  /\ OpenAI.sendChatMessage
       (scriptedEnv (respond 200 toolCallBodyBadArguments)
                    (respond 200 (completionBody "unused")) (respond 200 twoResults))
       oneQuestion []
     = (inl (OpenAIError "Model returned an invalid search query." None None),
        [Notify thinking;
         GroqCall (firstRequest
                     (scriptedEnv (respond 200 toolCallBodyBadArguments)
                                  (respond 200 (completionBody "unused"))
                                  (respond 200 twoResults))
                     oneQuestion "gsk_test")]).
Proof.
  destruct (tool_call_without_usable_call
              (scriptedEnv (respond 200 toolCallBodyWithoutCall)
                           (respond 200 (completionBody "unused"))
                           (respond 200 twoResults))
              oneQuestion "gsk_test"
              {| status := 200; json := inr toolCallBodyWithoutCall |}
              toolCallBodyWithoutCall eq_refl eq_refl eq_refl eq_refl eq_refl)
    as [Hnone _].
  destruct (tool_call_without_usable_call
              (scriptedEnv (respond 200 toolCallBodyBadArguments)
                           (respond 200 (completionBody "unused"))
                           (respond 200 twoResults))
              oneQuestion "gsk_test"
              {| status := 200; json := inr toolCallBodyBadArguments |}
              toolCallBodyBadArguments eq_refl eq_refl eq_refl eq_refl eq_refl)
    as [_ Hcall].
  destruct (Hcall eq_refl) as [_ Hbad].
  split.
  - by rewrite (Hnone eq_refl).
  - exact (Hbad (JObj [("name", JStr "web_search");
                       ("arguments", JStr "{query: rocq prover}")])
                eq_refl eq_refl).
Defined.





(* ===================================================================== *)
(** * Citations and the tool result, on results of the declared shape *)
(* ===================================================================== *)

Module CitationFacts.
Import Tavily.

#[local] Arguments Json.prop : simpl never.

(** A result whose title and url are the strings of [c]. *)
Definition cites (r : JSON) (c : string * string) : Prop :=
  Json.prop "title" (Some r) = Some (JStr c.1)
  /\ Json.prop "url" (Some r) = Some (JStr c.2).

(** A result whose title, url and content are the strings of [c]. *)
Definition carries (r : JSON) (c : string * string * string) : Prop :=
  Json.prop "title" (Some r) = Some (JStr c.1.1)
  /\ Json.prop "url" (Some r) = Some (JStr c.1.2)
  /\ Json.prop "content" (Some r) = Some (JStr c.2).

Definition citation (i : nat) (c : string * string) : string :=
  JsString.ofNat (i + 1) ++ ". [" ++ c.1 ++ "](" ++ c.2 ++ ")".

Definition entry (c : string * string * string) : JSON :=
  JObj [("title", JStr c.1.1); ("url", JStr c.1.2);
        ("content", JStr (JsString.slice0 500 c.2))].

Lemma sourceLine_cites i r c : cites r c -> sourceLine i r = Some (citation i c).
Proof.
  intros [Ht Hu]. unfold sourceLine, citation. rewrite Ht, Hu.
  destruct r; try reflexivity. discriminate Ht.
Qed.

Lemma mapIndexed_sourceLine k rs cs :
  Forall2 cites rs cs ->
  mapIndexed sourceLine k rs = Some (imap (fun i c => citation (k + i) c) cs).
Proof.
  intros H. revert k. induction H as [|r c rs cs Hrc _ IH]; intros k; [done|].
  cbn [mapIndexed imap]. rewrite (sourceLine_cites k r c Hrc), (IH (S k)).
  rewrite Nat.add_0_r. do 2 f_equal.
  apply imap_ext. intros i x _. simpl. f_equal. lia.
Qed.

Lemma toolResultEntry_carries r c :
  carries r c -> OpenAI.toolResultEntry r = Some (entry c).
Proof.
  intros (Ht & Hu & Hc). unfold OpenAI.toolResultEntry, entry.
  destruct r as [| | | | |fields]; try discriminate Ht.
  cbv beta zeta. by rewrite Ht, Hu, Hc.
Qed.

Lemma mapIndexed_toolResultEntry k rs cs :
  Forall2 carries rs cs ->
  mapIndexed (fun _ r => OpenAI.toolResultEntry r) k rs = Some (map entry cs).
Proof.
  intros H. revert k. induction H as [|r c rs cs Hrc _ IH]; intros k; [done|].
  cbn [mapIndexed map]. by rewrite (toolResultEntry_carries r c Hrc), (IH (S k)).
Qed.

Lemma length_substring n m s : String.length (String.substring n m s) <= m.
Proof.
  revert n m. induction s as [|a s IH]; intros n m.
  - destruct n, m; simpl; lia.
  - destruct n; destruct m; simpl; try lia.
    + specialize (IH 0 m). lia.
    + apply IH.
    + apply IH.
Qed.

End CitationFacts.

(** X19. The citation block of a non-empty list of results whose titles
    and urls are strings: two line feeds, a rule, the heading, and then
    one line per result for the first five results, in the order of the
    results, numbered from 1, each a markdown link from the title to the
    url.  The lines are separated by line feeds, with none after the
    last. *)
Theorem citation_block_lists_first_five (results : list JSON)
        (links : list (string * string)) :
  results <> [] ->
  Forall2 (fun r c => Json.prop "title" (Some r) = Some (JStr c.1)
                      /\ Json.prop "url" (Some r) = Some (JStr c.2))
          results links ->
  Tavily.formatSourcesMarkdown (Some (JArr results))
  = Some (LF ++ LF ++ "---" ++ LF ++ "**Sources:**" ++ LF
          ++ JsString.join LF
               (imap (fun i c => JsString.ofNat (i + 1) ++ ". [" ++ c.1 ++ "]("
                                 ++ c.2 ++ ")")
                     (take 5 links))).
Proof.
  intros Hne H. unfold Tavily.formatSourcesMarkdown.
  destruct results as [|r results]; [done|].
  rewrite (CitationFacts.mapIndexed_sourceLine 0 (take 5 (r :: results)) (take 5 links)
             (Forall2_take _ _ _ 5 H)).
  reflexivity.
Qed.

Lemma citation_block_lists_first_five_witness :
  Tavily.formatSourcesMarkdown (Json.prop "results" (Some twoResults))
  = Some (LF ++ LF ++ "---" ++ LF ++ "**Sources:**" ++ LF
          ++ "1. [Rocq 9.0 released](https://rocq-prover.org/news)" ++ LF
          ++ "2. [Release notes](https://rocq-prover.org/changes)").
Proof.
  apply (citation_block_lists_first_five _
           [("Rocq 9.0 released", "https://rocq-prover.org/news");
            ("Release notes", "https://rocq-prover.org/changes")]).
  - discriminate.
  - repeat constructor.
Defined.

(** X20. The tool result handed back to the model, for results whose
    title, url and content are strings: the JSON text of an array with
    one object per result for the first five results, in order, holding
    the title, the url, and the first 500 characters of the content, and
    nothing else of the result.  No content in it is longer than 500
    characters. *)
Theorem tool_result_keeps_first_five (results : list JSON)
        (items : list (string * string * string)) :
  Forall2 (fun r c => Json.prop "title" (Some r) = Some (JStr c.1.1)
                      /\ Json.prop "url" (Some r) = Some (JStr c.1.2)
                      /\ Json.prop "content" (Some r) = Some (JStr c.2))
          results items ->
  OpenAI.toolResultContent (Some (JArr results))
  = Some (Json.stringify
            (JArr (map (fun c => JObj [("title", JStr c.1.1); ("url", JStr c.1.2);
                                       ("content", JStr (JsString.slice0 500 c.2))])
                       (take 5 items))))
  /\ Forall (fun c => String.length (JsString.slice0 500 c.2) <= 500) items.
Proof.
  intros H. split.
  - unfold OpenAI.toolResultContent.
    by rewrite (CitationFacts.mapIndexed_toolResultEntry 0 (take 5 results)
                  (take 5 items) (Forall2_take _ _ _ 5 H)).
  - apply Forall_forall. intros c _. apply CitationFacts.length_substring.
Qed.

Lemma tool_result_keeps_first_five_witness :
  OpenAI.toolResultContent (Json.prop "results" (Some twoResults))
  = Some (Json.stringify
            (JArr [JObj [("title", JStr "Rocq 9.0 released");
                         ("url", JStr "https://rocq-prover.org/news");
                         ("content", JStr "The Rocq Prover 9.0 is out.")];
                   JObj [("title", JStr "Release notes");
                         ("url", JStr "https://rocq-prover.org/changes");
                         ("content", JStr "Summary of changes.")]])).
Proof.
  apply (tool_result_keeps_first_five _
           [("Rocq 9.0 released", "https://rocq-prover.org/news",
             "The Rocq Prover 9.0 is out.");
            ("Release notes", "https://rocq-prover.org/changes",
             "Summary of changes.")]).
  repeat constructor.
Defined.

(* ===================================================================== *)
(** * Further properties of the session store *)
(* ===================================================================== *)

Module UseChatMoreFacts.
Import UseChat.

Lemma updateSession_nonempty id f l : l <> [] -> updateSession id f l <> [].
Proof. by destruct l. Qed.

(** No handler empties the collection or unsets the pointer. *)
Lemma step_keeps_a_session a st :
  sessions st <> [] /\ currentSessionId st <> None ->
  sessions (step a st) <> [] /\ currentSessionId (step a st) <> None.
Proof.
  intros [Hs Hc]. destruct a; simpl.
  - unfold createNewSession.
    destruct (currentSession st) as [cur|];
      [destruct (Session.messages cur)|]; by simpl.
  - by simpl.
  - unfold deleteSession.
    destruct (List.filter _ (sessions st)) as [|first rest]; simpl; [done|].
    split; [done|]. by case_bool_decide.
  - unfold renameSession. destruct (negb _); [done|]. simpl.
    split; [by apply updateSession_nonempty|done].
  - unfold toggleStarSession. simpl.
    split; [by apply updateSession_nonempty|done].
  - unfold clearCurrentSession. destruct (negb _); [done|]. simpl.
    split; [by apply updateSession_nonempty|done].
  - unfold beginSend. destruct (currentSessionId st) as [c|] eqn:Hcur; [|done].
    destruct (_ || _); [by rewrite Hcur|]. simpl.
    split; [by apply updateSession_nonempty|by rewrite Hcur].
  - done.
  - unfold settleSend. simpl. split; [by apply updateSession_nonempty|done].
Qed.

Lemma foldl_setChatStatus (l : list ChatStatus) (st : Store) :
  let st' := foldl (fun s status => setChatStatus status s) st l in
  sessions st' = sessions st /\ currentSessionId st' = currentSessionId st
  /\ isLoading st' = isLoading st.
Proof.
  revert st. induction l as [|x l IH]; intros st; simpl; [done|].
  destruct (IH (setChatStatus x st)) as (-> & -> & ->). done.
Qed.

(** The guard of [sendMessage] lets a send through. *)
Definition sendable (content : string) (st : Store) (sid : string) : Prop :=
  currentSessionId st = Some sid /\ sid <> "" /\ JsString.trim content <> ""
  /\ isLoading st = false.

(** The request history of a send: the messages of the active session
    that are no error messages, then the new one. *)
Definition historyOf (content : string) (st : Store) : list OpenAIMessage :=
  (map (fun m => ChatMsg (Message.role m) (Message.content m))
       (List.filter (fun m => negb (default false (Message.isError m)))
                    (currentMessages st))
   ++ [ChatMsg "user" (JsString.trim content)])%list.

Definition questionOf (d : Draws) (content : string) : Message.t :=
  {| Message.id := userMessageId d; Message.role := "user";
     Message.content := JsString.trim content; Message.timestamp := sentAt d;
     Message.isError := None |}.

Definition replyOf (d : Draws) (outcome : Thrown + string) : Message.t :=
  {| Message.id := replyId d; Message.role := "assistant";
     Message.content := match outcome with
                        | inr text => text
                        | inl err => displayText err
                        end;
     Message.timestamp := repliedAt d;
     Message.isError := match outcome with inr _ => None | inl _ => Some true end |}.

(** What one exchange does to a session. *)
Definition exchanged (d : Draws) (content : string) (outcome : Thrown + string)
           (s : Session.t) : Session.t :=
  {| Session.id := Session.id s;
     Session.title :=
       if existsb (fun m => String.eqb (Message.role m) "user") (Session.messages s)
       then Session.title s else JsString.slice0 40 (JsString.trim content);
     Session.messages :=
       (Session.messages s ++ [questionOf d content; replyOf d outcome])%list;
     Session.createdAt := Session.createdAt s;
     Session.updatedAt := replyUpdatedAt d;
     Session.starred := Session.starred s |}.

Lemma updateSession_twice id f g l :
  (forall s, Session.id (f s) = Session.id s) ->
  updateSession (Some id) g (updateSession (Some id) f l)
  = updateSession (Some id) (fun s => g (f s)) l.
Proof.
  intros Hf. unfold updateSession. rewrite map_map. apply map_ext. intros s.
  unfold isCurrent. destruct (String.eqb (Session.id s) id) eqn:E.
  - by rewrite Hf, E.
  - by rewrite E.
Qed.

Lemma sendMessage_sendable env d content st sid :
  sendable content st sid ->
  let result := OpenAI.sendChatMessage env (historyOf content st) [] in
  sendMessage env d content st
  = ({| sessions := updateSession (Some sid) (exchanged d content (fst result))
                                  (sessions st);
        currentSessionId := Some sid; isLoading := false; chatStatus := idle |},
     snd result).
Proof.
  intros (Hcur & Hsid & Htrim & Hload) result. subst result.
  unfold sendMessage, beginSend. rewrite Hcur, Hload.
  apply String.eqb_neq in Hsid, Htrim. unfold JsString.truthy.
  rewrite Hsid, Htrim. cbn [negb orb].
  fold (historyOf content st). cbn [apiHistory sessionId].
  destruct (OpenAI.sendChatMessage env (historyOf content st) []) as [outcome log].
  cbn [fst snd]. f_equal.
  match goal with
  | |- context [foldl ?f ?s ?l] =>
      destruct (foldl_setChatStatus l s) as (Hs & Hc & _);
      cbv zeta in Hs, Hc; set (st2 := foldl f s l) in *
  end.
  destruct outcome as [err|text];
  change (settleSend sid ?o (replyId d) (repliedAt d) (replyUpdatedAt d) st2)
    with {| sessions :=
              updateSession (Some sid)
                (appendMessage (replyOf d o) (replyUpdatedAt d)) (sessions st2);
            currentSessionId := currentSessionId st2;
            isLoading := false; chatStatus := idle |};
  rewrite Hs, Hc;
  cbn [sessions currentSessionId withSessions setChatStatus setIsLoading];
  rewrite Hcur; f_equal;
  (rewrite updateSession_twice by (intros s; reflexivity));
  unfold updateSession; apply map_ext; intros s;
  (destruct (isCurrent (Some sid) s); [|done]);
  unfold appendMessage, exchanged, questionOf, replyOf; cbn;
  rewrite <- app_assoc; cbn;
  destruct (existsb _ (Session.messages s)); reflexivity.
Qed.

Lemma find_updateSession id f l :
  (forall s, Session.id (f s) = Session.id s) ->
  find (isCurrent (Some id)) (updateSession (Some id) f l)
  = f <$> find (isCurrent (Some id)) l.
Proof.
  intros Hf. unfold updateSession. induction l as [|s l IH]; [done|].
  cbn [map find]. destruct (isCurrent (Some id) s) eqn:E.
  - unfold isCurrent in *. by rewrite Hf, E.
  - by rewrite E, IH.
Qed.


End UseChatMoreFacts.

(** X21. The store never runs out of sessions: whatever the handlers are
    called with, and in whatever order, every reachable store holds at
    least one session and its active pointer is set. *)
Theorem store_is_never_empty (st : Store) :
  UseChat.reachable UseChat.anyAction st ->
  sessions st <> [] /\ currentSessionId st <> None.
Proof.
  intros H. induction H as [stored newId now | a st _ IH _].
  - unfold UseChat.mount. by destruct stored.
  - by apply UseChatMoreFacts.step_keeps_a_session.
Qed.

Lemma store_is_never_empty_witness :
  sessions (UseChat.step (UseChat.DeleteSession "s1" "s2" "2024-01-02T00:00:00.000Z")
                         soleStore) <> []
  /\ currentSessionId
       (UseChat.step (UseChat.DeleteSession "s1" "s2" "2024-01-02T00:00:00.000Z")
                     soleStore) <> None.
Proof.
  apply (store_is_never_empty
           (UseChat.step (UseChat.DeleteSession "s1" "s2" "2024-01-02T00:00:00.000Z")
                         (UseChat.mount [soleSession] "s0" "2024-01-01T00:00:00.000Z"))).
  apply UseChat.reachable_step; [apply UseChat.reachable_mount | exact I].
Defined.

(** X22. One whole send that passes the guard.  Every session with the
    active id gets the trimmed question and then the reply appended, in
    that order, and [updatedAt] set to the instant of the reply; its title
    becomes the first 40 characters of the question when it held no user
    message before, and stays otherwise; the reply is the returned text,
    or the text of the error flagged [isError].  Every other session, the
    order of the collection and the active pointer stay, and the store
    ends idle and not loading, on success and on failure alike.  The
    events of the send are those of the one [sendChatMessage] call. *)
Theorem send_appends_question_and_reply (env : Env) (d : UseChat.Draws)
        (content : string) (st : Store) (sid : string) :
  currentSessionId st = Some sid -> sid <> "" ->
  JsString.trim content <> "" -> isLoading st = false ->
  let question :=
    {| Message.id := UseChat.userMessageId d; Message.role := "user";
       Message.content := JsString.trim content;
       Message.timestamp := UseChat.sentAt d; Message.isError := None |} in
  let history :=
    (map (fun m => ChatMsg (Message.role m) (Message.content m))
         (List.filter (fun m => negb (default false (Message.isError m)))
                      (UseChat.currentMessages st))
     ++ [ChatMsg "user" (JsString.trim content)])%list in
  let outcome := fst (OpenAI.sendChatMessage env history []) in
  let reply :=
    {| Message.id := UseChat.replyId d; Message.role := "assistant";
       Message.content := match outcome with
                          | inr text => text
                          | inl err => UseChat.displayText err
                          end;
       Message.timestamp := UseChat.repliedAt d;
       Message.isError := match outcome with inr _ => None | inl _ => Some true end |} in
  let st' := fst (UseChat.sendMessage env d content st) in
  snd (UseChat.sendMessage env d content st)
  = snd (OpenAI.sendChatMessage env history [])
  /\ currentSessionId st' = Some sid
  /\ isLoading st' = false /\ chatStatus st' = idle
  /\ length (sessions st') = length (sessions st)
  /\ forall (i : nat) (s : Session.t),
      sessions st !! i = Some s ->
      exists s', sessions st' !! i = Some s'
        /\ if String.eqb (Session.id s) sid
           then Session.messages s' = (Session.messages s ++ [question; reply])%list
                /\ Session.title s'
                   = (if existsb (fun m => String.eqb (Message.role m) "user")
                                 (Session.messages s)
                      then Session.title s
                      else JsString.slice0 40 (JsString.trim content))
                /\ Session.updatedAt s' = UseChat.replyUpdatedAt d
                /\ Session.id s' = Session.id s
                /\ Session.createdAt s' = Session.createdAt s
                /\ Session.starred s' = Session.starred s
           else s' = s.
Proof.
  intros Hcur Hsid Htrim Hload. cbv zeta.
  rewrite (UseChatMoreFacts.sendMessage_sendable env d content st sid)
    by (by split_and!).
  fold (UseChatMoreFacts.historyOf content st). cbn [fst snd].
  cbn [sessions currentSessionId isLoading chatStatus].
  split_and!; try done.
  - unfold UseChat.updateSession. by rewrite length_map.
  - intros i s Hi. unfold UseChat.updateSession.
    rewrite list_lookup_fmap, Hi. simpl. eexists. split; [done|].
    destruct (String.eqb (Session.id s) sid); [|done].
    by split_and!.
Qed.

Lemma send_appends_question_and_reply_witness :
  map (fun s => map (fun m => (Message.role m, Message.content m, Message.isError m))
                    (Session.messages s))
      (sessions (fst (UseChat.sendMessage retryEnv someDraws " hello "
                        (UseChat.mount [] "s1" "2024-01-01T00:00:00.000Z"))))
  = [[("user", "hello", None); ("assistant", "Hi there", None)]].
Proof.
  destruct (send_appends_question_and_reply retryEnv someDraws " hello "
              (UseChat.mount [] "s1" "2024-01-01T00:00:00.000Z") "s1"
              eq_refl ltac:(discriminate) ltac:(discriminate) eq_refl)
    as (_ & _ & _ & _ & Hlen & Hsessions).
  destruct (Hsessions 0 _ eq_refl) as (s' & Hs' & Hmsgs & _).
  destruct (sessions (fst (UseChat.sendMessage retryEnv someDraws " hello "
                             (UseChat.mount [] "s1" "2024-01-01T00:00:00.000Z"))))
    as [|s0 [|s1 rest]]; [discriminate Hs' | | discriminate Hlen].
  injection Hs' as ->. cbn [map]. rewrite Hmsgs. reflexivity.
Defined.

Module SendFacts.
Import RunMonad OpenAI.

#[local] Arguments Json.prop : simpl never.
#[local] Arguments Json.first : simpl never.
#[local] Arguments Json.isTheString : simpl never.
#[local] Arguments isFailedGeneration : simpl never.
#[local] Arguments badRequestMessage : simpl never.
#[local] Arguments isNetworkFailure : simpl never.
#[local] Arguments buildSystemPrompt : simpl never.
#[local] Arguments finishReasonOf : simpl never.
#[local] Arguments String.eqb : simpl never.

(** With a key, every send starts with the same request. *)
Lemma sendChatMessage_first_request env history apiKey :
  configured (VITE_GROQ_API_KEY env) "your_groq_api_key_here" = Some apiKey ->
  exists rest,
    snd (sendChatMessage env history [])
    = ([Notify thinking; GroqCall (firstRequest env history apiKey)] ++ rest)%list.
Proof.
  intros Hkey. unfold sendChatMessage. rewrite Hkey.
  unfold onStatusChange, doFetch, bind, tryCatch, ret, throw, emit, await.
  simpl. fold (firstRequest env history apiKey).
  set (log1 := [Notify thinking; GroqCall _]).
  destruct (groqFetch env 0) as [e|r1]; simpl.
  { exists []. destruct e; simpl; try destruct (isNetworkFailure _); done. }
  destruct (negb (ok r1)).
  - destruct (status r1 =? 400)%Z.
    + destruct (isFailedGeneration _); [|by exists []].
      rewrite OpenAIFacts.retryWithoutTools_log. eauto.
    + rewrite OpenAIMoreFacts.handleHttpError_throws. by exists [].
  - destruct (json r1) as [e|firstData]; simpl; [by exists []|].
    destruct (negb (Json.isTheString _ _)).
    + rewrite OpenAIFacts.usableContent_log. by exists [].
    + match goal with
      | |- context [toolCallPath env ?m ?k ?c ?l] =>
          destruct (OpenAIFacts.toolCallPath_log env m k c l)
            as [-> | (evs & req & -> & _)]
      end; [by exists []|eauto].
Qed.

End SendFacts.

(** X23. What a send submits.  With an API key configured, the first
    request of a send that passes the guard carries the system prompt,
    then the messages of the active session that are not flagged as
    errors, in order and with their roles, then the trimmed question; it
    declares the search tool.  Error messages of the transcript are never
    sent back to the model. *)
Theorem send_submits_history_without_errors (env : Env) (d : UseChat.Draws)
        (content : string) (st : Store) (sid apiKey : string) :
  currentSessionId st = Some sid -> sid <> "" ->
  JsString.trim content <> "" -> isLoading st = false ->
  configured (VITE_GROQ_API_KEY env) "your_groq_api_key_here" = Some apiKey ->
  head (groqCalls (snd (UseChat.sendMessage env d content st)))
  = Some {| messages :=
              ChatMsg "system" (OpenAI.buildSystemPrompt env)
              :: (map (fun m => ChatMsg (Message.role m) (Message.content m))
                      (List.filter (fun m => negb (default false (Message.isError m)))
                                   (UseChat.currentMessages st))
                  ++ [ChatMsg "user" (JsString.trim content)])%list;
            apiKey := apiKey; includeTools := true |}.
Proof.
  intros Hcur Hsid Htrim Hload Hkey.
  rewrite (UseChatMoreFacts.sendMessage_sendable env d content st sid)
    by (by split_and!).
  cbn [snd].
  destruct (SendFacts.sendChatMessage_first_request env
              (UseChatMoreFacts.historyOf content st) apiKey Hkey) as [rest ->].
  reflexivity.
Qed.

Lemma send_submits_history_without_errors_witness :
  (messages <$> head (groqCalls (snd (UseChat.sendMessage retryEnv someDraws
                                        " again " failedStore))))
  = Some [ChatMsg "system" (OpenAI.buildSystemPrompt retryEnv);
          ChatMsg "user" "Hello world"; ChatMsg "user" "again"].
Proof.
  rewrite (send_submits_history_without_errors retryEnv someDraws " again "
             failedStore "s1" "gsk_test"
             eq_refl ltac:(discriminate) ltac:(discriminate) eq_refl eq_refl).
  reflexivity.
Defined.

(** X24. Without an API key (none, an empty one, or the placeholder of
    the sample configuration), a send that passes the guard makes no
    request and reports no status: the question is appended to the
    active session all the same, followed by a reply flagged as an error
    that tells the key is missing. *)
Theorem send_without_api_key (env : Env) (d : UseChat.Draws) (content : string)
        (st : Store) (sid : string) (s : Session.t) :
  configured (VITE_GROQ_API_KEY env) "your_groq_api_key_here" = None ->
  currentSessionId st = Some sid -> sid <> "" ->
  JsString.trim content <> "" -> isLoading st = false ->
  UseChat.currentSession st = Some s ->
  snd (UseChat.sendMessage env d content st) = []
  /\ UseChat.currentMessages (fst (UseChat.sendMessage env d content st))
     = (Session.messages s
        ++ [{| Message.id := UseChat.userMessageId d; Message.role := "user";
               Message.content := JsString.trim content;
               Message.timestamp := UseChat.sentAt d; Message.isError := None |};
            {| Message.id := UseChat.replyId d; Message.role := "assistant";
               Message.content :=
                 "Groq API key is not configured. Please add your VITE_GROQ_API_KEY to the .env file.";
               Message.timestamp := UseChat.repliedAt d;
               Message.isError := Some true |}])%list
  /\ (VITE_GROQ_API_KEY env = None \/ VITE_GROQ_API_KEY env = Some ""
      \/ VITE_GROQ_API_KEY env = Some "your_groq_api_key_here").
Proof.
  intros Hkey Hcur Hsid Htrim Hload Hs.
  rewrite (UseChatMoreFacts.sendMessage_sendable env d content st sid)
    by (by split_and!).
  cbn [fst snd]. unfold OpenAI.sendChatMessage. rewrite Hkey.
  split_and!.
  - reflexivity.
  - unfold UseChat.currentMessages, UseChat.currentSession in *.
    cbn [sessions currentSessionId]. rewrite Hcur in Hs.
    rewrite UseChatMoreFacts.find_updateSession by (intros x; reflexivity).
    rewrite Hs. reflexivity.
  - unfold configured in Hkey. destruct (VITE_GROQ_API_KEY env) as [k|]; [|by left].
    right. unfold JsString.truthy in Hkey.
    destruct (String.eqb_spec k ""); [left; congruence|].
    destruct (String.eqb_spec k "your_groq_api_key_here"); [right; congruence|].
    discriminate Hkey.
Qed.

Lemma send_without_api_key_witness :
  snd (UseChat.sendMessage noKeyEnv someDraws "hello" soleStore) = []
  /\ map Message.isError
         (UseChat.currentMessages
            (fst (UseChat.sendMessage noKeyEnv someDraws "hello" soleStore)))
     = [None; None; Some true].
Proof.
  destruct (send_without_api_key noKeyEnv someDraws "hello" soleStore "s1" soleSession
              eq_refl eq_refl ltac:(discriminate) ltac:(discriminate) eq_refl eq_refl)
    as (Hlog & Hmsgs & _).
  split; [exact Hlog|]. rewrite Hmsgs. reflexivity.
Defined.


Module TrimMoreFacts.
Import JsString.

Lemma trimEnd_idem (s : string) : trimEnd (trimEnd s) = trimEnd s.
Proof.
  induction s as [|c s IH]; [done|].
  cbn [trimEnd]. destruct (trimEnd s) as [|c' r'] eqn:Hs.
  - destruct (isWhiteSpace c) eqn:Hc; [done|]. cbn [trimEnd]. by rewrite Hc.
  - cbn [trimEnd]. fold trimEnd. cbn [trimEnd] in IH. by rewrite IH.
Qed.

Lemma trimEnd_head (c : ascii) (r : string) :
  isWhiteSpace c = false -> exists r', trimEnd (String c r) = String c r'.
Proof.
  intros Hc. cbn [trimEnd]. destruct (trimEnd r); [rewrite Hc|]; eauto.
Qed.

(** Trimming a trimmed string changes nothing. *)
Lemma trim_idem (s : string) : trim (trim s) = trim s.
Proof.
  unfold trim.
  destruct (TrimFacts.trimStart_spec s) as [[_ ->] | (_ & c & r & -> & Hc)]; [done|].
  destruct (trimEnd_head c r Hc) as [r' Hr']. rewrite Hr'.
  cbn [trimStart]. rewrite Hc. rewrite <- Hr'. apply trimEnd_idem.
Qed.

End TrimMoreFacts.

(** X26. [renameSession] uses the trimmed title.  A title that is blank
    once trimmed leaves the store as it was.  Otherwise every session
    with the given id gets the trimmed title and keeps everything else,
    [updatedAt] included; every other session, the order, the active
    pointer and the flags stay.  Renaming again to the same title, or
    renaming to the title already trimmed, gives the same store. *)
Theorem renameSession_sets_trimmed_title (id newTitle : string) (st : Store) :
  let st' := UseChat.renameSession id newTitle st in
  (JsString.trim newTitle = "" -> st' = st)
  /\ (JsString.trim newTitle <> "" ->
      currentSessionId st' = currentSessionId st
      /\ isLoading st' = isLoading st
      /\ chatStatus st' = chatStatus st
      /\ length (sessions st') = length (sessions st)
      /\ forall (i : nat) (s : Session.t),
          sessions st !! i = Some s ->
          exists s', sessions st' !! i = Some s'
            /\ if String.eqb (Session.id s) id
               then Session.title s' = JsString.trim newTitle
                    /\ Session.id s' = Session.id s
                    /\ Session.messages s' = Session.messages s
                    /\ Session.createdAt s' = Session.createdAt s
                    /\ Session.updatedAt s' = Session.updatedAt s
                    /\ Session.starred s' = Session.starred s
               else s' = s)
  /\ UseChat.renameSession id newTitle st' = st'
  /\ UseChat.renameSession id (JsString.trim newTitle) st = st'.
Proof.
  cbv zeta. unfold UseChat.renameSession.
  rewrite TrimMoreFacts.trim_idem. unfold JsString.truthy.
  destruct (String.eqb_spec (JsString.trim newTitle) "") as [Hblank|Hne];
    cbn [negb].
  - by split_and!.
  - split_and!; try done.
    + intros _. cbn [sessions currentSessionId isLoading chatStatus UseChat.withSessions].
      split_and!; try done.
      * unfold UseChat.updateSession. by rewrite length_map.
      * intros i s Hi. unfold UseChat.updateSession.
        rewrite list_lookup_fmap, Hi. simpl. eexists. split; [done|].
        by destruct (String.eqb (Session.id s) id).
    + unfold UseChat.withSessions.
      cbn [sessions currentSessionId isLoading chatStatus]. f_equal.
      rewrite UseChatMoreFacts.updateSession_twice by (intros s; reflexivity).
      unfold UseChat.updateSession. apply map_ext. intros s.
      by destruct (UseChat.isCurrent (Some id) s).
Qed.

(** X27. [toggleStarSession] flips the star of every session with the
    given id, an absent flag counting as unset, and changes nothing else.
    Two toggles restore which sessions are starred, though a flag that
    was absent is then present and false; three toggles are one. *)
Theorem toggleStarSession_flips (id : string) (st : Store) :
  let st' := UseChat.toggleStarSession id st in
  currentSessionId st' = currentSessionId st
  /\ isLoading st' = isLoading st
  /\ chatStatus st' = chatStatus st
  /\ length (sessions st') = length (sessions st)
  /\ (forall (i : nat) (s : Session.t),
        sessions st !! i = Some s ->
        exists s', sessions st' !! i = Some s'
          /\ if String.eqb (Session.id s) id
             then Session.starred s' = Some (negb (default false (Session.starred s)))
                  /\ Session.id s' = Session.id s
                  /\ Session.title s' = Session.title s
                  /\ Session.messages s' = Session.messages s
                  /\ Session.createdAt s' = Session.createdAt s
                  /\ Session.updatedAt s' = Session.updatedAt s
             else s' = s)
  /\ map (fun s => default false (Session.starred s))
         (sessions (UseChat.toggleStarSession id st'))
     = map (fun s => default false (Session.starred s)) (sessions st)
  /\ UseChat.toggleStarSession id (UseChat.toggleStarSession id st') = st'.
Proof.
  cbv zeta. unfold UseChat.toggleStarSession, UseChat.withSessions.
  cbn [sessions currentSessionId isLoading chatStatus].
  split_and!; try done.
  - unfold UseChat.updateSession. by rewrite length_map.
  - intros i s Hi. unfold UseChat.updateSession.
    rewrite list_lookup_fmap, Hi. simpl. eexists. split; [done|].
    by destruct (String.eqb (Session.id s) id).
  - rewrite UseChatMoreFacts.updateSession_twice by (intros s; reflexivity).
    unfold UseChat.updateSession. rewrite map_map. apply map_ext. intros s.
    destruct (UseChat.isCurrent (Some id) s); [|done]. simpl.
    by rewrite negb_involutive.
  - f_equal.
    rewrite !UseChatMoreFacts.updateSession_twice by (intros s; reflexivity).
    unfold UseChat.updateSession. apply map_ext. intros s.
    destruct (UseChat.isCurrent (Some id) s); [|done]. simpl.
    by rewrite negb_involutive.
Qed.

(** X28. A deleted id is forgotten.  When the id drawn for a fresh
    session differs from the deleted one, after [deleteSession] no
    session has the deleted id and the active pointer does not name it.
    Every session with another id is kept; when there is one, the
    collection is the old one without the sessions of that id, in the old
    order, and a pointer that named another id stays. *)
Theorem deleteSession_forgets_the_id (id newId now : string) (st : Store) :
  newId <> id ->
  let st' := UseChat.deleteSession id newId now st in
  (id ∉ map Session.id (sessions st'))
  /\ currentSessionId st' <> Some id
  /\ (forall s, s ∈ sessions st -> Session.id s <> id -> s ∈ sessions st')
  /\ (forall s, s ∈ sessions st -> Session.id s <> id ->
        sessions st'
        = List.filter (fun s => negb (String.eqb (Session.id s) id)) (sessions st)
        /\ (currentSessionId st <> Some id ->
            currentSessionId st' = currentSessionId st))
  /\ isLoading st' = isLoading st /\ chatStatus st' = chatStatus st.
Proof.
  intros Hnew. cbv zeta. unfold UseChat.deleteSession.
  set (keep := fun s => negb (String.eqb (Session.id s) id)).
  assert (Hkeep : forall s, s ∈ List.filter keep (sessions st)
                            <-> s ∈ sessions st /\ Session.id s <> id).
  { intros s. rewrite !list_elem_of_In, filter_In. subst keep. simpl.
    by rewrite negb_true_iff, String.eqb_neq. }
  destruct (List.filter keep (sessions st)) as [|first rest] eqn:Hf;
    cbn [sessions currentSessionId isLoading chatStatus].
  - split_and!; try done.
    + cbn. intros H%list_elem_of_singleton. congruence.
    + cbn. congruence.
    + intros s Hs Hid. exfalso.
      pose proof (proj2 (Hkeep s) (conj Hs Hid)) as H. by apply not_elem_of_nil in H.
    + intros s Hs Hid. exfalso.
      pose proof (proj2 (Hkeep s) (conj Hs Hid)) as H. by apply not_elem_of_nil in H.
  - assert (Hfirst : Session.id first <> id).
    { apply (Hkeep first). apply list_elem_of_here. }
    split_and!; try done.
    + intros (s & Hid & Hs)%list_elem_of_fmap. apply Hkeep in Hs as [_ Hs]. congruence.
    + case_bool_decide as Hcur; congruence.
    + intros s Hs Hid. by apply Hkeep.
    + intros s Hs Hid. split; [done|]. intros Hcur.
      by rewrite bool_decide_false.
Qed.

Lemma deleteSession_forgets_the_id_witness :
  ("s1" ∉ map Session.id
              (sessions (UseChat.deleteSession "s1" "s9" "2024-01-02T00:00:00.000Z"
                           (UseChat.createNewSession "s2" "2024-01-01T00:00:03.000Z"
                              soleStore))))
  /\ currentSessionId
       (UseChat.deleteSession "s1" "s9" "2024-01-02T00:00:00.000Z"
          (UseChat.createNewSession "s2" "2024-01-01T00:00:03.000Z" soleStore))
     = Some "s2".
Proof.
  destruct (deleteSession_forgets_the_id "s1" "s9" "2024-01-02T00:00:00.000Z"
              (UseChat.createNewSession "s2" "2024-01-01T00:00:03.000Z" soleStore)
              ltac:(discriminate))
    as (Hgone & _).
  split; [exact Hgone | reflexivity].
Defined.

Module ReloadFacts.
Import Storage.

Lemma rejectsWrites_saveSessions (l : list Session.t) (ls : LocalStorage) :
  rejectsWrites (saveSessions l ls) = rejectsWrites ls.
Proof.
  unfold saveSessions, saveObjects, setItem.
  by destruct (rejectsWrites ls) eqn:E.
Qed.

Lemma getItem_legacy_saveSessions (l : list Session.t) (ls : LocalStorage) :
  getItem LEGACY_KEY (saveSessions l ls) = getItem LEGACY_KEY ls.
Proof.
  unfold saveSessions, saveObjects, setItem, getItem.
  destruct (rejectsWrites ls); [done|]. simpl. by rewrite lookup_insert_ne.
Qed.

(** A load from a store whose current key holds the empty array and
    which has no legacy key. *)
Lemma loadSessions_emptied (newId : string) (ls : LocalStorage) :
  getItem SESSIONS_KEY ls = Some "[]" ->
  getItem LEGACY_KEY ls = None ->
  loadSessions newId ls = ([], ls).
Proof.
  intros Hcur Hleg. unfold loadSessions, migrateLegacy. by rewrite Hcur, Hleg.
Qed.

End ReloadFacts.

(** X29. Reloading the page, after the persist effect has written a
    non-empty collection to a store that takes the write.  During the
    first commit the persist effect of the first render writes the empty
    array over the stored sessions, the mount effect having raised
    [hasLoaded] just before.  In a production build the sessions were
    read before that: the store gets the first 50 of them, in order, the
    first one active whichever was active before, and the render that
    follows writes them back.  Under [React.StrictMode] in a development
    build, which is how [main.tsx] mounts the application, the second run
    of the mount effect reads the empty array: with no legacy key to
    migrate, the stored sessions are lost, the store holds one fresh
    session and the current key holds that session alone. *)
Theorem reload_first_commit (st : Store) (ls : LocalStorage)
        (d1 d2 : UseChat.MountDraws) :
  sessions st <> [] ->
  rejectsWrites ls = false ->
  let stored := UseChat.persistEffect true st ls in
  let production := UseChat.firstCommit false stored d1 d2 in
  let development := UseChat.firstCommit true stored d1 d2 in
  let fresh :=
    UseChat.createEmptySession (UseChat.freshId d2) (UseChat.freshAt d2) in
  fst production
  = {| sessions := take 50 (sessions st);
       currentSessionId := Session.id <$> head (sessions st);
       isLoading := false; chatStatus := idle |}
  /\ Storage.getItem Storage.SESSIONS_KEY (snd production)
     = Some (Json.stringify (JArr (map Session.toJSON (take 50 (sessions st)))))
  /\ (Storage.getItem Storage.LEGACY_KEY ls = None ->
      fst development
      = {| sessions := [fresh]; currentSessionId := Some (UseChat.freshId d2);
           isLoading := false; chatStatus := idle |}
      /\ Storage.getItem Storage.SESSIONS_KEY (snd development)
         = Some (Json.stringify (JArr [Session.toJSON fresh]))).
Proof.
  intros Hne Hw. cbv zeta.
  unfold UseChat.firstCommit, UseChat.mountEffect, UseChat.persistEffect.
  rewrite (StorageFacts.loadSessions_of_text (UseChat.migratedId d1)
             (take 50 (sessions st)));
    [| by apply StorageMoreFacts.take_nonempty
     | by rewrite StorageFacts.getItem_saveSessions].
  set (stored := Storage.saveSessions (sessions st) ls).
  set (emptied := Storage.saveSessions (sessions UseChat.initialStore) stored).
  assert (Hws : rejectsWrites stored = false)
    by (subst stored; by rewrite ReloadFacts.rejectsWrites_saveSessions).
  assert (Hwe : rejectsWrites emptied = false)
    by (subst emptied; by rewrite ReloadFacts.rejectsWrites_saveSessions).
  split_and!.
  - cbn [fst]. unfold UseChat.mount. by destruct (sessions st).
  - cbn [snd]. rewrite StorageFacts.getItem_saveSessions by done.
    cbn [sessions].
    assert (Hm : forall l : list Session.t,
              sessions (UseChat.mount l (UseChat.freshId d1) (UseChat.freshAt d1))
              = match l with
                | [] => [UseChat.createEmptySession (UseChat.freshId d1)
                                                    (UseChat.freshAt d1)]
                | _ => l
                end) by (by intros []).
    rewrite Hm. destruct (sessions st) as [|s0 l0] eqn:Hs; [done|].
    change (take 50 (s0 :: l0)) with (s0 :: take 49 l0) at 1.
    cbv iota. by rewrite take_take.
  - intros Hleg.
    assert (Hload : forall i, Storage.loadSessions i emptied = ([], emptied)).
    { intros i. apply ReloadFacts.loadSessions_emptied.
      - subst emptied. by rewrite StorageFacts.getItem_saveSessions.
      - subst emptied stored.
        by rewrite !ReloadFacts.getItem_legacy_saveSessions. }
    rewrite Hload. cbn [fst snd UseChat.mount sessions].
    split; [done|].
    rewrite StorageFacts.getItem_saveSessions; [done|].
    by rewrite ReloadFacts.rejectsWrites_saveSessions.
Qed.

Lemma reload_first_commit_witness :
  map Session.id
      (sessions (fst (UseChat.firstCommit false
                        (UseChat.persistEffect true
                           (UseChat.createNewSession "s2" "2024-01-01T00:00:03.000Z"
                                                     soleStore)
                           emptyStorage)
                        (UseChat.Build_MountDraws "s7" "s8" "2024-01-02T00:00:00.000Z")
                        (UseChat.Build_MountDraws "s7" "s9" "2024-01-02T00:00:00.001Z"))))
  = ["s2"; "s1"]
  /\ map Session.id
         (sessions (fst (UseChat.firstCommit true
                           (UseChat.persistEffect true
                              (UseChat.createNewSession "s2" "2024-01-01T00:00:03.000Z"
                                                        soleStore)
                              emptyStorage)
                           (UseChat.Build_MountDraws "s7" "s8" "2024-01-02T00:00:00.000Z")
                           (UseChat.Build_MountDraws "s7" "s9" "2024-01-02T00:00:00.001Z"))))
     = ["s9"].
Proof.
  destruct (reload_first_commit
              (UseChat.createNewSession "s2" "2024-01-01T00:00:03.000Z" soleStore)
              emptyStorage
              (UseChat.Build_MountDraws "s7" "s8" "2024-01-02T00:00:00.000Z")
              (UseChat.Build_MountDraws "s7" "s9" "2024-01-02T00:00:00.001Z")
              ltac:(discriminate) eq_refl)
    as (Hproduction & _ & Hdevelopment).
  destruct (Hdevelopment eq_refl) as [Hlost _].
  rewrite Hproduction, Hlost. split; reflexivity.
Defined.

(* ===================================================================== *)
(** * Properties of the message input *)
(* ===================================================================== *)

Module ChatInputFacts.
Import ChatInput.

Lemma length_trimStart (s : string) :
  String.length (JsString.trimStart s) <= String.length s.
Proof.
  induction s as [|c s IH]; simpl; [lia|].
  destruct (JsString.isWhiteSpace c); simpl; lia.
Qed.

Lemma length_trimEnd (s : string) :
  String.length (JsString.trimEnd s) <= String.length s.
Proof.
  induction s as [|c s IH]; simpl; [lia|].
  destruct (JsString.trimEnd s); [destruct (JsString.isWhiteSpace c)|];
    simpl in *; lia.
Qed.

Lemma length_trim (s : string) :
  String.length (JsString.trim s) <= String.length s.
Proof.
  unfold JsString.trim.
  pose proof (length_trimEnd (JsString.trimStart s)).
  pose proof (length_trimStart s). lia.
Qed.

(** What a text handed to [onSend] looks like. *)
Definition sendableText (text : string) : Prop :=
  text <> "" /\ JsString.trim text = text /\ String.length text <= MAX_CHARS.

Lemma step_within_limit a value :
  withinLimit a -> String.length value <= MAX_CHARS ->
  String.length (step a value).2 <= MAX_CHARS
  /\ forall text, (step a value).1 = Some text -> sendableText text.
Proof.
  intros Ha Hv. destruct a as [newVal|isLoading|initialValue]; simpl.
  - split; [|done]. unfold handleChange.
    destruct (Nat.ltb_spec MAX_CHARS (String.length newVal)); lia.
  - unfold handleSubmit, JsString.truthy.
    destruct (String.eqb_spec (JsString.trim value) "") as [He|Hne]; simpl; [done|].
    destruct isLoading; simpl; [done|].
    split; [unfold MAX_CHARS; lia|]. intros text [= <-].
    split_and!; [done|apply TrimMoreFacts.trim_idem|].
    pose proof (length_trim value). lia.
  - split; [|done]. unfold prefill. simpl in Ha.
    by destruct (JsString.truthy initialValue).
Qed.

End ChatInputFacts.

(** X30. The input field keeps to its limit.  Starting from a value of
    at most 4000 characters, and as long as no suggested prompt is longer
    than that, the value never exceeds 4000 characters whatever is typed
    or submitted, and every text handed to [onSend] is non-empty, already
    trimmed (so [sendMessage] takes it as it is) and of at most 4000
    characters.  At exactly 4000 characters the send button is disabled,
    yet [handleSubmit], which the Enter key calls, still sends. *)
Theorem input_keeps_to_max_chars (inputs : list ChatInput.Input) (value : string) :
  String.length value <= ChatInput.MAX_CHARS ->
  Forall ChatInput.withinLimit inputs ->
  String.length (ChatInput.run inputs value).2 <= ChatInput.MAX_CHARS
  /\ Forall (fun text => text <> "" /\ JsString.trim text = text
                         /\ String.length text <= ChatInput.MAX_CHARS)
            (ChatInput.run inputs value).1
  /\ (forall full,
        String.length full = ChatInput.MAX_CHARS -> JsString.trim full <> "" ->
        ChatInput.canSend full false = false
        /\ (ChatInput.handleSubmit full false).1 = Some (JsString.trim full)).
Proof.
  intros Hv Hin. split_and!.
  - revert value Hv. induction Hin as [|a rest Ha _ IH]; intros value Hv; [done|].
    cbn [ChatInput.run].
    destruct (ChatInputFacts.step_within_limit a value Ha Hv) as [Hv1 _].
    destruct (ChatInput.step a value) as [sent value1].
    specialize (IH value1 Hv1).
    by destruct (ChatInput.run rest value1) as [more value2].
  - revert value Hv. induction Hin as [|a rest Ha _ IH]; intros value Hv;
      [by apply @List.Forall_nil|].
    cbn [ChatInput.run].
    destruct (ChatInputFacts.step_within_limit a value Ha Hv) as [Hv1 Hsent].
    destruct (ChatInput.step a value) as [sent value1].
    specialize (IH value1 Hv1).
    destruct (ChatInput.run rest value1) as [more value2].
    destruct sent as [text|]; [|done].
    apply @List.Forall_cons; [by apply Hsent|done].
  - intros full Hlen Hne. split.
    + unfold ChatInput.canSend. rewrite Hlen, Nat.leb_refl.
      by rewrite andb_false_r.
    + unfold ChatInput.handleSubmit, JsString.truthy.
      apply String.eqb_neq in Hne. by rewrite Hne.
Qed.

Lemma input_keeps_to_max_chars_witness :
  (ChatInput.run [ChatInput.Prefill "Plan a trip"; ChatInput.Change "Plan a trip to Rome ";
                  ChatInput.Submit false] "").1
  = ["Plan a trip to Rome"]
  /\ String.length
       (ChatInput.run [ChatInput.Prefill "Plan a trip";
                       ChatInput.Change "Plan a trip to Rome ";
                       ChatInput.Submit false] "").2
     <= ChatInput.MAX_CHARS.
Proof.
  destruct (input_keeps_to_max_chars
              [ChatInput.Prefill "Plan a trip"; ChatInput.Change "Plan a trip to Rome ";
               ChatInput.Submit false] ""
              ltac:(unfold ChatInput.MAX_CHARS; simpl; lia)
              ltac:(repeat constructor; unfold ChatInput.MAX_CHARS; simpl; lia))
    as (Hvalue & _).
  split; [reflexivity | exact Hvalue].
Defined.
